(** * Coriolis Minion Manager: a shallow embedding of
      [coriolis/minion_manager/rpc/server.py] and its verification.

    The embedding follows the Python source function by function.  Python
    code that raises is modelled in a state-and-exception monad over a
    [World] that holds the database tables, the cron registry, the flows
    handed to the taskflow runner, the clock and the uuid source.  An
    exception never rolls the [World] back, exactly as in Python.

    Conventions:
    - logging calls are dropped, except where evaluating their arguments can
      itself raise;
    - the per-pool locks ([get_minion_pool_lock], [minion_pool_synchronized_op])
      are no-ops in this sequential model;
    - the request context [ctxt] and the [inject=] store handed to tasks are
      opaque to every property proved here and are omitted. *)

From Stdlib Require Import String Ascii List ZArith Lia Bool DecimalString.
Import ListNotations.
Open Scope string_scope.
Open Scope list_scope.
Open Scope Z_scope.

Set Implicit Arguments.
Set Warnings "-register-all".

(* ================================================================== *)
(** ** Constants *)

Module Constants.

(** Modelled from the spec: [coriolis/constants.py] is missing.  The spec
    lists the machine statuses of the machine state machine. *)
Inductive machine_status :=
| MINION_MACHINE_STATUS_UNINITIALIZED
| MINION_MACHINE_STATUS_AVAILABLE
| MINION_MACHINE_STATUS_IN_USE
| MINION_MACHINE_STATUS_HEALTHCHECKING
| MINION_MACHINE_STATUS_DEALLOCATING
| MINION_MACHINE_STATUS_ERROR_DEPLOYING
| MINION_MACHINE_STATUS_ERROR.

(** Modelled from the spec: the pool statuses of the pool state machine. *)
Inductive pool_status :=
| MINION_POOL_STATUS_DEALLOCATED
| MINION_POOL_STATUS_VALIDATING_INPUTS
| MINION_POOL_STATUS_ALLOCATING_SHARED_RESOURCES
| MINION_POOL_STATUS_ALLOCATING_MACHINES
| MINION_POOL_STATUS_ALLOCATED
| MINION_POOL_STATUS_POOL_MAINTENANCE
| MINION_POOL_STATUS_DEALLOCATING_MACHINES
| MINION_POOL_STATUS_DEALLOCATING_SHARED_RESOURCES
| MINION_POOL_STATUS_ERROR.

Definition machine_status_eqb (a b : machine_status) : bool :=
  match a, b with
  | MINION_MACHINE_STATUS_UNINITIALIZED, MINION_MACHINE_STATUS_UNINITIALIZED
  | MINION_MACHINE_STATUS_AVAILABLE, MINION_MACHINE_STATUS_AVAILABLE
  | MINION_MACHINE_STATUS_IN_USE, MINION_MACHINE_STATUS_IN_USE
  | MINION_MACHINE_STATUS_HEALTHCHECKING, MINION_MACHINE_STATUS_HEALTHCHECKING
  | MINION_MACHINE_STATUS_DEALLOCATING, MINION_MACHINE_STATUS_DEALLOCATING
  | MINION_MACHINE_STATUS_ERROR_DEPLOYING, MINION_MACHINE_STATUS_ERROR_DEPLOYING
  | MINION_MACHINE_STATUS_ERROR, MINION_MACHINE_STATUS_ERROR => true
  | _, _ => false
  end.

Definition pool_status_eqb (a b : pool_status) : bool :=
  match a, b with
  | MINION_POOL_STATUS_DEALLOCATED, MINION_POOL_STATUS_DEALLOCATED
  | MINION_POOL_STATUS_VALIDATING_INPUTS, MINION_POOL_STATUS_VALIDATING_INPUTS
  | MINION_POOL_STATUS_ALLOCATING_SHARED_RESOURCES,
    MINION_POOL_STATUS_ALLOCATING_SHARED_RESOURCES
  | MINION_POOL_STATUS_ALLOCATING_MACHINES, MINION_POOL_STATUS_ALLOCATING_MACHINES
  | MINION_POOL_STATUS_ALLOCATED, MINION_POOL_STATUS_ALLOCATED
  | MINION_POOL_STATUS_POOL_MAINTENANCE, MINION_POOL_STATUS_POOL_MAINTENANCE
  | MINION_POOL_STATUS_DEALLOCATING_MACHINES,
    MINION_POOL_STATUS_DEALLOCATING_MACHINES
  | MINION_POOL_STATUS_DEALLOCATING_SHARED_RESOURCES,
    MINION_POOL_STATUS_DEALLOCATING_SHARED_RESOURCES
  | MINION_POOL_STATUS_ERROR, MINION_POOL_STATUS_ERROR => true
  | _, _ => false
  end.

(** Modelled from the spec: platform is one of source and destination,
    and the OS type of the end-to-end scenarios is spelled "linux". *)
Definition PROVIDER_PLATFORM_SOURCE : string := "source".
Definition PROVIDER_PLATFORM_DESTINATION : string := "destination".
Definition OS_TYPE_LINUX : string := "linux".

End Constants.
Export Constants.

(* ================================================================== *)
(** ** Database models ([coriolis.db.sqlalchemy.models]) *)

(** A row of the minion machine table.  [mm_last_used_at] is a [datetime],
    counted in microseconds from [datetime.min]; [None] is SQL NULL. *)
Record MinionMachine := mkMinionMachine {
  mm_id : string;
  mm_pool_id : string;
  mm_status : machine_status;
  mm_allocated_action : option string;
  mm_last_used_at : option Z
}.

(** A minion pool.  [minion_machines] is the relationship attribute: it is
    empty in the rows of the pool table and filled from the machine table
    when a pool is fetched with [include_machines=True]. *)
Record MinionPool := mkMinionPool {
  mp_id : string;
  mp_endpoint_id : string;
  mp_platform : string;
  mp_os_type : string;
  mp_status : pool_status;
  mp_minimum_minions : Z;
  mp_maximum_minions : Z;
  mp_minion_max_idle_time : Z;
  mp_environment_options : string;
  mp_shared_resources : option string;
  minion_machines : list MinionMachine
}.

(** What the conductor returns for [get_endpoint]. *)
Record Endpoint := mkEndpoint {
  ep_id : string;
  ep_connection_info : string;
  ep_mapped_regions : list string;
  ep_type : string
}.

(* ================================================================== *)
(** ** Taskflow patterns and the task library *)

Module Taskflow.

(** The name formats live in [minion_manager/rpc/tasks.py], which is
    missing; a flow name records which format was applied to which
    arguments. *)
Inductive name_format :=
| MINION_POOL_ALLOCATION_FLOW_NAME_FORMAT
| MINION_POOL_ALLOCATE_MINIONS_SUBFLOW_NAME_FORMAT
| MINION_POOL_DEALLOCATION_FLOW_NAME_FORMAT
| MINION_POOL_DEALLOCATE_MACHINES_SUBFLOW_NAME_FORMAT
| MINION_POOL_REFRESH_FLOW_NAME_FORMAT
| MINION_POOL_HEALTHCHECK_MACHINE_SUBFLOW_NAME_FORMAT
| MINION_POOL_REALLOCATE_MACHINE_SUBFLOW_NAME_FORMAT.

Inductive flow_name :=
| NameGiven (name : string)
| NameFormat (fmt : name_format) (args : list string).

(** The constructors of the task classes, with the arguments this module
    passes to them.  An optional argument left out by the caller is
    [None]. *)
Inductive task :=
| UpdateMinionPoolStatusTask
    (pool_id : string) (new_status : pool_status)
    (status_to_revert_to : option pool_status)
| ValidateMinionPoolOptionsTask (pool_id instance_id platform : string)
| AllocateSharedPoolResourcesTask (pool_id instance_id platform : string)
| DeallocateSharedPoolResourcesTask (pool_id instance_id platform : string)
| AllocateMinionMachineTask
    (pool_id machine_id platform : string)
    (allocate_to_action : option string)
    (raise_on_cleanup_failure : option bool)
| DeallocateMinionMachineTask (pool_id machine_id platform : string)
| HealthcheckMinionMachineTask
    (pool_id machine_id platform : string)
    (machine_status_on_success : machine_status) (fail_on_error : bool).

Inductive decider_depth := Depth_ALL | Depth_FLOW.

(** [MinionMachineHealtchcheckDecider(pool_id, machine_id,
    on_successful_healthcheck=...)]. *)
Record decider := mkDecider {
  decider_pool_id : string;
  decider_machine_id : string;
  on_successful_healthcheck : bool
}.

(** An edge of a graph flow, between two of its nodes given by position. *)
Record link := mkLink {
  link_from : nat;
  link_to : nat;
  link_decider_depth : decider_depth;
  link_decider : decider
}.

Inductive flow :=
| Task (t : task)
| linear_flow (name : flow_name) (children : list flow)
| unordered_flow (name : flow_name) (children : list flow)
| graph_flow (name : flow_name) (nodes : list flow) (links : list link).

(** [bool(flow)] is [len(flow) > 0]: false when the flow has no children. *)
Definition flow_bool (f : flow) : bool :=
  match f with
  | Task _ => true
  | linear_flow _ c | unordered_flow _ c => negb (Nat.eqb (length c) 0)
  | graph_flow _ n _ => negb (Nat.eqb (length n) 0)
  end.


(** All the tasks of a flow, depth first, in the order they were added. *)
Fixpoint flow_tasks (f : flow) : list task :=
  match f with
  | Task t => [t]
  | linear_flow _ c | unordered_flow _ c =>
      (fix go (l : list flow) : list task :=
         match l with [] => [] | x :: r => flow_tasks x ++ go r end) c
  | graph_flow _ n _ =>
      (fix go (l : list flow) : list task :=
         match l with [] => [] | x :: r => flow_tasks x ++ go r end) n
  end.

End Taskflow.
Export Taskflow.

(* ================================================================== *)
(** ** Exceptions, the world and the monad *)

Inductive exn :=
| InvalidInput
| NotFound
| InvalidMinionPoolState
| InvalidMinionPoolSelection
| AttributeError       (* Python's own: attribute access on the wrong type *)
| DBError              (* a failure of the database layer *)
| RPCError             (* a failure of a remote call or of the runner *)
| OverflowError        (* Python's own: [datetime] arithmetic out of range *).

Inductive Result (A : Type) :=
| Ok (a : A)
| Raise (e : exn).
Arguments Ok {A} a.
Arguments Raise {A} e.

(** The calls to collaborators that may fail for reasons of their own: the
    mutators of the database, the conductor's [get_endpoint] and the
    runner.  The queries of the database always answer. *)
Inductive ext_call :=
| Call_set_minion_machines_allocation_statuses
    (ids : list string) (action : option string) (status : machine_status)
    (refresh_allocation_time : bool)
| Call_add_minion_machine (id : string)
| Call_delete_minion_machine (id : string)
| Call_update_minion_machine (id : string)
| Call_set_minion_machine_status (id : string) (status : machine_status)
| Call_set_minion_pool_status (id : string) (status : pool_status)
| Call_get_endpoint (id : string)
| Call_run_flow_in_background.

(** The initial store of a flow ([_get_pool_initial_taskflow_store_base]). *)
Record taskflow_store := mkStore {
  store_origin : Endpoint;
  store_destination : Endpoint;
  task_info_pool_identifier : string;
  task_info_pool_os_type : string;
  task_info_pool_environment_options : string;
  task_info_pool_shared_resources : option string
}.

(** A registered cron job: [CronJob(name, description, {"minute": minute},
    True, None, None, None, _trigger_pool_refresh, admin_ctxt, client,
    minion_pool.id)]. *)
Record CronJob := mkCronJob {
  job_name : string;
  job_description : string;
  job_minute : Z;
  job_enabled : bool;
  job_pool_id : string
}.

Record World := mkWorld {
  db_pools : list MinionPool;
  db_machines : list MinionMachine;
  conductor_endpoints : list Endpoint;
  conf_minion_pool_default_refresh_period_minutes : Z;
  cron_jobs : list CronJob;
  flows_run : list (flow * taskflow_store);
  utcnow : Z;
  uuid_source : nat -> string;
  uuid_next : nat;
  faults : ext_call -> bool
}.

Definition M (A : Type) : Type := World -> Result A * World.

Definition ret {A} (a : A) : M A := fun w => (Ok a, w).
Definition raise {A} (e : exn) : M A := fun w => (Raise e, w).

(** A computation that may raise and touches nothing. *)
Definition lift {A} (r : Result A) : M A := fun w => (r, w).
Definition bind {A B} (m : M A) (k : A -> M B) : M B :=
  fun w => match m w with
           | (Ok a, w') => k a w'
           | (Raise e, w') => (Raise e, w')
           end.

Notation "x <- c1 ;; c2" := (bind c1 (fun x => c2))
  (at level 61, c1 at next level, right associativity).
Notation "c1 ;; c2" := (bind c1 (fun _ => c2))
  (at level 61, right associativity).

(** [try: body  except Exception as ex: handler ex]. *)
Definition try_except {A} (body : M A) (handler : exn -> M A) : M A :=
  fun w => match body w with
           | (Ok a, w') => (Ok a, w')
           | (Raise e, w') => handler e w'
           end.

Fixpoint for_each {A} (l : list A) (body : A -> M unit) : M unit :=
  match l with
  | [] => ret tt
  | x :: r => body x ;; for_each r body
  end.

Fixpoint map_M {A B} (f : A -> M B) (l : list A) : M (list B) :=
  match l with
  | [] => ret []
  | x :: r => y <- f x ;; ys <- map_M f r ;; ret (y :: ys)
  end.

Definition get_world : M World := fun w => (Ok w, w).

(** [str(uuid.uuid4())]: the next identifier of the uuid source. *)
Definition uuid4 : M string :=
  fun w => (Ok (uuid_source w (uuid_next w)),
            mkWorld (db_pools w) (db_machines w) (conductor_endpoints w)
              (conf_minion_pool_default_refresh_period_minutes w)
              (cron_jobs w) (flows_run w) (utcnow w) (uuid_source w)
              (S (uuid_next w)) (faults w)).

(** A call to a collaborator: raises when the world says this call fails. *)
Definition ext (c : ext_call) (e : exn) : M unit :=
  fun w => if faults w c then (Raise e, w) else (Ok tt, w).

Definition set_db_machines (ms : list MinionMachine) (w : World) : World :=
  mkWorld (db_pools w) ms (conductor_endpoints w)
    (conf_minion_pool_default_refresh_period_minutes w)
    (cron_jobs w) (flows_run w) (utcnow w) (uuid_source w) (uuid_next w)
    (faults w).

Definition set_db_pools (ps : list MinionPool) (w : World) : World :=
  mkWorld ps (db_machines w) (conductor_endpoints w)
    (conf_minion_pool_default_refresh_period_minutes w)
    (cron_jobs w) (flows_run w) (utcnow w) (uuid_source w) (uuid_next w)
    (faults w).

Definition set_cron_jobs (js : list CronJob) (w : World) : World :=
  mkWorld (db_pools w) (db_machines w) (conductor_endpoints w)
    (conf_minion_pool_default_refresh_period_minutes w)
    js (flows_run w) (utcnow w) (uuid_source w) (uuid_next w) (faults w).

Definition set_flows_run (fs : list (flow * taskflow_store)) (w : World) : World :=
  mkWorld (db_pools w) (db_machines w) (conductor_endpoints w)
    (conf_minion_pool_default_refresh_period_minutes w)
    (cron_jobs w) fs (utcnow w) (uuid_source w) (uuid_next w) (faults w).

Definition modify (f : World -> World) : M unit := fun w => (Ok tt, f w).

(** A world whose collaborators never fail. *)
Definition reliable (w : World) : Prop := forall c, faults w c = false.

(* ================================================================== *)
(** ** The database API, the conductor client, the runner and the cron *)

Definition str_in (x : string) (l : list string) : bool :=
  existsb (String.eqb x) l.

Definition has_machine (id : string) (ms : list MinionMachine) : bool :=
  existsb (fun m => String.eqb (mm_id m) id) ms.

Definition with_allocation
    (action : option string) (status : machine_status) (last_used : option Z)
    (m : MinionMachine) : MinionMachine :=
  mkMinionMachine (mm_id m) (mm_pool_id m) status action last_used.

Definition with_machine_status (status : machine_status) (m : MinionMachine)
  : MinionMachine :=
  mkMinionMachine (mm_id m) (mm_pool_id m) status (mm_allocated_action m)
    (mm_last_used_at m).

Definition with_pool_status (status : pool_status) (p : MinionPool) : MinionPool :=
  mkMinionPool (mp_id p) (mp_endpoint_id p) (mp_platform p) (mp_os_type p)
    status (mp_minimum_minions p) (mp_maximum_minions p)
    (mp_minion_max_idle_time p) (mp_environment_options p)
    (mp_shared_resources p) (minion_machines p).

Definition with_minion_machines (ms : list MinionMachine) (p : MinionPool)
  : MinionPool :=
  mkMinionPool (mp_id p) (mp_endpoint_id p) (mp_platform p) (mp_os_type p)
    (mp_status p) (mp_minimum_minions p) (mp_maximum_minions p)
    (mp_minion_max_idle_time p) (mp_environment_options p)
    (mp_shared_resources p) ms.

Module db_api.

(** Modelled from the spec: [coriolis/db/api.py] is missing.  The Store of
    the spec offers filtered queries and transactional mutators; a query
    reads the tables, a mutator that names a row which does not exist
    raises [NotFound] and changes nothing. *)
Definition get_minion_machine (minion_machine_id : string)
  : M (option MinionMachine) :=
  fun w => (Ok (find (fun m => String.eqb (mm_id m) minion_machine_id)
                  (db_machines w)), w).

(** Modelled from the spec: [get_machines(by_allocated_action)]. *)
Definition get_minion_machines (allocated_action_id : string)
  : M (list MinionMachine) :=
  fun w => (Ok (filter (fun m => match mm_allocated_action m with
                                 | Some a => String.eqb a allocated_action_id
                                 | None => false
                                 end) (db_machines w)), w).

Definition pool_machines (pool_id : string) (w : World) : list MinionMachine :=
  filter (fun m => String.eqb (mm_pool_id m) pool_id) (db_machines w).

Definition load_pool (include_machines : bool) (w : World) (p : MinionPool)
  : MinionPool :=
  with_minion_machines
    (if include_machines then pool_machines (mp_id p) w else []) p.

(** Modelled from the spec: [get_pool(id, include_machines)]. *)
Definition get_minion_pool (minion_pool_id : string) (include_machines : bool)
  : M (option MinionPool) :=
  fun w => (Ok (option_map (load_pool include_machines w)
                  (find (fun p => String.eqb (mp_id p) minion_pool_id)
                     (db_pools w))), w).

(** Modelled from the spec: [get_pools(...)]. *)
Definition get_minion_pools (include_machines : bool) : M (list MinionPool) :=
  fun w => (Ok (map (load_pool include_machines w) (db_pools w)), w).

(** Modelled from the spec: [set_machines_allocation_statuses] is a single
    transactional batch: either every listed machine transitions, or none
    does.  When [refresh_allocation_time] is true, [last_used_at] is set to
    now for each affected machine. *)
Definition set_minion_machines_allocation_statuses
    (minion_machine_ids : list string) (action_id : option string)
    (allocation_status : machine_status) (refresh_allocation_time : bool)
  : M unit :=
  ext (Call_set_minion_machines_allocation_statuses minion_machine_ids
         action_id allocation_status refresh_allocation_time) DBError ;;
  w <- get_world ;;
  if forallb (fun id => has_machine id (db_machines w)) minion_machine_ids then
    modify (set_db_machines
      (map (fun m =>
              if str_in (mm_id m) minion_machine_ids then
                with_allocation action_id allocation_status
                  (if refresh_allocation_time then Some (utcnow w)
                   else mm_last_used_at m) m
              else m) (db_machines w)))
  else raise NotFound.

(** Modelled from the spec: [add_machine]; the machine id is the primary
    key of the table, so a second row with the same id is refused. *)
Definition add_minion_machine (minion_machine : MinionMachine) : M unit :=
  ext (Call_add_minion_machine (mm_id minion_machine)) DBError ;;
  w <- get_world ;;
  if has_machine (mm_id minion_machine) (db_machines w) then raise DBError
  else modify (set_db_machines (db_machines w ++ [minion_machine])).

(** Modelled from the spec: [delete_machine]. *)
Definition delete_minion_machine (minion_machine_id : string) : M unit :=
  ext (Call_delete_minion_machine minion_machine_id) DBError ;;
  w <- get_world ;;
  modify (set_db_machines
    (filter (fun m => negb (String.eqb (mm_id m) minion_machine_id))
       (db_machines w))).

(** Modelled from the spec: [update_machine], for the two columns this
    module updates: [{"status": ..., "allocated_action": ...}]. *)
Definition update_minion_machine
    (minion_machine_id : string) (status : machine_status)
    (allocated_action : option string) : M unit :=
  ext (Call_update_minion_machine minion_machine_id) DBError ;;
  w <- get_world ;;
  if has_machine minion_machine_id (db_machines w) then
    modify (set_db_machines
      (map (fun m => if String.eqb (mm_id m) minion_machine_id
                     then with_allocation allocated_action status
                            (mm_last_used_at m) m
                     else m) (db_machines w)))
  else raise NotFound.

(** Modelled from the spec: [set_machine_status]. *)
Definition set_minion_machine_status
    (minion_machine_id : string) (status : machine_status) : M unit :=
  ext (Call_set_minion_machine_status minion_machine_id status) DBError ;;
  w <- get_world ;;
  if has_machine minion_machine_id (db_machines w) then
    modify (set_db_machines
      (map (fun m => if String.eqb (mm_id m) minion_machine_id
                     then with_machine_status status m else m)
         (db_machines w)))
  else raise NotFound.

(** Modelled from the spec: [set_pool_status]. *)
Definition set_minion_pool_status (minion_pool_id : string) (status : pool_status)
  : M unit :=
  ext (Call_set_minion_pool_status minion_pool_id status) DBError ;;
  w <- get_world ;;
  if existsb (fun p => String.eqb (mp_id p) minion_pool_id) (db_pools w) then
    modify (set_db_pools
      (map (fun p => if String.eqb (mp_id p) minion_pool_id
                     then with_pool_status status p else p) (db_pools w)))
  else raise NotFound.

End db_api.

(** Modelled from the spec: the conductor's [get_endpoint(endpoint_id)]
    returns [{id, connection_info, mapped_regions, type}]. *)
Definition get_endpoint (endpoint_id : string) : M Endpoint :=
  ext (Call_get_endpoint endpoint_id) RPCError ;;
  w <- get_world ;;
  match find (fun e => String.eqb (ep_id e) endpoint_id) (conductor_endpoints w) with
  | Some e => ret e
  | None => raise NotFound
  end.

(** Modelled from the spec: [run_flow_in_background(flow, store)] hands the
    flow to the runner and returns. *)
Definition run_flow_in_background (f : flow) (store : taskflow_store) : M unit :=
  ext Call_run_flow_in_background RPCError ;;
  w <- get_world ;;
  modify (set_flows_run (flows_run w ++ [(f, store)])).

(** Modelled from the spec: the cron engine maintains the set of registered
    jobs; [register] adds one. *)
Definition cron_register (job : CronJob) : M unit :=
  w <- get_world ;;
  modify (set_cron_jobs (cron_jobs w ++ [job])).

(* ================================================================== *)
(** ** [MinionManagerServerEndpoint] *)

(** ["%d" % n]. *)
Definition format_d (n : Z) : string := NilZero.string_of_int (Z.to_int n).

Definition MINION_POOL_REFRESH_CRON_JOB_NAME_FORMAT (pool_id : string) (minute : Z)
  : string :=
  ("pool-" ++ pool_id ++ "-refresh-minute-" ++ format_d minute)%string.

Definition MINION_POOL_REFRESH_CRON_JOB_DESCRIPTION_FORMAT
    (pool_id : string) (minute : Z) : string :=
  ("Regularly scheduled refresh job for minion pool '" ++ pool_id
   ++ "' on minute " ++ format_d minute ++ ".")%string.

(** [__init__]: a new, empty [cron.Cron()]; the call to [_init_cron] is
    commented out in the source. *)
Definition __init__ : M unit :=
  modify (set_cron_jobs []).

(** The first three statements of [_register_refresh_jobs_for_minion_pool]:
    the period the jobs are registered with.  [not period_minutes] holds for
    [None] and for 0. *)
Definition refresh_period_minutes (conf : Z) (period_minutes : option Z) : Z :=
  let period_minutes :=
    match period_minutes with
    | None => conf
    | Some p => if p =? 0 then conf else p
    end in
  let period_minutes := if period_minutes <=? 0 then 1 else period_minutes in
  let period_minutes := if period_minutes >? 60 then 10 else period_minutes in
  period_minutes.

(** [math.ceil(a / b)] for [b > 0].  The float quotient of two integers this
    small is exact when [b] divides [a] and is otherwise further from an
    integer than any rounding error, so the ceiling is the exact one. *)
Definition math_ceil_div (a b : Z) : Z := - ((- a) / b).

(** [[period_minutes * i for i in range(math.ceil(60 / period_minutes))]]. *)
Definition refresh_minutes (period_minutes : Z) : list Z :=
  map (fun i => period_minutes * Z.of_nat i)
    (seq 0 (Z.to_nat (math_ceil_div 60 period_minutes))).

Definition refresh_job (minion_pool : MinionPool) (minute : Z) : CronJob :=
  mkCronJob
    (MINION_POOL_REFRESH_CRON_JOB_NAME_FORMAT (mp_id minion_pool) minute)
    (MINION_POOL_REFRESH_CRON_JOB_DESCRIPTION_FORMAT (mp_id minion_pool) minute)
    minute true (mp_id minion_pool).

Definition _register_refresh_jobs_for_minion_pool
    (minion_pool : MinionPool) (period_minutes : option Z) : M unit :=
  w <- get_world ;;
  let period_minutes :=
    refresh_period_minutes
      (conf_minion_pool_default_refresh_period_minutes w) period_minutes in
  for_each (refresh_minutes period_minutes)
    (fun minute => cron_register (refresh_job minion_pool minute)).

Definition _init_cron : M unit :=
  minion_pools <- db_api.get_minion_pools false ;;
  for_each minion_pools (fun minion_pool =>
    if negb (pool_status_eqb (mp_status minion_pool) MINION_POOL_STATUS_ALLOCATED)
    then ret tt
    else _register_refresh_jobs_for_minion_pool minion_pool None).

(** [_get_minion_pool]: the pool, or [NotFound]. *)
Definition _get_minion_pool (minion_pool_id : string) (include_machines : bool)
  : M MinionPool :=
  minion_pool <- db_api.get_minion_pool minion_pool_id include_machines ;;
  match minion_pool with
  | None => raise NotFound
  | Some p => ret p
  end.

Definition deallocate_minion_machine (minion_machine_id : string) : M unit :=
  minion_machine <- db_api.get_minion_machine minion_machine_id ;;
  match minion_machine with
  | None => ret tt
  | Some minion_machine =>
      db_api.update_minion_machine (mm_id minion_machine)
        MINION_MACHINE_STATUS_AVAILABLE None
  end.

(* ------------------------------------------------------------------ *)
(** *** Python dicts with string keys, in insertion order *)

Fixpoint dict_set {V} (k : string) (v : V) (d : list (string * V))
  : list (string * V) :=
  match d with
  | [] => [(k, v)]
  | (k', v') :: r => if String.eqb k' k then (k, v) :: r
                     else (k', v') :: dict_set k v r
  end.

Definition dict_has {V} (k : string) (d : list (string * V)) : bool :=
  existsb (fun kv => String.eqb (fst kv) k) d.

Definition dict_keys {V} (d : list (string * V)) : list string := map fst d.
Definition dict_values {V} (d : list (string * V)) : list V := map snd d.

(** [if k not in d: d[k] = [v]  else: d[k].append(v)]. *)
Fixpoint dict_append {V} (k : string) (v : V) (d : list (string * list V))
  : list (string * list V) :=
  match d with
  | [] => [(k, [v])]
  | (k', vs) :: r => if String.eqb k' k then (k', vs ++ [v]) :: r
                     else (k', vs) :: dict_append k v r
  end.

(* ------------------------------------------------------------------ *)
(** *** Flow builders *)

Definition _get_healtchcheck_flow_for_minion_machine
    (minion_pool : MinionPool) (minion_machine_id : string)
    (allocate_to_action : option string)
    (machine_status_on_success : machine_status) : flow :=
  let machine_healthcheck_task :=
    Task (HealthcheckMinionMachineTask (mp_id minion_pool) minion_machine_id
            (mp_platform minion_pool) machine_status_on_success false) in
  let machine_reallocation_subflow :=
    linear_flow
      (NameFormat MINION_POOL_REALLOCATE_MACHINE_SUBFLOW_NAME_FORMAT
         [mp_id minion_pool; minion_machine_id])
      [ Task (DeallocateMinionMachineTask (mp_id minion_pool) minion_machine_id
                (mp_platform minion_pool));
        Task (AllocateMinionMachineTask (mp_id minion_pool) minion_machine_id
                (mp_platform minion_pool) allocate_to_action None) ] in
  graph_flow
    (NameFormat MINION_POOL_HEALTHCHECK_MACHINE_SUBFLOW_NAME_FORMAT
       [mp_id minion_pool; minion_machine_id])
    [machine_healthcheck_task; machine_reallocation_subflow]
    [mkLink 0 1 Depth_FLOW
       (mkDecider (mp_id minion_pool) minion_machine_id false)].

(** The loop [for _ in range(minimum_minions)] of
    [_get_minion_pool_allocation_flow]: one fresh uuid and one task per
    round. *)
Fixpoint allocate_machine_tasks (minion_pool : MinionPool) (rounds : nat)
  : M (list flow) :=
  match rounds with
  | O => ret []
  | S k =>
      machine_id <- uuid4 ;;
      rest <- allocate_machine_tasks minion_pool k ;;
      ret (Task (AllocateMinionMachineTask (mp_id minion_pool) machine_id
                   (mp_platform minion_pool) None None) :: rest)
  end.

Definition _get_minion_pool_allocation_flow (minion_pool : MinionPool) : M flow :=
  let head :=
    [ Task (UpdateMinionPoolStatusTask (mp_id minion_pool)
              MINION_POOL_STATUS_VALIDATING_INPUTS
              (Some MINION_POOL_STATUS_ERROR));
      Task (ValidateMinionPoolOptionsTask (mp_id minion_pool) (mp_id minion_pool)
              (mp_platform minion_pool));
      Task (UpdateMinionPoolStatusTask (mp_id minion_pool)
              MINION_POOL_STATUS_ALLOCATING_SHARED_RESOURCES None);
      Task (AllocateSharedPoolResourcesTask (mp_id minion_pool)
              (mp_id minion_pool) (mp_platform minion_pool)) ] in
  machine_tasks <-
    allocate_machine_tasks minion_pool
      (Z.to_nat (mp_minimum_minions minion_pool)) ;;
  let machines_flow :=
    unordered_flow
      (NameFormat MINION_POOL_ALLOCATE_MINIONS_SUBFLOW_NAME_FORMAT
         [mp_id minion_pool]) machine_tasks in
  let middle :=
    if flow_bool machines_flow then
      [ Task (UpdateMinionPoolStatusTask (mp_id minion_pool)
                MINION_POOL_STATUS_ALLOCATING_MACHINES None);
        machines_flow ]
    else [] in
  ret (linear_flow
         (NameFormat MINION_POOL_ALLOCATION_FLOW_NAME_FORMAT [mp_id minion_pool])
         (head ++ middle ++
          [ Task (UpdateMinionPoolStatusTask (mp_id minion_pool)
                    MINION_POOL_STATUS_ALLOCATED None) ])).

Definition _get_minion_pool_deallocation_flow (minion_pool : MinionPool) : flow :=
  let machines_flow :=
    unordered_flow
      (NameFormat MINION_POOL_DEALLOCATE_MACHINES_SUBFLOW_NAME_FORMAT
         [mp_id minion_pool])
      (map (fun machine =>
              Task (DeallocateMinionMachineTask (mp_id minion_pool)
                      (mm_id machine) (mp_platform minion_pool)))
         (minion_machines minion_pool)) in
  let head :=
    if flow_bool machines_flow then
      [ Task (UpdateMinionPoolStatusTask (mp_id minion_pool)
                MINION_POOL_STATUS_DEALLOCATING_MACHINES
                (Some MINION_POOL_STATUS_ERROR));
        machines_flow ]
    else [] in
  linear_flow
    (NameFormat MINION_POOL_DEALLOCATION_FLOW_NAME_FORMAT [mp_id minion_pool])
    (head ++
     [ Task (UpdateMinionPoolStatusTask (mp_id minion_pool)
               MINION_POOL_STATUS_DEALLOCATING_SHARED_RESOURCES
               (Some MINION_POOL_STATUS_ERROR));
       Task (DeallocateSharedPoolResourcesTask (mp_id minion_pool)
               (mp_id minion_pool) (mp_platform minion_pool));
       Task (UpdateMinionPoolStatusTask (mp_id minion_pool)
               MINION_POOL_STATUS_DEALLOCATED None) ]).

(** [shared_resources] defaults to the empty dict when it is [None]. *)
Definition _get_pool_initial_taskflow_store_base
    (minion_pool : MinionPool) (endpoint_dict : Endpoint) : taskflow_store :=
  mkStore endpoint_dict endpoint_dict (mp_id minion_pool) (mp_os_type minion_pool)
    (mp_environment_options minion_pool)
    (match mp_shared_resources minion_pool with
     | None => Some "{}"
     | Some r => Some r
     end).

Definition _get_pool_deallocation_initial_store
    (minion_pool : MinionPool) (endpoint_dict : Endpoint) : taskflow_store :=
  let base := _get_pool_initial_taskflow_store_base minion_pool endpoint_dict in
  mkStore (store_origin base) (store_destination base)
    (task_info_pool_identifier base) (task_info_pool_os_type base)
    (task_info_pool_environment_options base)
    (mp_shared_resources minion_pool).

(* ------------------------------------------------------------------ *)
(** *** Pool refresh *)

Record refresh_plan := mkRefreshPlan {
  pool_refresh_flow : list flow;
  machines_to_deallocate : list string;
  machines_to_healthcheck : list string;
  skipped_machines : list (string * machine_status)
}.

(** Python's [datetime] and [timedelta].  A [datetime] is counted in
    microseconds from [datetime.min], the first instant of year 1, and goes
    up to [datetime.max], the last microsecond of year 9999; a [timedelta]
    is a number of microseconds, of at most 999999999 days in magnitude.
    Arithmetic that leaves these ranges raises [OverflowError]. *)
Definition DATETIME_MAX : Z := 315537897599999999.
Definition TIMEDELTA_MAX_DAYS : Z := 999999999.

(** [datetime.timedelta(seconds=n)] for an integer [n]. *)
Definition timedelta_of_seconds (seconds : Z) : Result Z :=
  let days := seconds / 86400 in
  if (- TIMEDELTA_MAX_DAYS <=? days) && (days <=? TIMEDELTA_MAX_DAYS)
  then Ok (seconds * 1000000)
  else Raise OverflowError.

(** [d + delta] for a [datetime] and a [timedelta]. *)
Definition datetime_add (d delta : Z) : Result Z :=
  if (0 <=? d + delta) && (d + delta <=? DATETIME_MAX)
  then Ok (d + delta)
  else Raise OverflowError.

(** [minion_expired]: true when [last_used_at] is null, else whether
    [last_used_at + timedelta(seconds=minion_max_idle_time) <= now]. *)
Definition minion_expired (minion_pool : MinionPool) (now : Z)
    (machine : MinionMachine) : Result bool :=
  match mm_last_used_at machine with
  | Some last_used_at =>
      match timedelta_of_seconds (mp_minion_max_idle_time minion_pool) with
      | Ok idle_time =>
          match datetime_add last_used_at idle_time with
          | Ok expiry_time => Ok (expiry_time <=? now)
          | Raise e => Raise e
          end
      | Raise e => Raise e
      end
  | None => Ok true
  end.

(** The loop over [minion_pool.minion_machines] of
    [_get_minion_pool_refresh_flow].  The expiry of an AVAILABLE machine is
    computed before the budget is looked at. *)
Fixpoint plan_refresh (minion_pool : MinionPool) (now : Z)
    (machines : list MinionMachine) (max_minions_to_deallocate : Z)
    (plan : refresh_plan) : Result refresh_plan :=
  match machines with
  | [] => Ok plan
  | machine :: rest =>
      if negb (machine_status_eqb (mm_status machine)
                 MINION_MACHINE_STATUS_AVAILABLE) then
        plan_refresh minion_pool now rest max_minions_to_deallocate
          (mkRefreshPlan (pool_refresh_flow plan) (machines_to_deallocate plan)
             (machines_to_healthcheck plan)
             (dict_set (mm_id machine) (mm_status machine)
                (skipped_machines plan)))
      else
        match minion_expired minion_pool now machine with
        | Raise e => Raise e
        | Ok expired =>
            if (max_minions_to_deallocate >? 0) && expired then
              plan_refresh minion_pool now rest (max_minions_to_deallocate - 1)
                (mkRefreshPlan
                   (pool_refresh_flow plan ++
                    [Task (DeallocateMinionMachineTask (mp_id minion_pool)
                             (mm_id machine) (mp_platform minion_pool))])
                   (machines_to_deallocate plan ++ [mm_id machine])
                   (machines_to_healthcheck plan) (skipped_machines plan))
            else
              plan_refresh minion_pool now rest max_minions_to_deallocate
                (mkRefreshPlan
                   (pool_refresh_flow plan ++
                    [_get_healtchcheck_flow_for_minion_machine minion_pool
                       (mm_id machine) None MINION_MACHINE_STATUS_AVAILABLE])
                   (machines_to_deallocate plan)
                   (machines_to_healthcheck plan ++ [mm_id machine])
                   (skipped_machines plan))
        end
  end.

Definition _get_minion_pool_refresh_flow (minion_pool : MinionPool) (requery : bool)
  : M flow :=
  minion_pool <- (if requery then _get_minion_pool (mp_id minion_pool) true
                  else ret minion_pool) ;;
  w <- get_world ;;
  let max_minions_to_deallocate :=
    Z.of_nat (length (minion_machines minion_pool))
    - mp_minimum_minions minion_pool in
  let now := utcnow w in
  plan <- lift
            (plan_refresh minion_pool now (minion_machines minion_pool)
               max_minions_to_deallocate (mkRefreshPlan [] [] [] [])) ;;
  for_each (machines_to_deallocate plan) (fun machine =>
    db_api.set_minion_machine_status machine
      MINION_MACHINE_STATUS_DEALLOCATING) ;;
  for_each (machines_to_healthcheck plan) (fun machine =>
    db_api.set_minion_machine_status machine
      MINION_MACHINE_STATUS_HEALTHCHECKING) ;;
  ret (unordered_flow
         (NameFormat MINION_POOL_REFRESH_FLOW_NAME_FORMAT [mp_id minion_pool])
         (pool_refresh_flow plan)).

(* ------------------------------------------------------------------ *)
(** *** Pool deallocation *)

Definition unused_machine_states : list machine_status :=
  [ MINION_MACHINE_STATUS_AVAILABLE;
    MINION_MACHINE_STATUS_ERROR_DEPLOYING;
    MINION_MACHINE_STATUS_ERROR ].

Definition status_in (s : machine_status) (l : list machine_status) : bool :=
  existsb (machine_status_eqb s) l.

Definition _check_pool_machines_in_use
    (minion_pool : MinionPool) (raise_if_in_use : bool) (requery : bool)
  : M (list MinionMachine) :=
  minion_pool <- (if requery then _get_minion_pool (mp_id minion_pool) true
                  else ret minion_pool) ;;
  let used_machines :=
    filter (fun mch => negb (status_in (mm_status mch) unused_machine_states))
      (minion_machines minion_pool) in
  if negb (Nat.eqb (length used_machines) 0) && raise_if_in_use
  then raise InvalidMinionPoolState
  else ret used_machines.

Definition acceptable_deallocation_statuses : list pool_status :=
  [ MINION_POOL_STATUS_ALLOCATED; MINION_POOL_STATUS_ERROR ].

Definition deallocate_minion_pool (minion_pool_id : string) (force : bool)
  : M MinionPool :=
  minion_pool <- _get_minion_pool minion_pool_id true ;;
  let current_status := mp_status minion_pool in
  if pool_status_eqb current_status MINION_POOL_STATUS_DEALLOCATED then
    _get_minion_pool (mp_id minion_pool) true
  else
    (if negb (existsb (pool_status_eqb current_status)
                acceptable_deallocation_statuses) then
       if negb force then raise InvalidMinionPoolState else ret tt
     else ret tt) ;;
    _check_pool_machines_in_use minion_pool (negb force) false ;;
    endpoint_dict <- get_endpoint (mp_endpoint_id minion_pool) ;;
    let deallocation_flow := _get_minion_pool_deallocation_flow minion_pool in
    let initial_store :=
      _get_pool_deallocation_initial_store minion_pool endpoint_dict in
    try_except
      (db_api.set_minion_pool_status minion_pool_id
         MINION_POOL_STATUS_POOL_MAINTENANCE ;;
       run_flow_in_background deallocation_flow initial_store)
      (fun ex =>
         db_api.set_minion_pool_status minion_pool_id current_status ;;
         raise ex) ;;
    _get_minion_pool (mp_id minion_pool) true.

(* ------------------------------------------------------------------ *)
(** *** Minion pool selection validation *)

(** An action dict that carries every key
    [validate_minion_pool_selections_for_action] requires, so that
    [_check_keys_for_action_dict] passes.  A pool id is a string or [None];
    the OSMorphing mappings are a dict, in insertion order, or [None]. *)
Record Action := mkAction {
  action_id : string;
  origin_endpoint_id : string;
  destination_endpoint_id : string;
  origin_minion_pool_id : option string;
  destination_minion_pool_id : option string;
  instance_osmorphing_minion_pool_mappings : option (list (string * string));
  instances : list string
}.

(** Truth value of a pool id: [None] and the empty string are false. *)
Definition truthy (pool_id : option string) : option string :=
  match pool_id with
  | Some s => if String.eqb s "" then None else Some s
  | None => None
  end.

(** [minion_pools.get(pool_id)] on [{pool.id: pool for pool in ...}]: of two
    pools with one id the later one is kept. *)
Definition _get_pool (minion_pools : list MinionPool) (pool_id : string)
  : M MinionPool :=
  match find (fun pool => String.eqb (mp_id pool) pool_id) (rev minion_pools) with
  | Some pool => ret pool
  | None => raise NotFound
  end.

Definition _check_pool_minion_count
    (minion_pool : MinionPool) (instances : list string) : M unit :=
  let desired_minion_count := Z.of_nat (length instances) in
  if negb (pool_status_eqb (mp_status minion_pool) MINION_POOL_STATUS_ALLOCATED)
  then raise InvalidMinionPoolState
  else if desired_minion_count >? mp_maximum_minions minion_pool
  then raise InvalidMinionPoolSelection
  else ret tt.

(** The checks on the origin pool (role "source") and on the destination
    pool (role "destination"), which differ in the endpoint and the platform
    they compare with. *)
Definition check_transfer_pool
    (minion_pools : list MinionPool) (pool_id endpoint_id platform : string)
    (instances : list string) : M unit :=
  pool <- _get_pool minion_pools pool_id ;;
  if negb (String.eqb (mp_endpoint_id pool) endpoint_id)
  then raise InvalidMinionPoolSelection
  else if negb (String.eqb (mp_platform pool) platform)
  then raise InvalidMinionPoolSelection
  else if negb (String.eqb (mp_os_type pool) OS_TYPE_LINUX)
  then raise InvalidMinionPoolSelection
  else _check_pool_minion_count pool instances.

(** The first loop of the OSMorphing check: the instances of the action,
    grouped by the pool they are mapped to. *)
Fixpoint group_osmorphing_pool_mappings
    (items : list (string * string)) (instances : list string)
    (osmorphing_pool_mappings : list (string * list string))
  : list (string * list string) :=
  match items with
  | [] => osmorphing_pool_mappings
  | (instance_id, pool_id) :: rest =>
      if negb (str_in instance_id instances) then
        group_osmorphing_pool_mappings rest instances osmorphing_pool_mappings
      else
        group_osmorphing_pool_mappings rest instances
          (dict_append pool_id instance_id osmorphing_pool_mappings)
  end.

(** The body of the second loop of the OSMorphing check. *)
Definition check_osmorphing_pool
    (minion_pools : list MinionPool) (action : Action)
    (pool_id : string) (instances_to_osmorph : list string) : M unit :=
  osmorphing_pool <- _get_pool minion_pools pool_id ;;
  if negb (String.eqb (mp_endpoint_id osmorphing_pool)
             (destination_endpoint_id action))
  then raise InvalidMinionPoolSelection
  else if negb (String.eqb (mp_platform osmorphing_pool)
                  PROVIDER_PLATFORM_DESTINATION)
  then raise InvalidMinionPoolSelection
  else _check_pool_minion_count osmorphing_pool instances_to_osmorph.

Definition validate_minion_pool_selections_for_action (action : Action) : M unit :=
  minion_pools <- db_api.get_minion_pools false ;;
  let instances := instances action in
  (* check source pool: *)
  match truthy (origin_minion_pool_id action) with
  | Some pool_id =>
      check_transfer_pool minion_pools pool_id (origin_endpoint_id action)
        PROVIDER_PLATFORM_SOURCE instances
  | None => ret tt
  end ;;
  (* check destination pool: *)
  match truthy (destination_minion_pool_id action) with
  | Some pool_id =>
      check_transfer_pool minion_pools pool_id (destination_endpoint_id action)
        PROVIDER_PLATFORM_DESTINATION instances
  | None => ret tt
  end ;;
  (* check OSMorphing pool(s): *)
  match instance_osmorphing_minion_pool_mappings action with
  | Some ((_ :: _) as items) =>
      for_each (group_osmorphing_pool_mappings items instances [])
        (fun entry =>
           check_osmorphing_pool minion_pools action (fst entry) (snd entry))
  | _ => ret tt
  end.

(* ------------------------------------------------------------------ *)
(** *** Per-pool reservation *)

Definition is_available (machine : MinionMachine) : bool :=
  machine_status_eqb (mm_status machine) MINION_MACHINE_STATUS_AVAILABLE.

(** [_select_machine]: the first machine of the pool that is not excluded
    and is AVAILABLE. *)
Definition _select_machine (minion_pool : MinionPool) (exclude : list string)
  : option MinionMachine :=
  find (fun machine => negb (str_in (mm_id machine) exclude)
                       && is_available machine)
    (minion_machines minion_pool).

Record allocation_plan := mkAllocationPlan {
  allocation_subflow : list flow;
  instance_minion_allocations : list (string * string);
  machine_db_entries_to_add : list MinionMachine;
  existing_machines_to_allocate : list (string * string)
}.

(** The loop [for instance in action_instances]. *)
Fixpoint plan_allocations
    (minion_pool : MinionPool) (action_id : string)
    (action_instances : list string) (plan : allocation_plan)
  : M allocation_plan :=
  match action_instances with
  | [] => ret plan
  | instance :: rest =>
      if dict_has instance (instance_minion_allocations plan) then
        raise InvalidInput
      else
        match _select_machine minion_pool
                (dict_values (instance_minion_allocations plan)) with
        | Some minion_machine =>
            plan_allocations minion_pool action_id rest
              (mkAllocationPlan
                 (allocation_subflow plan ++
                  [_get_healtchcheck_flow_for_minion_machine minion_pool
                     (mm_id minion_machine) (Some action_id)
                     MINION_MACHINE_STATUS_IN_USE])
                 (dict_set instance (mm_id minion_machine)
                    (instance_minion_allocations plan))
                 (machine_db_entries_to_add plan)
                 (dict_set (mm_id minion_machine) instance
                    (existing_machines_to_allocate plan)))
        | None =>
            new_machine_id <- uuid4 ;;
            let new_minion_machine :=
              mkMinionMachine new_machine_id (mp_id minion_pool)
                MINION_MACHINE_STATUS_UNINITIALIZED (Some action_id) None in
            plan_allocations minion_pool action_id rest
              (mkAllocationPlan
                 (allocation_subflow plan ++
                  [Task (AllocateMinionMachineTask (mp_id minion_pool)
                           new_machine_id (mp_platform minion_pool)
                           (Some action_id) (Some false))])
                 (dict_set instance new_machine_id
                    (instance_minion_allocations plan))
                 (machine_db_entries_to_add plan ++ [new_minion_machine])
                 (existing_machines_to_allocate plan))
        end
  end.

(** The loop that adds the new machine entries.  The local list
    [new_machine_db_entries_added] outlives an exception of the loop, so it
    is returned next to the outcome: the source appends [new_machine.id],
    a string. *)
Fixpoint add_new_machine_entries
    (machine_db_entries_to_add : list MinionMachine)
    (new_machine_db_entries_added : list string) (w : World)
  : Result unit * list string * World :=
  match machine_db_entries_to_add with
  | [] => (Ok tt, new_machine_db_entries_added, w)
  | new_machine :: rest =>
      match db_api.add_minion_machine new_machine w with
      | (Ok _, w') =>
          add_new_machine_entries rest
            (new_machine_db_entries_added ++ [mm_id new_machine]) w'
      | (Raise ex, w') => (Raise ex, new_machine_db_entries_added, w')
      end
  end.

(** The body of the [try]: mark the pre-existing machines, then add the new
    entries. *)
Definition mark_and_add_machines (action_id : string) (plan : allocation_plan)
    (w : World) : Result unit * list string * World :=
  match db_api.set_minion_machines_allocation_statuses
          (dict_keys (existing_machines_to_allocate plan)) (Some action_id)
          MINION_MACHINE_STATUS_IN_USE true w with
  | (Ok _, w') => add_new_machine_entries (machine_db_entries_to_add plan) [] w'
  | (Raise ex, w') => (Raise ex, [], w')
  end.

(** [m.id] where [m] is a [str]: Python raises [AttributeError], as [str]
    has no attribute [id]. *)
Definition str_getattr_id (m : string) : M string := raise AttributeError.

(** The [except Exception as ex:] handler.  Its first statement is a
    [LOG.warn] one of whose arguments is
    [[m.id for m in new_machine_db_entries_added]]. *)
Definition rollback_allocations {A} (plan : allocation_plan)
    (new_machine_db_entries_added : list string) (ex : exn) : M A :=
  map_M str_getattr_id new_machine_db_entries_added ;;
  try_except
    (db_api.set_minion_machines_allocation_statuses
       (dict_keys (existing_machines_to_allocate plan)) None
       MINION_MACHINE_STATUS_AVAILABLE false)
    (fun _ => ret tt) ;;
  for_each new_machine_db_entries_added (fun new_machine =>
    try_except
      (id <- str_getattr_id new_machine ;; db_api.delete_minion_machine id)
      (fun _ => str_getattr_id new_machine ;; ret tt)) ;;
  raise ex.

Definition _make_minion_machine_allocation_subflow_for_action
    (minion_pool : MinionPool) (action_id : string)
    (action_instances : list string) (subflow_name : string)
  : M (flow * list (string * string)) :=
  let currently_available_machines :=
    filter is_available (minion_machines minion_pool) in
  let extra_available_machine_slots :=
    mp_maximum_minions minion_pool
    - Z.of_nat (length (minion_machines minion_pool)) in
  let num_instances := Z.of_nat (length action_instances) in
  if num_instances >? Z.of_nat (length currently_available_machines)
                      + extra_available_machine_slots
  then raise InvalidMinionPoolState
  else
    plan <- plan_allocations minion_pool action_id action_instances
              (mkAllocationPlan [] [] [] []) ;;
    fun w =>
      match mark_and_add_machines action_id plan w with
      | (Ok _, _, w') =>
          (Ok (unordered_flow (NameGiven subflow_name) (allocation_subflow plan),
               instance_minion_allocations plan), w')
      | (Raise ex, new_machine_db_entries_added, w') =>
          rollback_allocations plan new_machine_db_entries_added ex w'
      end.

(* ------------------------------------------------------------------ *)
(** *** Release of the machines of an action *)

(** The inner loop of [deallocate_minion_machines_for_action]: machines in
    UNINITIALIZED are deleted, the ids of the others are collected. *)
Fixpoint sweep_pool_machines
    (pool_machines : list MinionMachine) (machine_ids_to_deallocate : list string)
  : M (list string) :=
  match pool_machines with
  | [] => ret machine_ids_to_deallocate
  | machine :: rest =>
      if machine_status_eqb (mm_status machine)
           MINION_MACHINE_STATUS_UNINITIALIZED then
        db_api.delete_minion_machine (mm_id machine) ;;
        sweep_pool_machines rest machine_ids_to_deallocate
      else
        sweep_pool_machines rest (machine_ids_to_deallocate ++ [mm_id machine])
  end.

Definition deallocate_minion_machines_for_action (action_id : string) : M unit :=
  allocated_minion_machines <- db_api.get_minion_machines action_id ;;
  match allocated_minion_machines with
  | [] => ret tt
  | _ =>
      let pool_machine_mappings :=
        fold_left (fun d machine => dict_append (mm_pool_id machine) machine d)
          allocated_minion_machines [] in
      for_each pool_machine_mappings (fun entry =>
        machine_ids_to_deallocate <- sweep_pool_machines (snd entry) [] ;;
        db_api.set_minion_machines_allocation_statuses
          machine_ids_to_deallocate None MINION_MACHINE_STATUS_AVAILABLE false)
  end.

(** [_cleanup_machines_with_statuses_for_action]: deletes the machines of
    the action that are in one of the targeted statuses and in no excluded
    pool, pool by pool. *)
Definition _cleanup_machines_with_statuses_for_action
    (action_id : string) (targeted_statuses : list machine_status)
    (exclude_pools : list string) : M unit :=
  machines <- db_api.get_minion_machines action_id ;;
  match machines with
  | [] => ret tt
  | _ =>
      let pool_machine_mappings :=
        fold_left
          (fun d machine =>
             if negb (status_in (mm_status machine) targeted_statuses) then d
             else if str_in (mm_pool_id machine) exclude_pools then d
             else dict_append (mm_pool_id machine) machine d)
          machines [] in
      for_each pool_machine_mappings (fun entry =>
        for_each (snd entry) (fun machine =>
          db_api.delete_minion_machine (mm_id machine)))
  end.

(* ------------------------------------------------------------------ *)
(** *** Pool allocation *)

Definition acceptable_allocation_statuses : list pool_status :=
  [ MINION_POOL_STATUS_DEALLOCATED ].

(** [allocate_minion_pool]: the endpoint is fetched before the status of the
    pool is looked at. *)
Definition allocate_minion_pool (minion_pool_id : string) : M MinionPool :=
  minion_pool <- _get_minion_pool minion_pool_id false ;;
  endpoint_dict <- get_endpoint (mp_endpoint_id minion_pool) ;;
  let current_status := mp_status minion_pool in
  if negb (existsb (pool_status_eqb current_status)
             acceptable_allocation_statuses) then
    raise InvalidMinionPoolState
  else
    allocation_flow <- _get_minion_pool_allocation_flow minion_pool ;;
    let initial_store :=
      _get_pool_initial_taskflow_store_base minion_pool endpoint_dict in
    try_except
      (db_api.set_minion_pool_status minion_pool_id
         MINION_POOL_STATUS_POOL_MAINTENANCE ;;
       run_flow_in_background allocation_flow initial_store)
      (fun ex =>
         db_api.set_minion_pool_status minion_pool_id current_status ;;
         raise ex) ;;
    _get_minion_pool (mp_id minion_pool) true.

(* ================================================================== *)
(** ** Vocabulary of the statements, and the worlds of the examples *)

(** A concrete uuid source for the examples: the k-th identifier is "u"
    followed by k strokes. *)
Fixpoint strokes (k : nat) : string :=
  match k with
  | O => EmptyString
  | S k' => String "|"%char (strokes k')
  end.

Definition example_uuid (k : nat) : string := String "u"%char (strokes k).

(** No call to a collaborator fails. *)
Definition no_faults (c : ext_call) : bool := false.

(** The jobs [_init_cron] registers for a list of pools, with period [P]. *)
Definition startup_jobs (P : Z) (pools : list MinionPool) : list CronJob :=
  flat_map (fun pool =>
              if pool_status_eqb (mp_status pool) MINION_POOL_STATUS_ALLOCATED
              then map (refresh_job pool) (refresh_minutes P) else []) pools.

(** The job is a job of that pool for that minute. *)
Definition job_is (pool_id : string) (minute : Z) (job : CronJob) : bool :=
  String.eqb (job_pool_id job) pool_id && (job_minute job =? minute).

(** The pool has that id and is ALLOCATED. *)
Definition allocated_pool_with_id (pool_id : string) (pool : MinionPool) : bool :=
  String.eqb (mp_id pool) pool_id
  && pool_status_eqb (mp_status pool) MINION_POOL_STATUS_ALLOCATED.

(** The pool of the bring-up scenario of the spec, once ALLOCATED, alone in
    a store with the default refresh period. *)
Definition startup_pool : MinionPool :=
  mkMinionPool "p1" "e1" "destination" "linux" MINION_POOL_STATUS_ALLOCATED
    2 4 600 "{}" None [].

Definition startup_world : World :=
  mkWorld [startup_pool] [] [] 10 [] [] 0 example_uuid 0 no_faults.

(** What [update_minion_machine id AVAILABLE None] does to a row. *)
Definition released (id : string) (m : MinionMachine) : MinionMachine :=
  if String.eqb (mm_id m) id
  then with_allocation None MINION_MACHINE_STATUS_AVAILABLE (mm_last_used_at m) m
  else m.

(** A store with one machine, IN_USE for the action "a1". *)
Definition release_world : World :=
  mkWorld [] [ mkMinionMachine "m1" "p1" MINION_MACHINE_STATUS_IN_USE
                 (Some "a1") (Some 100) ]
    [] 10 [] [] 500 example_uuid 0 no_faults.

(** The world after [n] calls of [uuid4]. *)
Definition advance_uuid (n : nat) (w : World) : World :=
  mkWorld (db_pools w) (db_machines w) (conductor_endpoints w)
    (conf_minion_pool_default_refresh_period_minutes w)
    (cron_jobs w) (flows_run w) (utcnow w) (uuid_source w)
    (n + uuid_next w) (faults w).

(** The task the pool allocation flow adds for one new machine. *)
Definition allocate_machine_task (minion_pool : MinionPool) (machine_id : string)
  : flow :=
  Task (AllocateMinionMachineTask (mp_id minion_pool) machine_id
          (mp_platform minion_pool) None None).

(** The task is a status transition of the pool to [s]. *)
Definition transitions_to (s : pool_status) (t : task) : bool :=
  match t with
  | UpdateMinionPoolStatusTask _ s' _ => pool_status_eqb s' s
  | _ => false
  end.

(** The pool of the bring-up scenario, before its allocation. *)
Definition bring_up_pool (minimum_minions : Z) : MinionPool :=
  mkMinionPool "p1" "e1" "destination" "linux" MINION_POOL_STATUS_DEALLOCATED
    minimum_minions 4 600 "{}" None [].

(** An ALLOCATED pool of at most 4 machines that has none yet. *)
Definition full_pool : MinionPool :=
  mkMinionPool "p1" "e1" "destination" "linux" MINION_POOL_STATUS_ALLOCATED
    2 4 600 "{}" None [].

(** A pool of at most 4 machines with one machine, AVAILABLE. *)
Definition m1_available : MinionMachine :=
  mkMinionMachine "m1" "p1" MINION_MACHINE_STATUS_AVAILABLE None (Some 100).

Definition reservation_pool : MinionPool :=
  mkMinionPool "p1" "e1" "destination" "linux" MINION_POOL_STATUS_ALLOCATED
    1 4 600 "{}" None [m1_available].

(** The database refuses the insertion of the second new machine. *)
Definition second_insert_fails (c : ext_call) : bool :=
  match c with
  | Call_add_minion_machine id => String.eqb id (example_uuid 1)
  | _ => false
  end.

Definition failing_insert_world : World :=
  mkWorld [with_minion_machines [] reservation_pool] [m1_available] [] 10 [] []
    500 example_uuid 0 second_insert_fails.

(** The invariant as the spec states it. *)
Definition in_use_iff_allocated (m : MinionMachine) : Prop :=
  mm_status m = MINION_MACHINE_STATUS_IN_USE <-> mm_allocated_action m <> None.

(** The invariant the code keeps: a machine IN_USE has an
    [allocated_action], and a machine with an [allocated_action] is IN_USE
    or still UNINITIALIZED. *)
Definition allocation_consistent (m : MinionMachine) : Prop :=
  (mm_status m = MINION_MACHINE_STATUS_IN_USE -> mm_allocated_action m <> None) /\
  (mm_allocated_action m <> None ->
   mm_status m = MINION_MACHINE_STATUS_IN_USE \/
   mm_status m = MINION_MACHINE_STATUS_UNINITIALIZED).

(** Machine ids are the primary key of the table. *)
Definition store_consistent (ms : list MinionMachine) : Prop :=
  NoDup (map mm_id ms) /\ Forall allocation_consistent ms.

(** A computation keeps an invariant of the machine table, whether it
    returns or raises. *)
Definition preserves (I : list MinionMachine -> Prop) {A} (m : M A) : Prop :=
  forall w, I (db_machines w) -> I (db_machines (snd (m w))).

(** The rows the reservation plans to insert. *)
Definition reserved_row (action_id : string) (m : MinionMachine) : Prop :=
  mm_status m = MINION_MACHINE_STATUS_UNINITIALIZED /\
  mm_allocated_action m = Some action_id /\
  mm_last_used_at m = None.

(** The invariant of the loops of the refresh: the table is consistent and
    the machines the refresh acts on have no [allocated_action]. *)
Definition unallocated (ids : list string) (ms : list MinionMachine) : Prop :=
  store_consistent ms /\
  forall m, In m ms -> In (mm_id m) ids -> mm_allocated_action m = None.

(** The store of [failing_insert_world] with a database that does not
    fail. *)
Definition reliable_reservation_world : World :=
  mkWorld [with_minion_machines [] reservation_pool] [m1_available] [] 10 [] []
    500 example_uuid 0 no_faults.

(** The pools as the validation loads them. *)
Definition loaded_pools (w : World) : list MinionPool :=
  map (db_api.load_pool false w) (db_pools w).

(** The pool a selected, non-empty pool id stands for. *)
Definition selected_pool (w : World) (pool_id : option string) : option MinionPool :=
  match truthy pool_id with
  | Some id => find (fun pool => String.eqb (mp_id pool) id) (rev (loaded_pools w))
  | None => None
  end.

(** A Windows pool of the destination endpoint "e2", selected for the
    OSMorphing of "vm1" and, in a second action, as destination pool. *)
Definition windows_osmorphing_pool : MinionPool :=
  mkMinionPool "pw" "e2" "destination" "windows" MINION_POOL_STATUS_ALLOCATED
    0 4 600 "{}" None [].

Definition osmorphing_world : World :=
  mkWorld [windows_osmorphing_pool] [] [] 10 [] [] 0 example_uuid 0 no_faults.

Definition osmorphing_action : Action :=
  mkAction "a1" "e1" "e2" None None (Some [("vm1", "pw")]) ["vm1"].

Definition windows_destination_action : Action :=
  mkAction "a1" "e1" "e2" None (Some "pw") None ["vm1"].

(** The machines [_check_pool_machines_in_use] counts as in use: those in
    any status other than AVAILABLE, ERROR_DEPLOYING and ERROR. *)
Definition used_machines (minion_pool : MinionPool) : list MinionMachine :=
  filter (fun mch => negb (status_in (mm_status mch) unused_machine_states))
    (minion_machines minion_pool).

(** A pool that is already DEALLOCATED. *)
Definition deallocated_pool : MinionPool :=
  mkMinionPool "p1" "e1" "destination" "linux" MINION_POOL_STATUS_DEALLOCATED
    2 4 600 "{}" None [].

Definition deallocated_world : World :=
  mkWorld [deallocated_pool] [] [] 10 [] [] 0 example_uuid 0 no_faults.

(** An ALLOCATED pool with one AVAILABLE machine, and its endpoint. *)
Definition allocated_pool_row : MinionPool :=
  mkMinionPool "p1" "e1" "destination" "linux" MINION_POOL_STATUS_ALLOCATED
    1 4 600 "{}" None [].

Definition allocated_world : World :=
  mkWorld [allocated_pool_row] [m1_available]
    [mkEndpoint "e1" "{}" ["r1"] "openstack"] 10 [] [] 500 example_uuid 0
    no_faults.

(** The two things the refresh flow adds for a machine. *)
Definition healthcheck_flow (minion_pool : MinionPool) (machine_id : string)
  : flow :=
  _get_healtchcheck_flow_for_minion_machine minion_pool machine_id None
    MINION_MACHINE_STATUS_AVAILABLE.

Definition deallocate_task (minion_pool : MinionPool) (machine_id : string)
  : flow :=
  Task (DeallocateMinionMachineTask (mp_id minion_pool) machine_id
          (mp_platform minion_pool)).

(** A pool of three machines with [minimum_minions] 2, at time 500: "m1"
    was used at 100 and is idle for less than the 600 seconds allowed, "m2"
    was never used, "m3" is IN_USE. *)
Definition recently_used : MinionMachine :=
  mkMinionMachine "m1" "p1" MINION_MACHINE_STATUS_AVAILABLE None (Some 100).

Definition never_used : MinionMachine :=
  mkMinionMachine "m2" "p1" MINION_MACHINE_STATUS_AVAILABLE None None.

Definition busy : MinionMachine :=
  mkMinionMachine "m3" "p1" MINION_MACHINE_STATUS_IN_USE (Some "a1") (Some 400).

Definition refresh_pool : MinionPool :=
  mkMinionPool "p1" "e1" "destination" "linux" MINION_POOL_STATUS_ALLOCATED
    2 4 600 "{}" None [recently_used; never_used; busy].

Definition refresh_world : World :=
  mkWorld [with_minion_machines [] refresh_pool] [recently_used; never_used; busy]
    [] 10 [] [] 500 example_uuid 0 no_faults.

(** [d.get(k)]. *)
Definition dict_get {V} (k : string) (d : list (string * V)) : option V :=
  option_map snd (find (fun kv => String.eqb (fst kv) k) d).

(** The instances of the action that the OSMorphing mappings map to a pool,
    in the order of the mappings. *)
Definition osmorphed_by
    (pool_id : string) (items : list (string * string)) (instances : list string)
  : list string :=
  map fst
    (filter (fun item => str_in (fst item) instances
                         && String.eqb (snd item) pool_id) items).

(** A pool id stands for a pool of the store that has the given endpoint and
    platform, is ALLOCATED, and has room for [count] minions. *)
Definition pool_fits
    (w : World) (pool_id endpoint_id platform : string) (count : nat)
    (pool : MinionPool) : Prop :=
  find (fun p => String.eqb (mp_id p) pool_id) (rev (loaded_pools w)) = Some pool /\
  mp_endpoint_id pool = endpoint_id /\
  mp_platform pool = platform /\
  mp_status pool = MINION_POOL_STATUS_ALLOCATED /\
  Z.of_nat count <= mp_maximum_minions pool.

(** The action without the OSMorphing mappings of instances that are not
    instances of the action. *)
Definition without_foreign_mappings (action : Action) : Action :=
  mkAction (action_id action) (origin_endpoint_id action)
    (destination_endpoint_id action) (origin_minion_pool_id action)
    (destination_minion_pool_id action)
    (option_map
       (filter (fun item => str_in (fst item) (instances action)))
       (instance_osmorphing_minion_pool_mappings action))
    (instances action).

(** The reservation scenario of the spec: the pool "p1" of the endpoint
    "e1", ALLOCATED with two AVAILABLE machines, selected as destination
    pool and as OSMorphing pool of both instances of the action "a1". *)
Definition scenario_machines : list MinionMachine :=
  [ mkMinionMachine "m1" "p1" MINION_MACHINE_STATUS_AVAILABLE None (Some 100);
    mkMinionMachine "m2" "p1" MINION_MACHINE_STATUS_AVAILABLE None None ].

Definition scenario_pool : MinionPool :=
  mkMinionPool "p1" "e1" "destination" "linux" MINION_POOL_STATUS_ALLOCATED
    2 4 600 "{}" None scenario_machines.

Definition scenario_world : World :=
  mkWorld [with_minion_machines [] scenario_pool] scenario_machines
    [mkEndpoint "e1" "{}" ["r1"] "openstack"] 10 [] [] 500 example_uuid 0
    no_faults.

Definition scenario_action : Action :=
  mkAction "a1" "e0" "e1" None (Some "p1")
    (Some [("vm1", "p1"); ("vm2", "p1"); ("vm9", "p7")]) ["vm1"; "vm2"].

(** The AVAILABLE machines of a pool, in the order of the pool. *)
Definition available_machines (minion_pool : MinionPool) : list MinionMachine :=
  filter is_available (minion_machines minion_pool).

(** The next [k] identifiers of the uuid source. *)
Definition fresh_ids (w : World) (k : nat) : list string :=
  map (uuid_source w) (seq (uuid_next w) k).

(** What the reservation plans for a machine it creates: its row and its
    task; and for a pre-existing machine it picks: its healthcheck flow. *)
Definition new_machine_row (minion_pool : MinionPool) (action_id id : string)
  : MinionMachine :=
  mkMinionMachine id (mp_id minion_pool) MINION_MACHINE_STATUS_UNINITIALIZED
    (Some action_id) None.

Definition new_machine_task (minion_pool : MinionPool) (action_id id : string)
  : flow :=
  Task (AllocateMinionMachineTask (mp_id minion_pool) id (mp_platform minion_pool)
          (Some action_id) (Some false)).

Definition picked_machine_flow (minion_pool : MinionPool) (action_id id : string)
  : flow :=
  _get_healtchcheck_flow_for_minion_machine minion_pool id (Some action_id)
    MINION_MACHINE_STATUS_IN_USE.

(** A row after the batch that marks the machines [ids] as IN_USE for the
    action at time [now]. *)
Definition marked_in_use (ids : list string) (action_id : string) (now : Z)
    (m : MinionMachine) : MinionMachine :=
  if str_in (mm_id m) ids
  then with_allocation (Some action_id) MINION_MACHINE_STATUS_IN_USE (Some now) m
  else m.

(** The database refuses the insertion of the first new machine. *)
Definition first_insert_fails (c : ext_call) : bool :=
  match c with
  | Call_add_minion_machine id => String.eqb id (example_uuid 0)
  | _ => false
  end.

Definition first_insert_fails_world : World :=
  mkWorld [with_minion_machines [] scenario_pool] scenario_machines
    [mkEndpoint "e1" "{}" ["r1"] "openstack"] 10 [] [] 500 example_uuid 0
    first_insert_fails.

(** The runner refuses the flow. *)
Definition runner_fails (c : ext_call) : bool :=
  match c with
  | Call_run_flow_in_background => true
  | _ => false
  end.

Definition runner_fails_world : World :=
  mkWorld [with_minion_machines [] scenario_pool] scenario_machines
    [mkEndpoint "e1" "{}" ["r1"] "openstack"] 10 [] [] 500 example_uuid 0
    runner_fails.

(** The pool of the scenario before its allocation, with a runner that
    works and with one that does not. *)
Definition unallocated_scenario_pool : MinionPool :=
  mkMinionPool "p1" "e1" "destination" "linux" MINION_POOL_STATUS_DEALLOCATED
    2 4 600 "{}" None [].

Definition unallocated_world (failing : ext_call -> bool) : World :=
  mkWorld [unallocated_scenario_pool] []
    [mkEndpoint "e1" "{}" ["r1"] "openstack"] 10 [] [] 500 example_uuid 0
    failing.

(** The task deallocates a machine; the child of a refresh flow is the
    deallocation of a machine. *)
Definition is_deallocate_machine (t : task) : bool :=
  match t with DeallocateMinionMachineTask _ _ _ => true | _ => false end.

Definition is_deallocate_child (f : flow) : bool :=
  match f with Task t => is_deallocate_machine t | _ => false end.

(** What the refresh flow may hold for an AVAILABLE machine: its healthcheck
    flow, or, if the machine has expired, its deallocation. *)
Definition refresh_child (minion_pool : MinionPool) (now : Z)
    (machine : MinionMachine) (child : flow) : Prop :=
  child = healthcheck_flow minion_pool (mm_id machine) \/
  (child = deallocate_task minion_pool (mm_id machine) /\
   minion_expired minion_pool now machine = Ok true).

(** The expiry test of the machine returns: its expiry time is a
    [datetime]. *)
Definition expiry_test_returns (minion_pool : MinionPool) (now : Z)
    (machine : MinionMachine) : Prop :=
  exists expired, minion_expired minion_pool now machine = Ok expired.

(** The expiry tests of the AVAILABLE machines of the pool return. *)
Definition expiry_tests_return (minion_pool : MinionPool) (now : Z) : Prop :=
  forall machine,
    In machine (minion_machines minion_pool) ->
    is_available machine = true ->
    expiry_test_returns minion_pool now machine.

(** The outcome of an expiry test that returns, and the plan of a refresh
    whose expiry tests all return. *)
Definition expired_at (minion_pool : MinionPool) (now : Z)
    (machine : MinionMachine) : bool :=
  match minion_expired minion_pool now machine with
  | Ok expired => expired
  | Raise _ => true
  end.

Fixpoint refresh_plan_of (minion_pool : MinionPool) (now : Z)
    (machines : list MinionMachine) (budget : Z) (plan : refresh_plan)
  : refresh_plan :=
  match machines with
  | [] => plan
  | machine :: rest =>
      if negb (machine_status_eqb (mm_status machine)
                 MINION_MACHINE_STATUS_AVAILABLE) then
        refresh_plan_of minion_pool now rest budget
          (mkRefreshPlan (pool_refresh_flow plan) (machines_to_deallocate plan)
             (machines_to_healthcheck plan)
             (dict_set (mm_id machine) (mm_status machine)
                (skipped_machines plan)))
      else if (budget >? 0) && expired_at minion_pool now machine then
        refresh_plan_of minion_pool now rest (budget - 1)
          (mkRefreshPlan
             (pool_refresh_flow plan ++
              [Task (DeallocateMinionMachineTask (mp_id minion_pool)
                       (mm_id machine) (mp_platform minion_pool))])
             (machines_to_deallocate plan ++ [mm_id machine])
             (machines_to_healthcheck plan) (skipped_machines plan))
      else
        refresh_plan_of minion_pool now rest budget
          (mkRefreshPlan
             (pool_refresh_flow plan ++
              [_get_healtchcheck_flow_for_minion_machine minion_pool
                 (mm_id machine) None MINION_MACHINE_STATUS_AVAILABLE])
             (machines_to_deallocate plan)
             (machines_to_healthcheck plan ++ [mm_id machine])
             (skipped_machines plan))
  end.

(** A pool whose [minion_max_idle_time] of 10^12 seconds puts the expiry
    time of its one machine, used at 100, after year 9999. *)
Definition overflowing_pool : MinionPool :=
  mkMinionPool "p1" "e1" "destination" "linux" MINION_POOL_STATUS_ALLOCATED
    1 4 1000000000000 "{}" None
    [mkMinionMachine "m1" "p1" MINION_MACHINE_STATUS_AVAILABLE None (Some 100)].

Definition overflowing_world : World :=
  mkWorld [with_minion_machines [] overflowing_pool]
    [mkMinionMachine "m1" "p1" MINION_MACHINE_STATUS_AVAILABLE None (Some 100)]
    [] 10 [] [] 500 example_uuid 0 no_faults.

(** A pool row after [set_minion_pool_status id status]. *)
Definition set_status_of (id : string) (status : pool_status) (p : MinionPool)
  : MinionPool :=
  if String.eqb (mp_id p) id then with_pool_status status p else p.

(** A row of the store before and after a refresh of the pool: the row of
    an AVAILABLE machine of the pool has become DEALLOCATING or
    HEALTHCHECKING, any other row is as it was. *)
Definition touched_by_refresh (minion_pool : MinionPool)
    (row row' : MinionMachine) : Prop :=
  if str_in (mm_id row) (map mm_id (available_machines minion_pool))
  then row' = with_machine_status MINION_MACHINE_STATUS_DEALLOCATING row \/
       row' = with_machine_status MINION_MACHINE_STATUS_HEALTHCHECKING row
  else row' = row.

(** The machine is allocated to the action: the filter of
    [get_minion_machines]. *)
Definition allocated_to (action_id : string) (m : MinionMachine) : bool :=
  match mm_allocated_action m with
  | Some a => String.eqb a action_id
  | None => false
  end.

Definition is_uninitialized (m : MinionMachine) : bool :=
  machine_status_eqb (mm_status m) MINION_MACHINE_STATUS_UNINITIALIZED.

(** Of a list of machines, the ids a release deletes and the ids it marks
    as available. *)
Definition uninitialized_ids (l : list MinionMachine) : list string :=
  map mm_id (filter is_uninitialized l).

Definition ids_to_deallocate (l : list MinionMachine) : list string :=
  map mm_id (filter (fun m => negb (is_uninitialized m)) l).

(** A row marked as available, with its [last_used_at] kept. *)
Definition made_available (m : MinionMachine) : MinionMachine :=
  with_allocation None MINION_MACHINE_STATUS_AVAILABLE (mm_last_used_at m) m.

(** The rows after the rows with an id of [deleted] are removed and those
    with an id of [freed] are marked as available. *)
Definition rows_after_release (freed deleted : list string)
    (rows : list MinionMachine) : list MinionMachine :=
  map (fun m => if str_in (mm_id m) freed then made_available m else m)
    (filter (fun m => negb (str_in (mm_id m) deleted)) rows).

(** The rows after the release of an action: the UNINITIALIZED rows of the
    action are gone, its other rows are available, the rest is as it was. *)
Definition released_from_action (action_id : string)
    (rows : list MinionMachine) : list MinionMachine :=
  map (fun m => if allocated_to action_id m then made_available m else m)
    (filter (fun m => negb (allocated_to action_id m && is_uninitialized m))
       rows).

(** The rows [_cleanup_machines_with_statuses_for_action] is after. *)
Definition targeted_for_cleanup (action_id : string)
    (targeted_statuses : list machine_status) (exclude_pools : list string)
    (m : MinionMachine) : bool :=
  allocated_to action_id m
  && status_in (mm_status m) targeted_statuses
  && negb (str_in (mm_pool_id m) exclude_pools).

(** Five machines in two pools: "m1" and "m4" are in use by action "a1",
    "m2" was reserved for it and never deployed, "m3" is in use by action
    "a2", "m5" is idle. *)
Definition release_scenario_machines : list MinionMachine :=
  [ mkMinionMachine "m1" "p1" MINION_MACHINE_STATUS_IN_USE (Some "a1") (Some 400);
    mkMinionMachine "m2" "p2" MINION_MACHINE_STATUS_UNINITIALIZED (Some "a1") None;
    mkMinionMachine "m3" "p1" MINION_MACHINE_STATUS_IN_USE (Some "a2") (Some 300);
    mkMinionMachine "m4" "p2" MINION_MACHINE_STATUS_IN_USE (Some "a1") None;
    mkMinionMachine "m5" "p1" MINION_MACHINE_STATUS_AVAILABLE None (Some 100) ].

Definition release_scenario_world : World :=
  mkWorld [] release_scenario_machines [] 10 [] [] 500 example_uuid 0 no_faults.

(** A row after the machines [ids] were used by an action from [now] on
    and released: it is available again, and [last_used_at] tells of the
    use. *)
Definition returned_to_pool (ids : list string) (now : Z) (m : MinionMachine)
  : MinionMachine :=
  if str_in (mm_id m) ids
  then with_allocation None MINION_MACHINE_STATUS_AVAILABLE (Some now) m
  else m.

(** An action that selects the origin pool "p9", which no store of the
    examples holds. *)
Definition missing_pool_action : Action :=
  mkAction "a1" "e0" "e1" (Some "p9") None None ["vm1"].

(* ================================================================== *)
(** * Verification *)

(** ** Generic facts about the monad and the collaborators *)

Lemma machine_status_eqb_eq (a b : machine_status) :
  machine_status_eqb a b = true <-> a = b.
Proof. destruct a, b; simpl; split; intro H; try reflexivity; discriminate H. Qed.

Lemma machine_status_eqb_refl (a : machine_status) : machine_status_eqb a a = true.
Proof. now apply machine_status_eqb_eq. Qed.

Lemma pool_status_eqb_eq (a b : pool_status) :
  pool_status_eqb a b = true <-> a = b.
Proof. destruct a, b; simpl; split; intro H; try reflexivity; discriminate H. Qed.

Lemma pool_status_eqb_neq (a b : pool_status) :
  pool_status_eqb a b = false <-> a <> b.
Proof.
  split.
  - intros H E. apply pool_status_eqb_eq in E. congruence.
  - intro H. destruct (pool_status_eqb a b) eqn:E; [|reflexivity].
    apply pool_status_eqb_eq in E. contradiction.
Qed.

Lemma ext_reliable (w : World) (c : ext_call) (e : exn) :
  reliable w -> ext c e w = (Ok tt, w).
Proof. intro H. unfold ext. now rewrite H. Qed.

Lemma for_each_app {A} (l1 l2 : list A) (body : A -> M unit) (w : World) :
  for_each (l1 ++ l2) body w =
  match for_each l1 body w with
  | (Ok _, w') => for_each l2 body w'
  | (Raise e, w') => (Raise e, w')
  end.
Proof.
  revert w. induction l1 as [|x l1 IH]; intro w; simpl.
  - reflexivity.
  - unfold bind. destruct (body x w) as [[u|e] w']; [apply IH | reflexivity].
Qed.


(* ------------------------------------------------------------------ *)
(** ** Refresh period and cron registration (C5, C9) *)

Lemma math_ceil_div_spec (a b : Z) :
  0 < b -> (math_ceil_div a b - 1) * b < a <= math_ceil_div a b * b.
Proof.
  intro Hb. unfold math_ceil_div.
  pose proof (Z.div_mod (- a) b ltac:(lia)) as E.
  pose proof (Z.mod_pos_bound (- a) b Hb) as B.
  nia.
Qed.

Lemma lt_math_ceil_div (a b k : Z) :
  0 < b -> (k < math_ceil_div a b <-> k * b < a).
Proof.
  intro Hb. pose proof (math_ceil_div_spec a Hb) as S. split; intro H; nia.
Qed.

Lemma refresh_period_in_range (conf : Z) (period_minutes : option Z) :
  1 <= refresh_period_minutes conf period_minutes <= 60.
Proof.
  unfold refresh_period_minutes.
  set (p := match period_minutes with
            | None => conf
            | Some p => if p =? 0 then conf else p
            end).
  destruct (p <=? 0) eqn:E1; [simpl; lia | apply Z.leb_gt in E1].
  destruct (p >? 60) eqn:E2; rewrite Z.gtb_ltb in E2;
    [lia | apply Z.ltb_ge in E2; lia].
Qed.

(** C5, as the claim states it, fails: a configured period of -5 is outside
    [1, 60] and is replaced by 1, not by the default of 10. *)
Lemma refresh_period_negative_is_one :
  ~ (1 <= -5 <= 60) /\
  refresh_period_minutes (-5) None = 1 /\
  refresh_period_minutes (-5) None <> 10.
Proof. repeat split; try lia; intro H; vm_compute in H; discriminate H. Qed.

(** C5 (amended): the period the refresh jobs are registered with lies in
    [1, 60]; it is the configured value when that lies in [1, 60], it is 1
    when the configured value is zero or negative, and it is the default of
    10 only when the configured value exceeds 60. *)
Theorem refresh_period_clamped (conf : Z) :
  1 <= refresh_period_minutes conf None <= 60 /\
  (1 <= conf <= 60 -> refresh_period_minutes conf None = conf) /\
  (conf <= 0 -> refresh_period_minutes conf None = 1) /\
  (60 < conf -> refresh_period_minutes conf None = 10).
Proof.
  unfold refresh_period_minutes.
  destruct (conf <=? 0) eqn:E1; [apply Z.leb_le in E1 | apply Z.leb_gt in E1].
  - simpl. repeat split; intros; lia.
  - destruct (conf >? 60) eqn:E2; rewrite Z.gtb_ltb in E2;
      [apply Z.ltb_lt in E2 | apply Z.ltb_ge in E2]; repeat split; intros; lia.
Qed.

Lemma for_each_cron_register (jobs : list CronJob) (w : World) :
  for_each jobs cron_register w = (Ok tt, set_cron_jobs (cron_jobs w ++ jobs) w).
Proof.
  revert w. induction jobs as [|j jobs IH]; intro w; simpl.
  - unfold ret, set_cron_jobs. rewrite app_nil_r. now destruct w.
  - unfold bind at 1. unfold cron_register at 1, bind, get_world, modify.
    rewrite IH. unfold set_cron_jobs; simpl. now rewrite <- app_assoc.
Qed.

Lemma for_each_map {A B} (f : A -> B) (body : B -> M unit) (l : list A) (w : World) :
  for_each l (fun x => body (f x)) w = for_each (map f l) body w.
Proof.
  revert w. induction l as [|x l IH]; intro w; simpl; [reflexivity|].
  unfold bind. destruct (body (f x) w) as [[u|e] w']; [apply IH | reflexivity].
Qed.

Lemma register_refresh_jobs_run (minion_pool : MinionPool) (w : World) :
  _register_refresh_jobs_for_minion_pool minion_pool None w =
  (Ok tt,
   set_cron_jobs
     (cron_jobs w ++
      map (refresh_job minion_pool)
        (refresh_minutes
           (refresh_period_minutes
              (conf_minion_pool_default_refresh_period_minutes w) None))) w).
Proof.
  unfold _register_refresh_jobs_for_minion_pool, bind, get_world.
  rewrite (for_each_map (refresh_job minion_pool) cron_register).
  apply for_each_cron_register.
Qed.

Lemma init_cron_loop (pools : list MinionPool) (w : World) :
  for_each pools (fun minion_pool =>
    if negb (pool_status_eqb (mp_status minion_pool) MINION_POOL_STATUS_ALLOCATED)
    then ret tt
    else _register_refresh_jobs_for_minion_pool minion_pool None) w =
  (Ok tt,
   set_cron_jobs
     (cron_jobs w ++
      startup_jobs
        (refresh_period_minutes
           (conf_minion_pool_default_refresh_period_minutes w) None) pools) w).
Proof.
  revert w. induction pools as [|p pools IH]; intro w; simpl.
  - unfold ret, set_cron_jobs. rewrite app_nil_r. now destruct w.
  - unfold bind at 1.
    destruct (pool_status_eqb (mp_status p) MINION_POOL_STATUS_ALLOCATED); simpl.
    + rewrite register_refresh_jobs_run, IH. unfold set_cron_jobs; simpl.
      now rewrite <- app_assoc.
    + unfold ret. apply IH.
Qed.

Lemma in_refresh_minutes (P minute : Z) :
  0 < P ->
  (In minute (refresh_minutes P) <->
   exists k, 0 <= k < math_ceil_div 60 P /\ minute = k * P).
Proof.
  intro HP. unfold refresh_minutes. rewrite in_map_iff. split.
  - intros (i & <- & Hi). apply in_seq in Hi. exists (Z.of_nat i). split; lia.
  - intros (k & Hk & ->). exists (Z.to_nat k). split; [lia|].
    apply in_seq. lia.
Qed.

Lemma count_refresh_minutes (P k : Z) :
  0 < P -> 0 <= k < math_ceil_div 60 P ->
  length (filter (Z.eqb (k * P)) (refresh_minutes P)) = 1%nat.
Proof.
  intros HP Hk. unfold refresh_minutes.
  remember (Z.to_nat (math_ceil_div 60 P)) as n eqn:En.
  assert (Hn : (Z.to_nat k < n)%nat) by lia.
  assert (Hk0 : 0 <= k) by lia. clear En Hk.
  assert (G : forall len start, 
            length (filter (Z.eqb (k * P))
                      (map (fun i => P * Z.of_nat i) (seq start len))) =
            if (start <=? Z.to_nat k)%nat && (Z.to_nat k <? start + len)%nat
            then 1%nat else 0%nat).
  { induction len as [|len IH]; intro start; simpl.
    - destruct (start <=? Z.to_nat k)%nat eqn:E1; simpl; [|reflexivity].
      apply Nat.leb_le in E1.
      destruct (Z.to_nat k <? start + 0)%nat eqn:E2; [|reflexivity].
      apply Nat.ltb_lt in E2. lia.
    - destruct (k * P =? P * Z.of_nat start) eqn:E; simpl length;
        rewrite (IH (S start)).
      + apply Z.eqb_eq in E. assert (k = Z.of_nat start) by nia. subst k.
        rewrite Nat2Z.id.
        replace (start <=? start)%nat with true by (symmetry; apply Nat.leb_le; lia).
        replace (start <? start + S len)%nat with true
          by (symmetry; apply Nat.ltb_lt; lia).
        replace (S start <=? start)%nat with false
          by (symmetry; apply Nat.leb_gt; lia).
        reflexivity.
      + apply Z.eqb_neq in E. assert (Z.to_nat k <> start) by nia.
        destruct (start <=? Z.to_nat k)%nat eqn:E1;
          destruct (S start <=? Z.to_nat k)%nat eqn:E2;
          destruct (Z.to_nat k <? start + S len)%nat eqn:E3;
          destruct (Z.to_nat k <? S start + len)%nat eqn:E4;
          try reflexivity; exfalso;
          repeat match goal with
                 | H : (_ <=? _)%nat = true |- _ => apply Nat.leb_le in H
                 | H : (_ <=? _)%nat = false |- _ => apply Nat.leb_gt in H
                 | H : (_ <? _)%nat = true |- _ => apply Nat.ltb_lt in H
                 | H : (_ <? _)%nat = false |- _ => apply Nat.ltb_ge in H
                 end; lia. }
  rewrite G. replace (0 <=? Z.to_nat k)%nat with true by reflexivity.
  simpl. replace (Z.to_nat k <? n)%nat with true
    by (symmetry; apply Nat.ltb_lt; lia). reflexivity.
Qed.

Lemma in_startup_jobs (P : Z) (pools : list MinionPool) (job : CronJob) :
  0 < P ->
  In job (startup_jobs P pools) ->
  exists pool k,
    In pool pools /\ mp_status pool = MINION_POOL_STATUS_ALLOCATED /\
    0 <= k < math_ceil_div 60 P /\ job = refresh_job pool (k * P).
Proof.
  intros HP H. unfold startup_jobs in H. apply in_flat_map in H.
  destruct H as (pool & Hin & Hjob).
  destruct (pool_status_eqb (mp_status pool) MINION_POOL_STATUS_ALLOCATED) eqn:E;
    [|contradiction].
  apply pool_status_eqb_eq in E. apply in_map_iff in Hjob.
  destruct Hjob as (minute & <- & Hm). apply (in_refresh_minutes _ HP) in Hm.
  destruct Hm as (k & Hk & ->). now exists pool, k.
Qed.

Lemma filter_app_length {A} (f : A -> bool) (l1 l2 : list A) :
  length (filter f (l1 ++ l2)) = (length (filter f l1) + length (filter f l2))%nat.
Proof. now rewrite filter_app, length_app. Qed.

Lemma count_jobs_of_pool (P k : Z) (pool : MinionPool) (pool_id : string) :
  0 < P -> 0 <= k < math_ceil_div 60 P ->
  length (filter (job_is pool_id (k * P))
            (map (refresh_job pool) (refresh_minutes P))) =
  if String.eqb (mp_id pool) pool_id then 1%nat else 0%nat.
Proof.
  intros HP Hk. rewrite <- (count_refresh_minutes HP Hk).
  generalize (refresh_minutes P) as l.
  induction l as [|m l IH]; simpl.
  - now destruct (String.eqb (mp_id pool) pool_id).
  - unfold job_is at 1; simpl. rewrite (Z.eqb_sym (k * P) m).
    destruct (String.eqb (mp_id pool) pool_id) eqn:E; simpl.
    + destruct (m =? k * P); simpl; now rewrite IH.
    + exact IH.
Qed.

Lemma count_startup_jobs (P k : Z) (pools : list MinionPool) (pool_id : string) :
  0 < P -> 0 <= k < math_ceil_div 60 P ->
  length (filter (job_is pool_id (k * P)) (startup_jobs P pools)) =
  length (filter (allocated_pool_with_id pool_id) pools).
Proof.
  intros HP Hk. induction pools as [|p pools IH]; simpl; [reflexivity|].
  rewrite filter_app_length, IH. unfold allocated_pool_with_id at 2.
  destruct (pool_status_eqb (mp_status p) MINION_POOL_STATUS_ALLOCATED).
  - rewrite (count_jobs_of_pool p pool_id HP Hk).
    destruct (String.eqb (mp_id p) pool_id); reflexivity.
  - rewrite andb_false_r. reflexivity.
Qed.

(** C9, as the claim states it, fails: the constructor of the endpoint, which
    is all that runs on startup, creates an empty cron registry and leaves
    the call to [_init_cron] commented out, so the ALLOCATED pool "p1" is
    left without a refresh job. *)
Lemma startup_registers_no_jobs :
  In startup_pool (db_pools startup_world) /\
  mp_status startup_pool = MINION_POOL_STATUS_ALLOCATED /\
  __init__ startup_world = (Ok tt, startup_world) /\
  cron_jobs (snd (__init__ startup_world)) = [].
Proof. repeat split. now left. Qed.

(** C9 (amended): when [_init_cron] runs, it registers refresh jobs with the
    period P of C5 such that every registered job is the refresh job of a
    pool in status ALLOCATED for a minute k*P with 0 <= k < ceil(60/P), and
    for every pool id and every such k the number of jobs registered for
    that pool id at minute k*P is the number of ALLOCATED pools with that
    id: one for an ALLOCATED pool, none for a pool in another status. *)
Theorem init_cron_registers (w : World) :
  let P := refresh_period_minutes
             (conf_minion_pool_default_refresh_period_minutes w) None in
  exists jobs,
    _init_cron w = (Ok tt, set_cron_jobs (cron_jobs w ++ jobs) w) /\
    (forall job, In job jobs ->
       exists pool k,
         In pool (db_pools w) /\
         mp_status pool = MINION_POOL_STATUS_ALLOCATED /\
         0 <= k < math_ceil_div 60 P /\
         job = refresh_job pool (k * P)) /\
    (forall pool_id k, 0 <= k < math_ceil_div 60 P ->
       length (filter (job_is pool_id (k * P)) jobs) =
       length (filter (allocated_pool_with_id pool_id) (db_pools w))).
Proof.
  intro P.
  assert (HP : 0 < P) by (pose proof (refresh_period_in_range
    (conf_minion_pool_default_refresh_period_minutes w) None); subst P; lia).
  exists (startup_jobs P (map (db_api.load_pool false w) (db_pools w))).
  split; [|split].
  - unfold _init_cron, bind, db_api.get_minion_pools. apply init_cron_loop.
  - intros job Hjob. apply (in_startup_jobs _ _ HP) in Hjob.
    destruct Hjob as (pool & k & Hin & Hst & Hk & ->).
    apply in_map_iff in Hin. destruct Hin as (p & <- & Hp).
    exists p, k. repeat split; try assumption; lia.
  - intros pool_id k Hk. rewrite (count_startup_jobs _ _ HP Hk).
    induction (db_pools w) as [|p ps IH]; simpl; [reflexivity|].
    change (allocated_pool_with_id pool_id (db_api.load_pool false w p))
      with (allocated_pool_with_id pool_id p).
    destruct (allocated_pool_with_id pool_id p); simpl; now rewrite IH.
Qed.

(** The ALLOCATED pool of the example gets the six jobs of the period 10. *)
Example init_cron_startup_world :
  map (fun job => (job_name job, job_minute job))
    (cron_jobs (snd (_init_cron startup_world))) =
  [ ("pool-p1-refresh-minute-0", 0); ("pool-p1-refresh-minute-10", 10);
    ("pool-p1-refresh-minute-20", 20); ("pool-p1-refresh-minute-30", 30);
    ("pool-p1-refresh-minute-40", 40); ("pool-p1-refresh-minute-50", 50) ].
Proof. vm_compute. reflexivity. Qed.

(* ------------------------------------------------------------------ *)
(** ** Release of one machine (C7) *)

Lemma find_machine_some (id : string) (l : list MinionMachine) (m : MinionMachine) :
  find (fun m => String.eqb (mm_id m) id) l = Some m ->
  mm_id m = id /\ has_machine id l = true.
Proof.
  intro H. split.
  - apply find_some in H. now apply String.eqb_eq.
  - unfold has_machine. apply existsb_exists. exists m.
    now apply find_some in H.
Qed.

Lemma find_machine_none (id : string) (l : list MinionMachine) :
  find (fun m => String.eqb (mm_id m) id) l = None ->
  has_machine id l = false.
Proof.
  intro H. unfold has_machine.
  destruct (existsb (fun m => String.eqb (mm_id m) id) l) eqn:E; [|reflexivity].
  apply existsb_exists in E. destruct E as (m & Hin & Hm).
  now rewrite (find_none _ _ H m Hin) in Hm.
Qed.

Lemma has_machine_map (id : string) (f : MinionMachine -> MinionMachine)
    (l : list MinionMachine) :
  (forall m, mm_id (f m) = mm_id m) ->
  has_machine id (map f l) = has_machine id l.
Proof.
  intro Hf. unfold has_machine. induction l as [|m l IH]; simpl; [reflexivity|].
  now rewrite Hf, IH.
Qed.

Lemma released_id (id : string) (m : MinionMachine) : mm_id (released id m) = mm_id m.
Proof. unfold released. now destruct (String.eqb (mm_id m) id). Qed.

Lemma released_twice (id : string) (m : MinionMachine) :
  released id (released id m) = released id m.
Proof.
  unfold released. destruct (String.eqb (mm_id m) id) eqn:E; simpl.
  - now rewrite E.
  - now rewrite E.
Qed.

Lemma deallocate_minion_machine_run (id : string) (w : World) :
  reliable w ->
  deallocate_minion_machine id w =
  (Ok tt, if has_machine id (db_machines w)
          then set_db_machines (map (released id) (db_machines w)) w
          else w).
Proof.
  intro Hr. unfold deallocate_minion_machine, bind, db_api.get_minion_machine.
  destruct (find (fun m => String.eqb (mm_id m) id) (db_machines w)) as [m|] eqn:F.
  - apply find_machine_some in F. destruct F as [Hid Hhas]. rewrite Hhas, Hid.
    unfold db_api.update_minion_machine, bind, get_world, modify.
    rewrite (ext_reliable _ _ Hr), Hhas. reflexivity.
  - apply find_machine_none in F. rewrite F. reflexivity.
Qed.

(** C7: in a world whose database does not fail, [deallocate_minion_machine]
    succeeds twice in a row on the same id; the second call leaves the world
    as the first call left it; after either call every row with that id is
    AVAILABLE with a null [allocated_action]; and when no row has that id
    the calls change nothing. *)
Theorem deallocate_minion_machine_idempotent (id : string) (w : World) :
  reliable w ->
  exists w1,
    deallocate_minion_machine id w = (Ok tt, w1) /\
    deallocate_minion_machine id w1 = (Ok tt, w1) /\
    (forall m, In m (db_machines w1) -> mm_id m = id ->
       mm_status m = MINION_MACHINE_STATUS_AVAILABLE /\
       mm_allocated_action m = None) /\
    (has_machine id (db_machines w) = false -> w1 = w).
Proof.
  intro Hr. rewrite (deallocate_minion_machine_run id Hr).
  destruct (has_machine id (db_machines w)) eqn:Hhas.
  - eexists. split; [reflexivity|]. split; [|split].
    + rewrite deallocate_minion_machine_run by exact Hr. simpl.
      rewrite (has_machine_map id _ (db_machines w) (released_id id)), Hhas.
      unfold set_db_machines; simpl. rewrite map_map.
      f_equal. f_equal. apply map_ext. intro m. apply released_twice.
    + simpl. intros m Hin Hid. apply in_map_iff in Hin.
      destruct Hin as (m0 & <- & _). rewrite released_id in Hid.
      unfold released. apply String.eqb_eq in Hid. rewrite Hid. now split.
    + discriminate.
  - exists w. split; [reflexivity|]. split; [|split].
    + rewrite deallocate_minion_machine_run by exact Hr. now rewrite Hhas.
    + intros m Hin Hid. exfalso. unfold has_machine in Hhas.
      assert (E : existsb (fun m => String.eqb (mm_id m) id) (db_machines w) = true).
      { apply existsb_exists. exists m. split; [exact Hin|].
        now apply String.eqb_eq. }
      congruence.
    + reflexivity.
Qed.

Lemma deallocate_minion_machine_idempotent_witness :
  reliable release_world /\
  exists w1,
    deallocate_minion_machine "m1" release_world = (Ok tt, w1) /\
    deallocate_minion_machine "m1" w1 = (Ok tt, w1) /\
    (forall m, In m (db_machines w1) -> mm_id m = "m1" ->
       mm_status m = MINION_MACHINE_STATUS_AVAILABLE /\
       mm_allocated_action m = None) /\
    (has_machine "m1" (db_machines release_world) = false -> w1 = release_world).
Proof.
  split.
  - intro c. reflexivity.
  - apply (@deallocate_minion_machine_idempotent "m1" release_world).
    intro c. reflexivity.
Defined.

Example deallocate_minion_machine_example :
  db_machines (snd (deallocate_minion_machine "m1" release_world)) =
  [ mkMinionMachine "m1" "p1" MINION_MACHINE_STATUS_AVAILABLE None (Some 100) ].
Proof. reflexivity. Qed.

(* ------------------------------------------------------------------ *)
(** ** The pool allocation flow (C8) *)

Lemma allocate_machine_tasks_run (minion_pool : MinionPool) (n : nat) (w : World) :
  allocate_machine_tasks minion_pool n w =
  (Ok (map (allocate_machine_task minion_pool)
         (map (uuid_source w) (seq (uuid_next w) n))),
   advance_uuid n w).
Proof.
  revert w. induction n as [|n IH]; intro w.
  - simpl. unfold ret, advance_uuid. now destruct w.
  - cbn [allocate_machine_tasks]. unfold bind at 1. unfold uuid4 at 1.
    unfold bind at 1. rewrite IH. unfold ret, advance_uuid; simpl.
    now rewrite Nat.add_succ_r.
Qed.

Lemma NoDup_map_inj {A B} (f : A -> B) (l : list A) :
  (forall x y, f x = f y -> x = y) -> NoDup l -> NoDup (map f l).
Proof.
  intros Hf H. induction H as [|x l Hx Hl IH]; simpl; constructor.
  - intro Hin. apply in_map_iff in Hin. destruct Hin as (y & Hy & Hin).
    apply Hf in Hy. now subst y.
  - exact IH.
Qed.



Example pool_allocation_flow_without_minions :
  fst (_get_minion_pool_allocation_flow (bring_up_pool 0) startup_world) =
  Ok (linear_flow (NameFormat MINION_POOL_ALLOCATION_FLOW_NAME_FORMAT ["p1"])
        [ Task (UpdateMinionPoolStatusTask "p1"
                  MINION_POOL_STATUS_VALIDATING_INPUTS
                  (Some MINION_POOL_STATUS_ERROR));
          Task (ValidateMinionPoolOptionsTask "p1" "p1" "destination");
          Task (UpdateMinionPoolStatusTask "p1"
                  MINION_POOL_STATUS_ALLOCATING_SHARED_RESOURCES None);
          Task (AllocateSharedPoolResourcesTask "p1" "p1" "destination");
          Task (UpdateMinionPoolStatusTask "p1"
                  MINION_POOL_STATUS_ALLOCATED None) ]).
Proof. reflexivity. Qed.

(* ------------------------------------------------------------------ *)
(** ** Per-pool reservation: over-subscription (C6) *)

(** C6: when the number of requested instances exceeds the number of
    AVAILABLE machines of the pool plus the room left below
    [maximum_minions], the reservation raises [InvalidMinionPoolState] at
    once and the world, and so the store, is left exactly as it was. *)
Theorem oversubscription_rejected
    (minion_pool : MinionPool) (action_id : string)
    (action_instances : list string) (subflow_name : string) (w : World) :
  Z.of_nat (length action_instances) >
    Z.of_nat (length (filter is_available (minion_machines minion_pool)))
    + (mp_maximum_minions minion_pool
       - Z.of_nat (length (minion_machines minion_pool))) ->
  _make_minion_machine_allocation_subflow_for_action
    minion_pool action_id action_instances subflow_name w
  = (Raise InvalidMinionPoolState, w).
Proof.
  intro H. unfold _make_minion_machine_allocation_subflow_for_action.
  replace (_ >? _) with true; [reflexivity|].
  symmetry. rewrite Z.gtb_ltb. apply Z.ltb_lt. lia.
Qed.

Lemma oversubscription_rejected_witness :
  _make_minion_machine_allocation_subflow_for_action
    full_pool "a1" ["vm1"; "vm2"; "vm3"; "vm4"; "vm5"] "destination-sub"
    startup_world
  = (Raise InvalidMinionPoolState, startup_world).
Proof.
  apply (@oversubscription_rejected full_pool "a1"
           ["vm1"; "vm2"; "vm3"; "vm4"; "vm5"] "destination-sub" startup_world).
  simpl. lia.
Defined.

(* ------------------------------------------------------------------ *)
(** ** Per-pool reservation: rollback (C2) *)

(** C2 fails on the code whenever a new row was inserted before the error.
    Three instances are requested from a pool with one AVAILABLE machine:
    "m1" is marked IN_USE, the row of the first new machine is inserted, and
    the insertion of the second raises [DBError].  The handler then evaluates
    [[m.id for m in new_machine_db_entries_added]] on a list of strings and
    raises [AttributeError]: "m1" stays IN_USE, the inserted row stays in the
    store, and the error that leaves the procedure is not the original one. *)
Lemma rollback_skipped_after_insert :
  exists w',
    _make_minion_machine_allocation_subflow_for_action
      reservation_pool "a1" ["vm1"; "vm2"; "vm3"] "destination-sub"
      failing_insert_world
    = (Raise AttributeError, w') /\
    db_machines w' =
      [ mkMinionMachine "m1" "p1" MINION_MACHINE_STATUS_IN_USE (Some "a1")
          (Some 500);
        mkMinionMachine (example_uuid 0) "p1"
          MINION_MACHINE_STATUS_UNINITIALIZED (Some "a1") None ].
Proof. eexists. split; reflexivity. Qed.

(** The try body alone does raise the original [DBError] with one row
    added. *)
Example failing_insert_try_body :
  let plan :=
    mkAllocationPlan [] []
      [ mkMinionMachine (example_uuid 0) "p1"
          MINION_MACHINE_STATUS_UNINITIALIZED (Some "a1") None;
        mkMinionMachine (example_uuid 1) "p1"
          MINION_MACHINE_STATUS_UNINITIALIZED (Some "a1") None ]
      [("m1", "vm1")] in
  fst (mark_and_add_machines "a1" plan failing_insert_world)
  = (Raise DBError, [example_uuid 0]).
Proof. reflexivity. Qed.

(** As soon as one row was inserted, the handler raises [AttributeError]
    and leaves the world as the failed [try] body left it. *)
Lemma rollback_with_inserted_rows
    (A : Type) (plan : allocation_plan) (added : list string) (ex : exn)
    (w : World) :
  added <> [] ->
  @rollback_allocations A plan added ex w = (Raise AttributeError, w).
Proof.
  intro H. destruct added as [|id added]; [contradiction|]. reflexivity.
Qed.

(** When the error comes before any row was inserted, the handler does what
    C2 says: the chosen pre-existing machines are set back to AVAILABLE with
    a null [allocated_action] and their [last_used_at] as it is, and the
    original error is raised again, whether or not that revert fails. *)
Lemma rollback_without_inserted_rows
    (A : Type) (plan : allocation_plan) (ex : exn) (w : World) :
  exists w',
    @rollback_allocations A plan [] ex w = (Raise ex, w') /\
    (w' = w \/
     db_machines w' =
       map (fun m =>
              if str_in (mm_id m) (dict_keys (existing_machines_to_allocate plan))
              then with_allocation None MINION_MACHINE_STATUS_AVAILABLE
                     (mm_last_used_at m) m
              else m) (db_machines w)).
Proof.
  unfold rollback_allocations, map_M, for_each, bind, ret, try_except, raise.
  unfold db_api.set_minion_machines_allocation_statuses, bind, ext, get_world,
    modify, raise.
  destruct (faults w _); [eexists; split; [reflexivity | now left]|].
  destruct (forallb _ _); eexists; (split; [reflexivity|]).
  - right. reflexivity.
  - now left.
Qed.

(* ------------------------------------------------------------------ *)
(** ** Status and [allocated_action] of the machine rows (C1) *)

Section Preservation.

Variable I : list MinionMachine -> Prop.

Lemma preserves_ret {A} (a : A) : preserves I (ret a).
Proof. intros w H. exact H. Qed.

Lemma preserves_raise {A} (e : exn) : preserves I (@raise A e).
Proof. intros w H. exact H. Qed.

Lemma preserves_bind {A B} (m : M A) (k : A -> M B) :
  preserves I m -> (forall a, preserves I (k a)) -> preserves I (bind m k).
Proof.
  intros Hm Hk w H. unfold bind. specialize (Hm w H).
  destruct (m w) as [[a|e] w']; simpl in *; [now apply Hk | exact Hm].
Qed.

Lemma preserves_try_except {A} (body : M A) (handler : exn -> M A) :
  preserves I body -> (forall e, preserves I (handler e)) ->
  preserves I (try_except body handler).
Proof.
  intros Hb Hh w H. unfold try_except. specialize (Hb w H).
  destruct (body w) as [[a|e] w']; simpl in *; [exact Hb | now apply Hh].
Qed.

Lemma preserves_for_each {A} (l : list A) (body : A -> M unit) :
  (forall x, In x l -> preserves I (body x)) -> preserves I (for_each l body).
Proof.
  induction l as [|x l IH]; intro Hb; simpl.
  - apply preserves_ret.
  - apply preserves_bind; [apply Hb; now left|].
    intros _. apply IH. intros y Hy. apply Hb. now right.
Qed.

Lemma preserves_map_M {A B} (f : A -> M B) (l : list A) :
  (forall x, preserves I (f x)) -> preserves I (map_M f l).
Proof.
  intro Hf. induction l as [|x l IH]; simpl.
  - apply preserves_ret.
  - apply preserves_bind; [apply Hf|]. intros y.
    apply preserves_bind; [exact IH|]. intros ys. apply preserves_ret.
Qed.

Lemma preserves_uuid4 : preserves I uuid4.
Proof. intros w H. exact H. Qed.

(** The mutators of the machine table, each reduced to what it does to the
    list of rows. *)
Lemma preserves_set_minion_machines_allocation_statuses
    (ids : list string) (action : option string) (status : machine_status)
    (refresh : bool) :
  (forall ms last_used,
     I ms ->
     I (map (fun m => if str_in (mm_id m) ids
                      then with_allocation action status (last_used m) m
                      else m) ms)) ->
  preserves I
    (db_api.set_minion_machines_allocation_statuses ids action status refresh).
Proof.
  intros Hmap w H.
  unfold db_api.set_minion_machines_allocation_statuses, bind, ext, get_world,
    modify, raise.
  destruct (faults w _); [exact H|].
  destruct (forallb _ _); [|exact H]. simpl.
  apply (Hmap (db_machines w)
           (fun m => if refresh then Some (utcnow w) else mm_last_used_at m) H).
Qed.

Lemma preserves_add_minion_machine (machine : MinionMachine) :
  (forall ms, I ms -> has_machine (mm_id machine) ms = false ->
              I (ms ++ [machine])) ->
  preserves I (db_api.add_minion_machine machine).
Proof.
  intros Hadd w H.
  unfold db_api.add_minion_machine, bind, ext, get_world, modify, raise.
  destruct (faults w _); [exact H|].
  destruct (has_machine _ _) eqn:E; [exact H|]. simpl. now apply Hadd.
Qed.

Lemma preserves_delete_minion_machine (id : string) :
  (forall ms, I ms ->
              I (filter (fun m => negb (String.eqb (mm_id m) id)) ms)) ->
  preserves I (db_api.delete_minion_machine id).
Proof.
  intros Hdel w H.
  unfold db_api.delete_minion_machine, bind, ext, get_world, modify.
  destruct (faults w _); [exact H|]. simpl. now apply Hdel.
Qed.

Lemma preserves_update_minion_machine
    (id : string) (status : machine_status) (action : option string) :
  (forall ms, I ms ->
     I (map (fun m => if String.eqb (mm_id m) id
                      then with_allocation action status (mm_last_used_at m) m
                      else m) ms)) ->
  preserves I (db_api.update_minion_machine id status action).
Proof.
  intros Hmap w H.
  unfold db_api.update_minion_machine, bind, ext, get_world, modify, raise.
  destruct (faults w _); [exact H|].
  destruct (has_machine _ _); [|exact H]. simpl. now apply Hmap.
Qed.

Lemma preserves_set_minion_machine_status (id : string) (status : machine_status) :
  (forall ms, I ms ->
     I (map (fun m => if String.eqb (mm_id m) id
                      then with_machine_status status m else m) ms)) ->
  preserves I (db_api.set_minion_machine_status id status).
Proof.
  intros Hmap w H.
  unfold db_api.set_minion_machine_status, bind, ext, get_world, modify, raise.
  destruct (faults w _); [exact H|].
  destruct (has_machine _ _); [|exact H]. simpl. now apply Hmap.
Qed.

End Preservation.

(** *** The invariant under the row updates *)

Lemma store_consistent_map (f : MinionMachine -> MinionMachine)
    (ms : list MinionMachine) :
  (forall m, mm_id (f m) = mm_id m) ->
  (forall m, In m ms -> allocation_consistent m -> allocation_consistent (f m)) ->
  store_consistent ms -> store_consistent (map f ms).
Proof.
  intros Hid Hf [Hnd Hall]. split.
  - rewrite map_map. rewrite (map_ext _ mm_id Hid). exact Hnd.
  - rewrite Forall_forall in *. intros m' Hin. apply in_map_iff in Hin.
    destruct Hin as (m & <- & Hin). apply Hf; [exact Hin | now apply Hall].
Qed.

Lemma store_consistent_filter (f : MinionMachine -> bool)
    (ms : list MinionMachine) :
  store_consistent ms -> store_consistent (filter f ms).
Proof.
  intros [Hnd Hall]. split.
  - clear Hall. induction ms as [|m ms IH]; simpl; [constructor|].
    inversion Hnd as [|x l Hx Hl]; subst.
    destruct (f m); simpl; [constructor|]; try now apply IH.
    intro Hin. apply Hx. apply in_map_iff in Hin.
    destruct Hin as (y & Hy & Hin). apply filter_In in Hin.
    apply in_map_iff. exists y. now split.
  - rewrite Forall_forall in *. intros m Hin. apply filter_In in Hin.
    now apply Hall.
Qed.

Lemma has_machine_false_not_in (id : string) (ms : list MinionMachine) :
  has_machine id ms = false -> ~ In id (map mm_id ms).
Proof.
  intros H Hin. apply in_map_iff in Hin. destruct Hin as (m & Hm & Hin).
  assert (E : has_machine id ms = true).
  { unfold has_machine. apply existsb_exists. exists m. split; [exact Hin|].
    now apply String.eqb_eq. }
  congruence.
Qed.

Lemma store_consistent_add (machine : MinionMachine) (ms : list MinionMachine) :
  allocation_consistent machine ->
  store_consistent ms -> has_machine (mm_id machine) ms = false ->
  store_consistent (ms ++ [machine]).
Proof.
  intros Hm [Hnd Hall] Hnew. split.
  - rewrite map_app. simpl. apply NoDup_app; [exact Hnd | |].
    + constructor; [intros [] | constructor].
    + intros x Hx [<-|[]]. now apply (has_machine_false_not_in _ _ Hnew).
  - apply Forall_app. split; [exact Hall | now constructor].
Qed.

Lemma allocated_in_use_consistent (a : string) (last_used : option Z)
    (m : MinionMachine) :
  allocation_consistent
    (with_allocation (Some a) MINION_MACHINE_STATUS_IN_USE last_used m).
Proof. split; simpl; intro H; [discriminate | now left]. Qed.

Lemma released_available_consistent (last_used : option Z) (m : MinionMachine) :
  allocation_consistent
    (with_allocation None MINION_MACHINE_STATUS_AVAILABLE last_used m).
Proof. split; simpl; intro H; [discriminate | contradiction]. Qed.

Lemma uninitialized_consistent (id pool_id a : string) :
  allocation_consistent
    (mkMinionMachine id pool_id MINION_MACHINE_STATUS_UNINITIALIZED (Some a) None).
Proof. split; simpl; intro H; [discriminate | now right]. Qed.

(** *** The operations keep the invariant *)

Lemma set_allocated_preserves (ids : list string) (a : string) (refresh : bool) :
  preserves store_consistent
    (db_api.set_minion_machines_allocation_statuses ids (Some a)
       MINION_MACHINE_STATUS_IN_USE refresh).
Proof.
  apply preserves_set_minion_machines_allocation_statuses.
  intros ms last_used H. apply store_consistent_map; [| |exact H].
  - intro m. now destruct (str_in (mm_id m) ids).
  - intros m _ Hm. destruct (str_in (mm_id m) ids); [|exact Hm].
    apply allocated_in_use_consistent.
Qed.

Lemma set_released_preserves (ids : list string) (refresh : bool) :
  preserves store_consistent
    (db_api.set_minion_machines_allocation_statuses ids None
       MINION_MACHINE_STATUS_AVAILABLE refresh).
Proof.
  apply preserves_set_minion_machines_allocation_statuses.
  intros ms last_used H. apply store_consistent_map; [| |exact H].
  - intro m. now destruct (str_in (mm_id m) ids).
  - intros m _ Hm. destruct (str_in (mm_id m) ids); [|exact Hm].
    apply released_available_consistent.
Qed.

Lemma delete_preserves (id : string) :
  preserves store_consistent (db_api.delete_minion_machine id).
Proof.
  apply preserves_delete_minion_machine. intros ms H.
  now apply store_consistent_filter.
Qed.

Lemma add_preserves (machine : MinionMachine) :
  allocation_consistent machine ->
  preserves store_consistent (db_api.add_minion_machine machine).
Proof.
  intro Hm. apply preserves_add_minion_machine. intros ms H Hnew.
  now apply store_consistent_add.
Qed.

Lemma reserved_row_consistent (action_id : string) (m : MinionMachine) :
  reserved_row action_id m -> allocation_consistent m.
Proof.
  intros (Hs & Ha & _). split; intro H.
  - rewrite Hs in H. discriminate.
  - now right.
Qed.

Lemma plan_allocations_world
    (minion_pool : MinionPool) (action_id : string)
    (action_instances : list string) (plan : allocation_plan) (w : World) :
  db_machines (snd (plan_allocations minion_pool action_id action_instances plan w))
  = db_machines w /\
  faults (snd (plan_allocations minion_pool action_id action_instances plan w))
  = faults w /\
  utcnow (snd (plan_allocations minion_pool action_id action_instances plan w))
  = utcnow w.
Proof.
  revert plan w. induction action_instances as [|i l IH]; intros plan w; simpl.
  - now repeat split.
  - destruct (dict_has i (instance_minion_allocations plan)); [now repeat split|].
    destruct (_select_machine minion_pool _) as [m|]; [apply IH|].
    unfold bind, uuid4.
    match goal with
    | |- context [plan_allocations _ _ _ ?p ?w'] =>
        destruct (IH p w') as (E1 & E2 & E3)
    end.
    rewrite E1, E2, E3. now repeat split.
Qed.

Lemma plan_allocations_entries
    (minion_pool : MinionPool) (action_id : string)
    (action_instances : list string) (plan plan' : allocation_plan)
    (w w' : World) :
  plan_allocations minion_pool action_id action_instances plan w = (Ok plan', w') ->
  Forall (reserved_row action_id) (machine_db_entries_to_add plan) ->
  Forall (reserved_row action_id) (machine_db_entries_to_add plan').
Proof.
  revert plan w. induction action_instances as [|i l IH]; intros plan w; simpl.
  - unfold ret. intros E H. now injection E as <- _.
  - destruct (dict_has i (instance_minion_allocations plan)); [discriminate|].
    destruct (_select_machine minion_pool _) as [m|].
    + intros E H. apply (IH _ _ E). exact H.
    + unfold bind at 1. unfold uuid4 at 1. intros E H. apply (IH _ _ E). simpl.
      apply Forall_app. split; [exact H|]. constructor; [|constructor].
      now repeat split.
Qed.

Lemma add_new_machine_entries_preserves
    (action_id : string) (entries : list MinionMachine) (added : list string)
    (w : World) :
  Forall (reserved_row action_id) entries ->
  store_consistent (db_machines w) ->
  store_consistent (db_machines (snd (add_new_machine_entries entries added w))).
Proof.
  revert added w. induction entries as [|m entries IH]; intros added w He H; simpl.
  - exact H.
  - inversion He as [|x l Hm Hl]; subst.
    pose proof (add_preserves (reserved_row_consistent Hm) w H) as Hadd.
    destruct (db_api.add_minion_machine m w) as [[u|e] w1]; simpl in *.
    + now apply IH.
    + exact Hadd.
Qed.

Lemma mark_and_add_machines_preserves
    (action_id : string) (plan : allocation_plan) (w : World) :
  Forall (reserved_row action_id) (machine_db_entries_to_add plan) ->
  store_consistent (db_machines w) ->
  store_consistent (db_machines (snd (mark_and_add_machines action_id plan w))).
Proof.
  intros He H. unfold mark_and_add_machines.
  pose proof (set_allocated_preserves
                (dict_keys (existing_machines_to_allocate plan)) action_id true
                w H) as Hset.
  destruct (db_api.set_minion_machines_allocation_statuses _ _ _ _ w)
    as [[u|e] w1]; simpl in *.
  - now apply add_new_machine_entries_preserves with (action_id := action_id).
  - exact Hset.
Qed.

Lemma rollback_allocations_preserves
    (A : Type) (plan : allocation_plan) (added : list string) (ex : exn) :
  preserves store_consistent (@rollback_allocations A plan added ex).
Proof.
  unfold rollback_allocations.
  apply preserves_bind;
    [apply preserves_map_M; intro x; apply preserves_raise | intros _].
  apply preserves_bind.
  { apply preserves_try_except; [apply set_released_preserves|].
    intros e. apply preserves_ret. }
  intros _. apply preserves_bind; [|intros _; apply preserves_raise].
  apply preserves_for_each. intros x _. apply preserves_try_except.
  - apply preserves_bind; [apply preserves_raise|].
    intro id. apply delete_preserves.
  - intros e. apply preserves_bind; [apply preserves_raise|].
    intros _. apply preserves_ret.
Qed.

Lemma reservation_preserves
    (minion_pool : MinionPool) (action_id : string)
    (action_instances : list string) (subflow_name : string) :
  preserves store_consistent
    (_make_minion_machine_allocation_subflow_for_action
       minion_pool action_id action_instances subflow_name).
Proof.
  intros w H. unfold _make_minion_machine_allocation_subflow_for_action.
  destruct (_ >? _); [exact H|]. unfold bind.
  pose proof (plan_allocations_world minion_pool action_id action_instances
                (mkAllocationPlan [] [] [] []) w) as (Ew & _).
  destruct (plan_allocations minion_pool action_id action_instances
              (mkAllocationPlan [] [] [] []) w) as [[plan|e] w1] eqn:Eplan;
    simpl in Ew; [|simpl; now rewrite Ew].
  assert (He : Forall (reserved_row action_id) (machine_db_entries_to_add plan))
    by (apply (plan_allocations_entries _ _ _ _ Eplan); constructor).
  assert (H1 : store_consistent (db_machines w1)) by now rewrite Ew.
  pose proof (@mark_and_add_machines_preserves action_id plan w1 He H1) as Hmark.
  destruct (mark_and_add_machines action_id plan w1) as [[[u|e] added] w2];
    simpl in *; [exact Hmark|].
  now apply rollback_allocations_preserves.
Qed.

Lemma deallocate_minion_machine_preserves (id : string) :
  preserves store_consistent (deallocate_minion_machine id).
Proof.
  intros w H. unfold deallocate_minion_machine, bind, db_api.get_minion_machine.
  destruct (find _ _) as [m|]; [|exact H].
  revert w H. apply preserves_update_minion_machine.
  intros ms H. apply store_consistent_map; [| |exact H].
  - intro x. now destruct (String.eqb (mm_id x) (mm_id m)).
  - intros x _ Hx. destruct (String.eqb (mm_id x) (mm_id m)); [|exact Hx].
    apply released_available_consistent.
Qed.

Lemma sweep_pool_machines_preserves
    (pool_machines : list MinionMachine) (ids : list string) :
  preserves store_consistent (sweep_pool_machines pool_machines ids).
Proof.
  revert ids. induction pool_machines as [|m l IH]; intro ids; simpl.
  - apply preserves_ret.
  - destruct (machine_status_eqb _ _); [|apply IH].
    apply preserves_bind; [apply delete_preserves | intros _; apply IH].
Qed.

Lemma deallocate_minion_machines_for_action_preserves (action_id : string) :
  preserves store_consistent (deallocate_minion_machines_for_action action_id).
Proof.
  intros w H. unfold deallocate_minion_machines_for_action, bind,
    db_api.get_minion_machines.
  destruct (filter _ (db_machines w)) as [|m l]; [exact H|].
  revert w H. apply preserves_for_each. intros entry _.
  apply preserves_bind; [apply sweep_pool_machines_preserves|].
  intro ids. apply set_released_preserves.
Qed.

Lemma cleanup_machines_preserves
    (action_id : string) (targeted_statuses : list machine_status)
    (exclude_pools : list string) :
  preserves store_consistent
    (_cleanup_machines_with_statuses_for_action action_id targeted_statuses
       exclude_pools).
Proof.
  intros w H. unfold _cleanup_machines_with_statuses_for_action, bind,
    db_api.get_minion_machines.
  destruct (filter _ (db_machines w)) as [|m l]; [exact H|].
  revert w H. apply preserves_for_each. intros entry _.
  apply preserves_for_each. intros machine _. apply delete_preserves.
Qed.

(** *** The refresh flow keeps the invariant *)

Lemma NoDup_map_In_eq {A B} (f : A -> B) (l : list A) (x y : A) :
  NoDup (map f l) -> In x l -> In y l -> f x = f y -> x = y.
Proof.
  induction l as [|a l IH]; simpl; intros Hnd Hx Hy E; [contradiction|].
  inversion Hnd as [|b l' Ha Hl]; subst.
  destruct Hx as [<-|Hx], Hy as [<-|Hy].
  - reflexivity.
  - exfalso. apply Ha. rewrite E. now apply in_map.
  - exfalso. apply Ha. rewrite <- E. now apply in_map.
  - now apply IH.
Qed.

(** The expiry test raises nothing but [OverflowError]. *)
Lemma minion_expired_raises (minion_pool : MinionPool) (now : Z)
    (machine : MinionMachine) (e : exn) :
  minion_expired minion_pool now machine = Raise e -> e = OverflowError.
Proof.
  unfold minion_expired, timedelta_of_seconds, datetime_add.
  destruct (mm_last_used_at machine) as [t|]; [|discriminate].
  destruct (_ && _); [|congruence].
  destruct (_ && _); [discriminate | congruence].
Qed.

Lemma expired_at_returned (minion_pool : MinionPool) (now : Z)
    (machine : MinionMachine) :
  expiry_test_returns minion_pool now machine ->
  minion_expired minion_pool now machine
  = Ok (expired_at minion_pool now machine).
Proof. intros (b & E). unfold expired_at. now rewrite E. Qed.

(** The loop of the refresh either raises or gives the plan
    [refresh_plan_of]; it gives it when the expiry tests return. *)
Lemma plan_refresh_sound
    (minion_pool : MinionPool) (now : Z) (machines : list MinionMachine)
    (budget : Z) (plan result : refresh_plan) :
  plan_refresh minion_pool now machines budget plan = Ok result ->
  result = refresh_plan_of minion_pool now machines budget plan.
Proof.
  revert budget plan. induction machines as [|m l IH]; intros budget plan;
    cbn [plan_refresh refresh_plan_of].
  - congruence.
  - destruct (negb _); [apply IH|].
    unfold expired_at.
    destruct (minion_expired minion_pool now m) as [expired|e]; [|discriminate].
    destruct ((budget >? 0) && expired); apply IH.
Qed.

Lemma plan_refresh_complete
    (minion_pool : MinionPool) (now : Z) (machines : list MinionMachine)
    (budget : Z) (plan : refresh_plan) :
  (forall m, In m machines -> is_available m = true ->
             expiry_test_returns minion_pool now m) ->
  plan_refresh minion_pool now machines budget plan
  = Ok (refresh_plan_of minion_pool now machines budget plan).
Proof.
  revert budget plan. induction machines as [|m l IH]; intros budget plan Hin;
    cbn [plan_refresh refresh_plan_of]; [reflexivity|].
  assert (Hl : forall x, In x l -> is_available x = true ->
                         expiry_test_returns minion_pool now x)
    by (intros x Hx; apply Hin; now right).
  fold (is_available m). destruct (is_available m) eqn:Ea; cbn [negb];
    [|now apply IH].
  rewrite (expired_at_returned (Hin m (or_introl eq_refl) Ea)).
  destruct ((budget >? 0) && expired_at minion_pool now m); now apply IH.
Qed.

(** The loop of the refresh raises [OverflowError] when the expiry test of
    one of its AVAILABLE machines does not return. *)
Lemma plan_refresh_overflow
    (minion_pool : MinionPool) (now : Z) (machines : list MinionMachine)
    (budget : Z) (plan : refresh_plan) (machine : MinionMachine) :
  In machine machines -> is_available machine = true ->
  ~ expiry_test_returns minion_pool now machine ->
  plan_refresh minion_pool now machines budget plan = Raise OverflowError.
Proof.
  revert budget plan. induction machines as [|m l IH]; intros budget plan Hin Ha Hn;
    [contradiction|].
  cbn [plan_refresh]. fold (is_available m).
  destruct Hin as [->|Hin].
  - rewrite Ha. cbn [negb].
    destruct (minion_expired minion_pool now machine) as [b|e] eqn:E.
    + exfalso. apply Hn. now exists b.
    + now rewrite (minion_expired_raises _ _ _ E).
  - destruct (is_available m); cbn [negb]; [|now apply IH].
    destruct (minion_expired minion_pool now m) as [b|e] eqn:E.
    + destruct ((budget >? 0) && b); now apply IH.
    + now rewrite (minion_expired_raises _ _ _ E).
Qed.

(** The machines the refresh acts on are AVAILABLE machines of the pool. *)
Lemma plan_refresh_ids
    (P : string -> Prop) (minion_pool : MinionPool) (now : Z)
    (machines : list MinionMachine) (budget : Z) (plan : refresh_plan) :
  (forall m, In m machines -> is_available m = true -> P (mm_id m)) ->
  (forall id, In id (machines_to_deallocate plan ++ machines_to_healthcheck plan)
              -> P id) ->
  forall id,
    In id (machines_to_deallocate
             (refresh_plan_of minion_pool now machines budget plan) ++
           machines_to_healthcheck
             (refresh_plan_of minion_pool now machines budget plan)) -> P id.
Proof.
  revert budget plan. induction machines as [|m l IH]; intros budget plan Hm Hp;
    simpl; [exact Hp|].
  assert (Hl : forall x, In x l -> is_available x = true -> P (mm_id x))
    by (intros x Hx; apply Hm; now right).
  fold (is_available m). destruct (is_available m) eqn:Ea; simpl.
  - destruct ((budget >? 0) && expired_at minion_pool now m);
      apply IH; try exact Hl; simpl; intros id Hid;
      assert (Hcase : In id (machines_to_deallocate plan ++
                             machines_to_healthcheck plan) \/ mm_id m = id)
        by (rewrite !in_app_iff in *; simpl in Hid; tauto);
      (destruct Hcase as [Hc | <-];
       [now apply Hp | apply Hm; [now left | exact Ea]]).
  - apply IH; [exact Hl | exact Hp].
Qed.

Lemma set_status_preserves_unallocated
    (ids : list string) (id : string) (status : machine_status) :
  In id ids -> status <> MINION_MACHINE_STATUS_IN_USE ->
  preserves (unallocated ids) (db_api.set_minion_machine_status id status).
Proof.
  intros Hid Hs. apply preserves_set_minion_machine_status.
  intros ms [Hc Hu]. split.
  - apply store_consistent_map; [| |exact Hc].
    + intro m. now destruct (String.eqb (mm_id m) id).
    + intros m Hin Hm. destruct (String.eqb (mm_id m) id) eqn:E; [|exact Hm].
      apply String.eqb_eq in E. split; simpl; intro H.
      * contradiction.
      * exfalso. apply H. apply Hu; [exact Hin | now rewrite E].
  - intros m' Hin Hm'. apply in_map_iff in Hin. destruct Hin as (m & <- & Hin).
    destruct (String.eqb (mm_id m) id); simpl in *; now apply Hu.
Qed.

Lemma pool_machines_incl (pool_id : string) (w : World) :
  incl (db_api.pool_machines pool_id w) (db_machines w).
Proof. intros m H. unfold db_api.pool_machines in H. now apply filter_In in H. Qed.

Lemma refresh_flow_preserves (minion_pool : MinionPool) (requery : bool) (w : World) :
  (requery = false -> incl (minion_machines minion_pool) (db_machines w)) ->
  store_consistent (db_machines w) ->
  store_consistent
    (db_machines (snd (_get_minion_pool_refresh_flow minion_pool requery w))).
Proof.
  intros Hsnap H. unfold _get_minion_pool_refresh_flow. unfold bind at 1.
  assert (Hpool :
    exists r, (if requery then _get_minion_pool (mp_id minion_pool) true
               else ret minion_pool) w = (r, w) /\
              forall p, r = Ok p -> incl (minion_machines p) (db_machines w)).
  { destruct requery.
    - unfold _get_minion_pool, bind, db_api.get_minion_pool.
      destruct (find _ (db_pools w)) as [p|]; simpl; eexists;
        (split; [reflexivity|]); intros p' E; [|discriminate].
      injection E as <-. simpl. apply pool_machines_incl.
    - eexists. split; [reflexivity|]. intros p E. injection E as <-.
      now apply Hsnap. }
  destruct Hpool as (r & -> & Hincl). destruct r as [p|e]; [|exact H].
  specialize (Hincl p eq_refl). unfold bind at 1. unfold get_world at 1.
  cbv zeta. unfold bind at 1. unfold lift at 1.
  destruct (plan_refresh p (utcnow w) (minion_machines p)
              (Z.of_nat (length (minion_machines p)) - mp_minimum_minions p)
              (mkRefreshPlan [] [] [] [])) as [plan|e] eqn:Eplan; [|exact H].
  apply plan_refresh_sound in Eplan.
  set (ids := machines_to_deallocate plan ++ machines_to_healthcheck plan).
  assert (Hu : unallocated ids (db_machines w)).
  { split; [exact H|]. intros m Hm Hid.
    assert (Hex : exists m0, In m0 (minion_machines p) /\ mm_id m0 = mm_id m /\
                             is_available m0 = true).
    { unfold ids in Hid. rewrite Eplan in Hid.
      apply (plan_refresh_ids
               (fun id => exists m0, In m0 (minion_machines p) /\
                                     mm_id m0 = id /\ is_available m0 = true))
        in Hid; [exact Hid | |].
      - intros m0 Hm0 Ha. now exists m0.
      - simpl. intros id []. }
    destruct Hex as (m0 & Hm0 & Eid & Ha). apply Hincl in Hm0.
    destruct H as [Hnd Hall].
    assert (m0 = m) by (apply (NoDup_map_In_eq mm_id _ _ _ Hnd Hm0 Hm Eid)).
    subst m0. rewrite Forall_forall in Hall. destruct (Hall m Hm) as [_ H2].
    destruct (mm_allocated_action m) as [a|]; [|reflexivity].
    unfold is_available in Ha. apply machine_status_eqb_eq in Ha.
    destruct H2 as [E|E]; [discriminate | rewrite Ha in E; discriminate
                                        | rewrite Ha in E; discriminate]. }
  assert (G : preserves (unallocated ids)
    (for_each (machines_to_deallocate plan)
       (fun machine => db_api.set_minion_machine_status machine
                         MINION_MACHINE_STATUS_DEALLOCATING) ;;
     for_each (machines_to_healthcheck plan)
       (fun machine => db_api.set_minion_machine_status machine
                         MINION_MACHINE_STATUS_HEALTHCHECKING) ;;
     ret (unordered_flow
            (NameFormat MINION_POOL_REFRESH_FLOW_NAME_FORMAT [mp_id p])
            (pool_refresh_flow plan)))).
  { apply preserves_bind; [|intros _; apply preserves_bind;
                                     [|intros _; apply preserves_ret]].
    - apply preserves_for_each. intros id Hid.
      apply set_status_preserves_unallocated; [|discriminate].
      unfold ids. apply in_app_iff. now left.
    - apply preserves_for_each. intros id Hid.
      apply set_status_preserves_unallocated; [|discriminate].
      unfold ids. apply in_app_iff. now right. }
  apply (G w Hu).
Qed.

(** *** What a successful reservation writes *)

Lemma set_allocation_statuses_ok
    (ids : list string) (action : option string) (status : machine_status)
    (refresh : bool) (w w' : World) (u : unit) :
  db_api.set_minion_machines_allocation_statuses ids action status refresh w
  = (Ok u, w') ->
  db_machines w' =
  map (fun m => if str_in (mm_id m) ids
                then with_allocation action status
                       (if refresh then Some (utcnow w) else mm_last_used_at m) m
                else m) (db_machines w).
Proof.
  unfold db_api.set_minion_machines_allocation_statuses, bind, ext, get_world,
    modify, raise.
  destruct (faults w _); [discriminate|].
  destruct (forallb _ _); [|discriminate].
  intro E. injection E as _ <-. reflexivity.
Qed.

Lemma add_new_machine_entries_ok
    (entries : list MinionMachine) (added added' : list string)
    (w w' : World) (u : unit) :
  add_new_machine_entries entries added w = (Ok u, added', w') ->
  db_machines w' = db_machines w ++ entries.
Proof.
  revert added w. induction entries as [|m entries IH]; intros added w; simpl.
  - intro E. injection E as _ _ <-. now rewrite app_nil_r.
  - unfold db_api.add_minion_machine, bind, ext, get_world, modify, raise.
    destruct (faults w _); [discriminate|].
    destruct (has_machine _ _); [discriminate|].
    intro E. apply IH in E. rewrite E. simpl. now rewrite <- app_assoc.
Qed.

Lemma rollback_allocations_raises
    (A : Type) (plan : allocation_plan) (added : list string) (ex : exn)
    (w : World) :
  exists e w', @rollback_allocations A plan added ex w = (Raise e, w').
Proof.
  unfold rollback_allocations. unfold bind at 1.
  destruct (map_M str_getattr_id added w) as [[l|e] w1]; [|now eexists _, _].
  unfold bind at 1.
  destruct (try_except _ _ w1) as [[u|e] w2]; [|now eexists _, _].
  unfold bind at 1.
  destruct (for_each added _ w2) as [[u'|e] w3]; now eexists _, _.
Qed.

Lemma reservation_success_rows
    (minion_pool : MinionPool) (action_id : string)
    (action_instances : list string) (subflow_name : string)
    (w w' : World) (r : flow * list (string * string)) :
  _make_minion_machine_allocation_subflow_for_action
    minion_pool action_id action_instances subflow_name w = (Ok r, w') ->
  exists ids new_rows,
    db_machines w' =
      map (fun m => if str_in (mm_id m) ids
                    then with_allocation (Some action_id)
                           MINION_MACHINE_STATUS_IN_USE (Some (utcnow w)) m
                    else m) (db_machines w) ++ new_rows /\
    Forall (reserved_row action_id) new_rows.
Proof.
  unfold _make_minion_machine_allocation_subflow_for_action.
  destruct (_ >? _); [discriminate|]. unfold bind.
  pose proof (plan_allocations_world minion_pool action_id action_instances
                (mkAllocationPlan [] [] [] []) w) as (Ew & _ & Et).
  destruct (plan_allocations minion_pool action_id action_instances
              (mkAllocationPlan [] [] [] []) w) as [[plan|e] w1] eqn:Eplan;
    simpl in Ew, Et; [|discriminate].
  assert (He : Forall (reserved_row action_id) (machine_db_entries_to_add plan))
    by (apply (plan_allocations_entries _ _ _ _ Eplan); constructor).
  destruct (mark_and_add_machines action_id plan w1) as [[[u|e] added] w2] eqn:Em.
  - intro E. injection E as _ <-.
    unfold mark_and_add_machines in Em.
    destruct (db_api.set_minion_machines_allocation_statuses _ _ _ _ w1)
      as [[u1|e1] w3] eqn:Es; [|discriminate].
    apply set_allocation_statuses_ok in Es. apply add_new_machine_entries_ok in Em.
    exists (dict_keys (existing_machines_to_allocate plan)),
           (machine_db_entries_to_add plan).
    split; [|exact He]. now rewrite Em, Es, Ew, Et.
  - intro E.
    destruct (@rollback_allocations_raises (flow * list (string * string))
                plan added e w2) as (e' & w3 & E3).
    rewrite E3 in E. discriminate.
Qed.

(** C1, as the claim states it, fails: a reservation of one instance from a
    pool without machines inserts a row that is UNINITIALIZED, not IN_USE,
    and whose [allocated_action] is the id of the action, not null. *)
Lemma reservation_inserts_allocated_uninitialized :
  exists r w' m,
    _make_minion_machine_allocation_subflow_for_action
      full_pool "a1" ["vm1"] "destination-sub" startup_world = (Ok r, w') /\
    In m (db_machines w') /\
    mm_status m = MINION_MACHINE_STATUS_UNINITIALIZED /\
    mm_allocated_action m = Some "a1" /\
    ~ in_use_iff_allocated m.
Proof.
  do 3 eexists. split; [reflexivity|]. split; [now left|].
  split; [reflexivity|]. split; [reflexivity|].
  intros [_ H]. simpl in H. discriminate H. discriminate.
Qed.

(** C1 (amended): on a machine table whose ids are distinct and where every
    machine IN_USE has a non-null [allocated_action] and every machine with
    a non-null [allocated_action] is IN_USE or UNINITIALIZED, the per-pool
    reservation, the release of one machine, the release of the machines of
    an action, the cleanup of the machines of an action and the construction
    of the refresh flow leave a table with distinct ids where every row,
    created, mutated or left alone, has the same property, whether they
    return or raise.  The refresh flow is built from the pool as fetched
    again ([requery]) or, without [requery], from a pool whose machines are
    rows of the table, which is what [refresh_minion_pool] passes.  And a
    reservation that returns has marked pre-existing rows IN_USE with the id
    of the action and has inserted rows that are all UNINITIALIZED with the
    id of the action as their [allocated_action]. *)
Theorem allocation_consistency_kept (w : World) :
  store_consistent (db_machines w) ->
  (forall minion_pool action_id action_instances subflow_name,
     store_consistent
       (db_machines
          (snd (_make_minion_machine_allocation_subflow_for_action
                  minion_pool action_id action_instances subflow_name w))) /\
     (forall r w',
        _make_minion_machine_allocation_subflow_for_action
          minion_pool action_id action_instances subflow_name w = (Ok r, w') ->
        exists ids new_rows,
          db_machines w' =
            map (fun m => if str_in (mm_id m) ids
                          then with_allocation (Some action_id)
                                 MINION_MACHINE_STATUS_IN_USE (Some (utcnow w)) m
                          else m) (db_machines w) ++ new_rows /\
          Forall (reserved_row action_id) new_rows)) /\
  (forall minion_machine_id,
     store_consistent
       (db_machines (snd (deallocate_minion_machine minion_machine_id w)))) /\
  (forall action_id,
     store_consistent
       (db_machines (snd (deallocate_minion_machines_for_action action_id w)))) /\
  (forall action_id targeted_statuses exclude_pools,
     store_consistent
       (db_machines
          (snd (_cleanup_machines_with_statuses_for_action action_id
                  targeted_statuses exclude_pools w)))) /\
  (forall minion_pool requery,
     (requery = false -> incl (minion_machines minion_pool) (db_machines w)) ->
     store_consistent
       (db_machines
          (snd (_get_minion_pool_refresh_flow minion_pool requery w)))).
Proof.
  intro H. split; [|split; [|split; [|split]]].
  - intros minion_pool action_id action_instances subflow_name. split.
    + now apply reservation_preserves.
    + intros r w' E. now apply reservation_success_rows in E.
  - intro id. now apply deallocate_minion_machine_preserves.
  - intro action_id. now apply deallocate_minion_machines_for_action_preserves.
  - intros action_id targeted exclude. now apply cleanup_machines_preserves.
  - intros minion_pool requery Hsnap.
    apply refresh_flow_preserves; [exact Hsnap | exact H].
Qed.

Lemma reliable_reservation_world_consistent :
  store_consistent (db_machines reliable_reservation_world).
Proof.
  split; simpl.
  - constructor; [intros [] | constructor].
  - constructor; [|constructor]. split; simpl; intro H;
      [discriminate | contradiction].
Qed.

Lemma allocation_consistency_kept_witness :
  store_consistent (db_machines reliable_reservation_world) /\
  store_consistent
    (db_machines
       (snd (_make_minion_machine_allocation_subflow_for_action
               reservation_pool "a1" ["vm1"; "vm2"] "destination-sub"
               reliable_reservation_world))) /\
  store_consistent
    (db_machines (snd (deallocate_minion_machine "m1" reliable_reservation_world))) /\
  store_consistent
    (db_machines
       (snd (_get_minion_pool_refresh_flow reservation_pool false
               reliable_reservation_world))).
Proof.
  pose proof reliable_reservation_world_consistent as H.
  destruct (@allocation_consistency_kept reliable_reservation_world H)
    as (Hres & Hrel & _ & _ & Hrefresh).
  split; [exact H|]. split; [|split].
  - exact (proj1 (Hres reservation_pool "a1" ["vm1"; "vm2"] "destination-sub")).
  - exact (Hrel "m1").
  - apply (Hrefresh reservation_pool false). intros _ m Hm. exact Hm.
Defined.

Example reservation_upscale :
  db_machines
    (snd (_make_minion_machine_allocation_subflow_for_action
            reservation_pool "a1" ["vm1"; "vm2"] "destination-sub"
            reliable_reservation_world)) =
  [ mkMinionMachine "m1" "p1" MINION_MACHINE_STATUS_IN_USE (Some "a1") (Some 500);
    mkMinionMachine (example_uuid 0) "p1" MINION_MACHINE_STATUS_UNINITIALIZED
      (Some "a1") None ].
Proof. reflexivity. Qed.

(* ------------------------------------------------------------------ *)
(** ** Minion pool selection validation (C3) *)

Lemma check_transfer_pool_pure
    (minion_pools : list MinionPool) (pool_id endpoint_id platform : string)
    (instances : list string) (w : World) :
  exists r,
    check_transfer_pool minion_pools pool_id endpoint_id platform instances w
    = (r, w).
Proof.
  unfold check_transfer_pool, bind, _get_pool, _check_pool_minion_count.
  destruct (find _ _) as [pool|]; [|now eexists].
  unfold ret at 1.
  destruct (negb (String.eqb (mp_endpoint_id pool) endpoint_id)); [now eexists|].
  destruct (negb (String.eqb (mp_platform pool) platform)); [now eexists|].
  destruct (negb (String.eqb (mp_os_type pool) OS_TYPE_LINUX)); [now eexists|].
  destruct (negb (pool_status_eqb _ _)); [now eexists|].
  destruct (_ >? _); now eexists.
Qed.

Lemma check_transfer_pool_non_linux
    (minion_pools : list MinionPool) (pool_id endpoint_id platform : string)
    (instances : list string) (pool : MinionPool) (w : World) :
  find (fun pool => String.eqb (mp_id pool) pool_id) (rev minion_pools)
  = Some pool ->
  mp_os_type pool <> OS_TYPE_LINUX ->
  check_transfer_pool minion_pools pool_id endpoint_id platform instances w
  = (Raise InvalidMinionPoolSelection, w).
Proof.
  intros Hfind Hos. unfold check_transfer_pool, bind, _get_pool.
  rewrite Hfind. unfold ret at 1.
  destruct (negb (String.eqb (mp_endpoint_id pool) endpoint_id)); [reflexivity|].
  destruct (negb (String.eqb (mp_platform pool) platform)); [reflexivity|].
  apply String.eqb_neq in Hos. rewrite Hos. reflexivity.
Qed.

(** C3, as the claim states it, fails for OSMorphing pools: the pool "pw",
    mapped to the instance "vm1" of the action, is a Windows pool, and the
    validation returns without raising. *)
Lemma osmorphing_pool_os_type_unchecked :
  In "vm1" (instances osmorphing_action) /\
  instance_osmorphing_minion_pool_mappings osmorphing_action
  = Some [("vm1", mp_id windows_osmorphing_pool)] /\
  In windows_osmorphing_pool (db_pools osmorphing_world) /\
  mp_os_type windows_osmorphing_pool <> OS_TYPE_LINUX /\
  validate_minion_pool_selections_for_action osmorphing_action osmorphing_world
  = (Ok tt, osmorphing_world).
Proof.
  split; [now left|]. split; [reflexivity|]. split; [now left|].
  split; [discriminate | reflexivity].
Qed.

(** C3 (amended): the validation raises [InvalidMinionPoolSelection]
    whenever the selected origin pool is found and its [os_type] is not
    Linux; whenever the selected destination pool is found and its [os_type]
    is not Linux, the validation raises too, and what it raises is
    [InvalidMinionPoolSelection] unless the check of the origin pool, which
    comes first, has raised already.  The [os_type] of OSMorphing pools is
    not checked. *)
Theorem transfer_pools_must_be_linux (action : Action) (w : World) :
  (forall pool,
     selected_pool w (origin_minion_pool_id action) = Some pool ->
     mp_os_type pool <> OS_TYPE_LINUX ->
     validate_minion_pool_selections_for_action action w
     = (Raise InvalidMinionPoolSelection, w)) /\
  (forall pool,
     selected_pool w (destination_minion_pool_id action) = Some pool ->
     mp_os_type pool <> OS_TYPE_LINUX ->
     validate_minion_pool_selections_for_action action w
     = (Raise InvalidMinionPoolSelection, w) \/
     exists origin_pool_id e,
       truthy (origin_minion_pool_id action) = Some origin_pool_id /\
       check_transfer_pool (loaded_pools w) origin_pool_id
         (origin_endpoint_id action) PROVIDER_PLATFORM_SOURCE
         (instances action) w = (Raise e, w) /\
       validate_minion_pool_selections_for_action action w = (Raise e, w)).
Proof.
  split.
  - intros pool Hsel Hos. unfold selected_pool in Hsel.
    unfold validate_minion_pool_selections_for_action, bind,
      db_api.get_minion_pools.
    fold (loaded_pools w).
    destruct (truthy (origin_minion_pool_id action)) as [id|]; [|discriminate].
    now rewrite (check_transfer_pool_non_linux _ _ _ _ _ w Hsel Hos).
  - intros pool Hsel Hos. unfold selected_pool in Hsel.
    unfold validate_minion_pool_selections_for_action, bind,
      db_api.get_minion_pools.
    fold (loaded_pools w).
    destruct (truthy (destination_minion_pool_id action)) as [id|];
      [|discriminate].
    destruct (truthy (origin_minion_pool_id action)) as [oid|].
    + destruct (check_transfer_pool_pure (loaded_pools w) oid
                  (origin_endpoint_id action) PROVIDER_PLATFORM_SOURCE
                  (instances action) w) as (r & Er).
      rewrite Er. destruct r as [u|e].
      * left. now rewrite (check_transfer_pool_non_linux _ _ _ _ _ w Hsel Hos).
      * right. exists oid, e. now repeat split.
    + left. unfold ret at 1.
      now rewrite (check_transfer_pool_non_linux _ _ _ _ _ w Hsel Hos).
Qed.

Example windows_destination_pool_rejected :
  validate_minion_pool_selections_for_action windows_destination_action
    osmorphing_world
  = (Raise InvalidMinionPoolSelection, osmorphing_world).
Proof. reflexivity. Qed.

(* ------------------------------------------------------------------ *)
(** ** Pool deallocation (C4) *)

Lemma get_minion_pool_found
    (minion_pool_id : string) (include_machines : bool) (w w' : World)
    (minion_pool : MinionPool) :
  _get_minion_pool minion_pool_id include_machines w = (Ok minion_pool, w') ->
  w' = w /\
  exists row,
    find (fun p => String.eqb (mp_id p) minion_pool_id) (db_pools w) = Some row /\
    minion_pool = db_api.load_pool include_machines w row /\
    mp_id minion_pool = minion_pool_id.
Proof.
  unfold _get_minion_pool, bind, db_api.get_minion_pool.
  destruct (find _ (db_pools w)) as [row|] eqn:F; simpl; [|discriminate].
  intro E. injection E as <- <-. split; [reflexivity|]. exists row.
  repeat split. apply find_some in F. now apply String.eqb_eq.
Qed.

Lemma find_pool_map (id : string) (f : MinionPool -> MinionPool)
    (l : list MinionPool) :
  (forall p, mp_id (f p) = mp_id p) ->
  find (fun p => String.eqb (mp_id p) id) (map f l) =
  option_map f (find (fun p => String.eqb (mp_id p) id) l).
Proof.
  intro Hf. induction l as [|p l IH]; simpl; [reflexivity|].
  rewrite Hf. now destruct (String.eqb (mp_id p) id).
Qed.

Lemma check_pool_machines_in_use_run
    (minion_pool : MinionPool) (raise_if_in_use : bool) (w : World) :
  _check_pool_machines_in_use minion_pool raise_if_in_use false w =
  match used_machines minion_pool with
  | [] => (Ok [], w)
  | used => if raise_if_in_use then (Raise InvalidMinionPoolState, w)
            else (Ok used, w)
  end.
Proof.
  unfold _check_pool_machines_in_use, bind, ret. fold (used_machines minion_pool).
  destruct (used_machines minion_pool) as [|m l]; simpl; [reflexivity|].
  now destruct raise_if_in_use.
Qed.

Lemma check_pool_machines_in_use_ok
    (minion_pool : MinionPool) (force : bool) (w : World) :
  force = true \/ used_machines minion_pool = [] ->
  exists used,
    _check_pool_machines_in_use minion_pool (negb force) false w = (Ok used, w).
Proof.
  intro H. rewrite check_pool_machines_in_use_run.
  destruct H as [-> | ->]; [|now eexists].
  destruct (used_machines minion_pool); now eexists.
Qed.

(** C4, as the claim states it, fails: the status of the pool "p1" is
    DEALLOCATED, which is neither ALLOCATED nor ERROR, and without [force]
    the call returns the pool and raises nothing; no flow is launched. *)
Lemma deallocate_deallocated_pool_returns :
  mp_status deallocated_pool <> MINION_POOL_STATUS_ALLOCATED /\
  mp_status deallocated_pool <> MINION_POOL_STATUS_ERROR /\
  deallocate_minion_pool "p1" false deallocated_world
  = (Ok deallocated_pool, deallocated_world) /\
  flows_run (snd (deallocate_minion_pool "p1" false deallocated_world)) = [].
Proof. repeat split; discriminate. Qed.

(** C4 (amended): for a pool that exists, [deallocate_minion_pool]
    - returns the pool at once, with or without [force], when the pool is
      already DEALLOCATED;
    - raises [InvalidMinionPoolState] without [force] when the status is
      none of DEALLOCATED, ALLOCATED and ERROR;
    - raises [InvalidMinionPoolState] without [force] when a machine of the
      pool is in a status other than AVAILABLE, ERROR_DEPLOYING and ERROR;
    - and otherwise, when the endpoint of the pool is found and no
      collaborator fails, sets the pool to POOL_MAINTENANCE and hands the
      deallocation flow of the pool to the runner. *)
Theorem deallocate_minion_pool_cases
    (minion_pool_id : string) (force : bool) (w : World)
    (minion_pool : MinionPool) :
  _get_minion_pool minion_pool_id true w = (Ok minion_pool, w) ->
  (mp_status minion_pool = MINION_POOL_STATUS_DEALLOCATED ->
   deallocate_minion_pool minion_pool_id force w = (Ok minion_pool, w)) /\
  (mp_status minion_pool <> MINION_POOL_STATUS_DEALLOCATED ->
   mp_status minion_pool <> MINION_POOL_STATUS_ALLOCATED ->
   mp_status minion_pool <> MINION_POOL_STATUS_ERROR ->
   force = false ->
   deallocate_minion_pool minion_pool_id force w
   = (Raise InvalidMinionPoolState, w)) /\
  (mp_status minion_pool <> MINION_POOL_STATUS_DEALLOCATED ->
   used_machines minion_pool <> [] ->
   force = false ->
   deallocate_minion_pool minion_pool_id force w
   = (Raise InvalidMinionPoolState, w)) /\
  (mp_status minion_pool <> MINION_POOL_STATUS_DEALLOCATED ->
   force = true \/
   ((mp_status minion_pool = MINION_POOL_STATUS_ALLOCATED \/
     mp_status minion_pool = MINION_POOL_STATUS_ERROR) /\
    used_machines minion_pool = []) ->
   reliable w ->
   forall endpoint_dict,
     find (fun e => String.eqb (ep_id e) (mp_endpoint_id minion_pool))
       (conductor_endpoints w) = Some endpoint_dict ->
     exists w',
       deallocate_minion_pool minion_pool_id force w
       = (Ok (with_pool_status MINION_POOL_STATUS_POOL_MAINTENANCE minion_pool),
          w') /\
       flows_run w' =
         flows_run w ++
         [(_get_minion_pool_deallocation_flow minion_pool,
           _get_pool_deallocation_initial_store minion_pool endpoint_dict)] /\
       db_machines w' = db_machines w).
Proof.
  intro Hget. destruct (get_minion_pool_found _ _ _ Hget)
    as (_ & row & Hrow & Hload & Hid).
  split; [|split; [|split]];
    unfold deallocate_minion_pool; unfold bind at 1; rewrite Hget; cbv zeta.
  - intro Hs. rewrite Hs. simpl. rewrite Hid. exact Hget.
  - intros Hd Ha He ->.
    apply (proj2 (pool_status_eqb_neq _ _)) in Hd, Ha, He. rewrite Hd. simpl.
    rewrite Ha, He. reflexivity.
  - intros Hd Hused ->. apply (proj2 (pool_status_eqb_neq _ _)) in Hd.
    rewrite Hd.
    unfold bind at 1.
    destruct (negb (existsb _ acceptable_deallocation_statuses)); simpl;
      [reflexivity|].
    unfold bind at 1. rewrite check_pool_machines_in_use_run.
    destruct (used_machines minion_pool); [contradiction | reflexivity].
  - intros Hd Hok Hr endpoint_dict Hep.
    apply (proj2 (pool_status_eqb_neq _ _)) in Hd. rewrite Hd.
    unfold bind at 1.
    assert (E1 :
      (if negb (existsb (pool_status_eqb (mp_status minion_pool))
                  acceptable_deallocation_statuses)
       then if negb force then raise InvalidMinionPoolState else ret tt
       else ret tt) w = (Ok tt, w)).
    { destruct Hok as [-> | [[Hs|Hs] _]].
      - now destruct (negb (existsb _ _)).
      - rewrite Hs. reflexivity.
      - rewrite Hs. reflexivity. }
    rewrite E1. unfold bind at 1.
    destruct (@check_pool_machines_in_use_ok minion_pool force w) as (used & E2);
      [destruct Hok as [-> | [_ Hu]]; [now left | now right]|].
    rewrite E2.
    unfold bind at 1; unfold get_endpoint at 1; unfold bind at 1;
      rewrite (ext_reliable _ _ Hr); unfold bind at 1; unfold get_world at 1;
      rewrite Hep; unfold ret at 1; unfold bind at 1.
    unfold try_except, db_api.set_minion_pool_status, run_flow_in_background,
      bind, get_world, modify; rewrite (ext_reliable _ _ Hr).
    assert (Hex : existsb (fun p => String.eqb (mp_id p) minion_pool_id)
                         (db_pools w) = true)
      by (apply existsb_exists; exists row; split;
          [now apply find_some in Hrow | now apply find_some in Hrow]).
    rewrite Hex; simpl;
      match goal with
      | |- context [ext Call_run_flow_in_background RPCError ?w1] =>
          assert (Hr1 : reliable w1) by (intro c; apply Hr);
          rewrite (ext_reliable _ _ Hr1)
      end; simpl.
    unfold _get_minion_pool, bind, db_api.get_minion_pool; simpl;
      rewrite Hid;
      rewrite (find_pool_map minion_pool_id
                 (fun p => if String.eqb (mp_id p) minion_pool_id
                           then with_pool_status
                                  MINION_POOL_STATUS_POOL_MAINTENANCE p
                           else p));
      [|intro p; now destruct (String.eqb (mp_id p) minion_pool_id)];
      rewrite Hrow; simpl.
    assert (Hrid : String.eqb (mp_id row) minion_pool_id = true)
      by (now apply find_some in Hrow); rewrite Hrid.
    subst minion_pool; eexists; split; [reflexivity|]; split; reflexivity.
Qed.

Lemma deallocate_minion_pool_cases_witness :
  _get_minion_pool "p1" true allocated_world
  = (Ok (with_minion_machines [m1_available] allocated_pool_row),
     allocated_world) /\
  exists w',
    deallocate_minion_pool "p1" false allocated_world
    = (Ok (with_pool_status MINION_POOL_STATUS_POOL_MAINTENANCE
             (with_minion_machines [m1_available] allocated_pool_row)), w') /\
    flows_run w' =
      flows_run allocated_world ++
      [(_get_minion_pool_deallocation_flow
          (with_minion_machines [m1_available] allocated_pool_row),
        _get_pool_deallocation_initial_store
          (with_minion_machines [m1_available] allocated_pool_row)
          (mkEndpoint "e1" "{}" ["r1"] "openstack"))] /\
    db_machines w' = db_machines allocated_world.
Proof.
  split; [reflexivity|].
  destruct (@deallocate_minion_pool_cases "p1" false allocated_world
              (with_minion_machines [m1_available] allocated_pool_row) eq_refl)
    as (_ & _ & _ & H).
  apply H.
  - discriminate.
  - right. split; [now left | reflexivity].
  - intro c. reflexivity.
  - reflexivity.
Defined.

(* ------------------------------------------------------------------ *)
(** ** The refresh flow and machines never used (C10) *)

(** The budget left after a prefix of the machines is the initial budget
    less the machines of the prefix chosen for deallocation. *)
Lemma plan_refresh_app
    (minion_pool : MinionPool) (now : Z) (l1 l2 : list MinionMachine)
    (budget : Z) (plan : refresh_plan) :
  refresh_plan_of minion_pool now (l1 ++ l2) budget plan =
  refresh_plan_of minion_pool now l2
    (budget
     - Z.of_nat (length (machines_to_deallocate
                           (refresh_plan_of minion_pool now l1 budget plan)))
     + Z.of_nat (length (machines_to_deallocate plan)))
    (refresh_plan_of minion_pool now l1 budget plan).
Proof.
  revert budget plan. induction l1 as [|m l1 IH]; intros budget plan; simpl.
  - f_equal. lia.
  - destruct (negb (machine_status_eqb (mm_status m)
                      MINION_MACHINE_STATUS_AVAILABLE)).
    + rewrite IH. reflexivity.
    + destruct ((budget >? 0) && expired_at minion_pool now m).
      * rewrite IH. simpl. f_equal. rewrite length_app. simpl. lia.
      * rewrite IH. reflexivity.
Qed.

Lemma plan_refresh_grows
    (minion_pool : MinionPool) (now : Z) (l : list MinionMachine)
    (budget : Z) (plan : refresh_plan) :
  incl (machines_to_deallocate plan)
    (machines_to_deallocate (refresh_plan_of minion_pool now l budget plan)) /\
  incl (pool_refresh_flow plan)
    (pool_refresh_flow (refresh_plan_of minion_pool now l budget plan)) /\
  (forall id,
     In id (machines_to_healthcheck (refresh_plan_of minion_pool now l budget plan)) ->
     In id (machines_to_healthcheck plan) \/ In id (map mm_id l)) /\
  (forall id,
     In (healthcheck_flow minion_pool id)
       (pool_refresh_flow (refresh_plan_of minion_pool now l budget plan)) ->
     In (healthcheck_flow minion_pool id) (pool_refresh_flow plan) \/
     In id (map mm_id l)).
Proof.
  revert budget plan. induction l as [|m l IH]; intros budget plan; simpl.
  - repeat split; try apply incl_refl; intros id H; now left.
  - destruct (negb (machine_status_eqb (mm_status m)
                      MINION_MACHINE_STATUS_AVAILABLE)).
    + destruct (IH budget
                  (mkRefreshPlan (pool_refresh_flow plan)
                     (machines_to_deallocate plan) (machines_to_healthcheck plan)
                     (dict_set (mm_id m) (mm_status m) (skipped_machines plan))))
        as (H1 & H2 & H3 & H4).
      repeat split; try assumption; intros id H;
        [destruct (H3 id H) | destruct (H4 id H)]; tauto.
    + destruct ((budget >? 0) && expired_at minion_pool now m).
      * match goal with
        | |- context [refresh_plan_of _ _ _ ?b ?p] =>
            destruct (IH b p) as (H1 & H2 & H3 & H4)
        end.
        simpl in *. repeat split.
        -- intros x Hx. apply H1. apply in_app_iff. now left.
        -- intros x Hx. apply H2. apply in_app_iff. now left.
        -- intros id H. destruct (H3 id H); tauto.
        -- intros id H. destruct (H4 id H) as [Hin|Hin]; [|tauto].
           apply in_app_iff in Hin. destruct Hin as [Hin|[Hin|[]]]; [tauto|].
           discriminate Hin.
      * match goal with
        | |- context [refresh_plan_of _ _ _ ?b ?p] =>
            destruct (IH b p) as (H1 & H2 & H3 & H4)
        end.
        simpl in *. repeat split.
        -- exact H1.
        -- intros x Hx. apply H2. apply in_app_iff. now left.
        -- intros id H. destruct (H3 id H) as [Hin|Hin]; [|tauto].
           apply in_app_iff in Hin. destruct Hin as [Hin|[Hin|[]]]; tauto.
        -- intros id H. destruct (H4 id H) as [Hin|Hin]; [|tauto].
           apply in_app_iff in Hin. destruct Hin as [Hin|[Hin|[]]]; [tauto|].
           unfold healthcheck_flow, _get_healtchcheck_flow_for_minion_machine
             in Hin.
           injection Hin as Hin. tauto.
Qed.

(** A loop of [set_minion_machine_status] over machines that exist, in a
    world whose database does not fail. *)
Lemma for_each_set_status_run
    (ids : list string) (status : machine_status) (w : World) :
  reliable w ->
  (forall id, In id ids -> has_machine id (db_machines w) = true) ->
  for_each ids (fun machine => db_api.set_minion_machine_status machine status) w
  = (Ok tt,
     set_db_machines
       (map (fun m => if str_in (mm_id m) ids
                      then with_machine_status status m else m)
          (db_machines w)) w).
Proof.
  revert w. induction ids as [|id ids IH]; intros w Hr Hin; simpl.
  - unfold ret, set_db_machines. rewrite map_id. now destruct w.
  - unfold bind at 1. unfold db_api.set_minion_machine_status at 1.
    unfold bind, get_world, modify. rewrite (ext_reliable _ _ Hr).
    rewrite (Hin id (or_introl eq_refl)). rewrite IH.
    + unfold set_db_machines; simpl. f_equal. f_equal. rewrite map_map.
      apply map_ext. intro m.
      destruct (String.eqb (mm_id m) id) eqn:E; simpl; rewrite ?E; simpl;
        [now destruct (str_in (mm_id m) ids) | reflexivity].
    + intro c. apply Hr.
    + intros x Hx. simpl. rewrite has_machine_map.
      * apply Hin. now right.
      * intro m. now destruct (String.eqb (mm_id m) id).
Qed.

Lemma str_in_true (x : string) (l : list string) : In x l -> str_in x l = true.
Proof.
  intro H. unfold str_in. apply existsb_exists. exists x.
  split; [exact H | apply String.eqb_refl].
Qed.

Lemma str_in_false (x : string) (l : list string) : ~ In x l -> str_in x l = false.
Proof.
  intro H. unfold str_in. destruct (existsb (String.eqb x) l) eqn:E; [|reflexivity].
  apply existsb_exists in E. destruct E as (y & Hy & Exy).
  apply String.eqb_eq in Exy. now subst y.
Qed.

(** C10: in the refresh flow of a pool, an AVAILABLE machine whose
    [last_used_at] is null, reached while the budget
    [len(machines) - minimum_minions] less the machines chosen before it is
    still positive, gets a [DeallocateMinionMachineTask] and no healthcheck
    flow, and its row is set to DEALLOCATING before the flow is returned.
    The pool is the one the flow is built from: the argument, or with
    [requery] the pool as fetched again; its machine ids are distinct, their
    rows exist, and the database does not fail.  The flow is built: the
    expiry time of every AVAILABLE machine of the pool that was used is a
    [datetime], so that no expiry test raises [OverflowError]. *)
Theorem never_used_machine_is_deallocated
    (minion_pool : MinionPool) (requery : bool) (w : World)
    (before after : list MinionMachine) (machine : MinionMachine)
    (plan_before : refresh_plan) :
  (requery = true ->
   _get_minion_pool (mp_id minion_pool) true w = (Ok minion_pool, w)) ->
  minion_machines minion_pool = before ++ machine :: after ->
  mm_status machine = MINION_MACHINE_STATUS_AVAILABLE ->
  mm_last_used_at machine = None ->
  expiry_tests_return minion_pool (utcnow w) ->
  plan_refresh minion_pool (utcnow w) before
    (Z.of_nat (length (minion_machines minion_pool))
     - mp_minimum_minions minion_pool)
    (mkRefreshPlan [] [] [] []) = Ok plan_before ->
  0 < Z.of_nat (length (minion_machines minion_pool))
      - mp_minimum_minions minion_pool
      - Z.of_nat (length (machines_to_deallocate plan_before)) ->
  NoDup (map mm_id (minion_machines minion_pool)) ->
  (forall m, In m (minion_machines minion_pool) ->
             has_machine (mm_id m) (db_machines w) = true) ->
  reliable w ->
  exists name children w',
    _get_minion_pool_refresh_flow minion_pool requery w
    = (Ok (unordered_flow name children), w') /\
    In (deallocate_task minion_pool (mm_id machine)) children /\
    ~ In (healthcheck_flow minion_pool (mm_id machine)) children /\
    has_machine (mm_id machine) (db_machines w') = true /\
    (forall m, In m (db_machines w') -> mm_id m = mm_id machine ->
               mm_status m = MINION_MACHINE_STATUS_DEALLOCATING).
Proof.
  intros Hquery Hms Hav Hnull Hret Hbefore Hbudget Hnd Hex Hr.
  apply plan_refresh_sound in Hbefore. subst plan_before.
  unfold _get_minion_pool_refresh_flow. unfold bind at 1.
  replace ((if requery then _get_minion_pool (mp_id minion_pool) true
            else ret minion_pool) w) with (Ok minion_pool, w)
    by (destruct requery; [symmetry; now apply Hquery | reflexivity]).
  unfold bind at 1. unfold get_world at 1. cbv zeta.
  unfold bind at 1. unfold lift at 1.
  rewrite (@plan_refresh_complete minion_pool (utcnow w) _ _ _ Hret).
  cbv beta iota.
  set (budget := Z.of_nat (length (minion_machines minion_pool))
                 - mp_minimum_minions minion_pool) in *.
  set (empty := mkRefreshPlan [] [] [] []) in *.
  set (plan := refresh_plan_of minion_pool (utcnow w) (minion_machines minion_pool)
                 budget empty).
  set (plan_before := refresh_plan_of minion_pool (utcnow w) before budget empty)
    in *.
  (* the plan, split at the machine *)
  assert (Eplan :
    plan =
    refresh_plan_of minion_pool (utcnow w) after
      (budget - Z.of_nat (length (machines_to_deallocate plan_before)) - 1)
      (mkRefreshPlan
         (pool_refresh_flow plan_before ++
          [deallocate_task minion_pool (mm_id machine)])
         (machines_to_deallocate plan_before ++ [mm_id machine])
         (machines_to_healthcheck plan_before) (skipped_machines plan_before))).
  { unfold plan. rewrite Hms, plan_refresh_app. fold plan_before.
    cbn [refresh_plan_of]. rewrite Hav. cbn [machine_status_eqb negb].
    unfold expired_at, minion_expired. rewrite Hnull, andb_true_r.
    replace (_ >? 0) with true
      by (symmetry; rewrite Z.gtb_ltb; apply Z.ltb_lt; simpl; lia).
    f_equal. simpl. lia. }
  destruct (plan_refresh_grows minion_pool (utcnow w) after
              (budget - Z.of_nat (length (machines_to_deallocate plan_before)) - 1)
              (mkRefreshPlan
                 (pool_refresh_flow plan_before ++
                  [deallocate_task minion_pool (mm_id machine)])
                 (machines_to_deallocate plan_before ++ [mm_id machine])
                 (machines_to_healthcheck plan_before)
                 (skipped_machines plan_before)))
    as (Gd & Gf & Gh & Ghf).
  rewrite <- Eplan in Gd, Gf, Gh, Ghf. simpl in Gd, Gf, Gh, Ghf.
  destruct (plan_refresh_grows minion_pool (utcnow w) before budget empty)
    as (_ & _ & Bh & Bhf).
  fold plan_before in Bh, Bhf. simpl in Bh, Bhf.
  (* the id of the machine is the id of no other machine of the pool *)
  rewrite Hms, map_app in Hnd. simpl in Hnd.
  apply NoDup_remove_2 in Hnd.
  assert (Hnb : ~ In (mm_id machine) (map mm_id before))
    by (intro H; apply Hnd; apply in_app_iff; now left).
  assert (Hna : ~ In (mm_id machine) (map mm_id after))
    by (intro H; apply Hnd; apply in_app_iff; now right).
  assert (Hd : In (mm_id machine) (machines_to_deallocate plan))
    by (apply Gd; apply in_app_iff; right; now left).
  assert (Hh : ~ In (mm_id machine) (machines_to_healthcheck plan)).
  { intro H. destruct (Gh _ H) as [H1|H1]; [|tauto].
    destruct (Bh _ H1) as [[]|H2]. tauto. }
  (* every planned machine has a row *)
  assert (Hrows : forall id,
            In id (machines_to_deallocate plan ++ machines_to_healthcheck plan) ->
            has_machine id (db_machines w) = true).
  { unfold plan. apply plan_refresh_ids.
    - intros m Hm _. now apply Hex.
    - simpl. intros id []. }
  fold plan. unfold bind at 1. rewrite for_each_set_status_run;
    [|exact Hr | intros id Hid; apply Hrows; apply in_app_iff; now left].
  unfold bind at 1. rewrite for_each_set_status_run;
    [|intro c; apply Hr
     |intros id Hid; simpl; rewrite has_machine_map;
      [apply Hrows; apply in_app_iff; now right
      |intro m; now destruct (str_in (mm_id m) (machines_to_deallocate plan))]].
  unfold ret. do 3 eexists. split; [reflexivity|]. split; [|split; [|split]].
  - apply Gf. apply in_app_iff. right. now left.
  - intro H. destruct (Ghf _ H) as [H1|H1]; [|tauto].
    apply in_app_iff in H1. destruct H1 as [H1|[H1|[]]]; [|discriminate H1].
    destruct (Bhf _ H1) as [[]|H2]. tauto.
  - simpl. rewrite !has_machine_map.
    + apply Hex. rewrite Hms. apply in_app_iff. right. now left.
    + intro m. now destruct (str_in (mm_id m) (machines_to_deallocate plan)).
    + intro m. now destruct (str_in (mm_id m) (machines_to_healthcheck plan)).
  - simpl. intros m Hm Hid. rewrite map_map in Hm. apply in_map_iff in Hm.
    destruct Hm as (m0 & <- & _).
    assert (E0 : mm_id m0 = mm_id machine).
    { destruct (str_in (mm_id m0) (machines_to_deallocate plan)); simpl in Hid;
        destruct (str_in _ (machines_to_healthcheck plan)); exact Hid. }
    rewrite E0. rewrite (str_in_true _ _ Hd). simpl. rewrite E0.
    rewrite (str_in_false _ _ Hh). reflexivity.
Qed.

Lemma never_used_machine_is_deallocated_witness :
  exists name children w',
    _get_minion_pool_refresh_flow refresh_pool true refresh_world
    = (Ok (unordered_flow name children), w') /\
    In (deallocate_task refresh_pool "m2") children /\
    ~ In (healthcheck_flow refresh_pool "m2") children /\
    has_machine "m2" (db_machines w') = true /\
    (forall m, In m (db_machines w') -> mm_id m = "m2" ->
               mm_status m = MINION_MACHINE_STATUS_DEALLOCATING).
Proof.
  eapply (@never_used_machine_is_deallocated refresh_pool true refresh_world
            [recently_used] [busy] never_used).
  - intros _. reflexivity.
  - reflexivity.
  - reflexivity.
  - reflexivity.
  - intros m [<-|[<-|[<-|[]]]] _; eexists; reflexivity.
  - reflexivity.
  - vm_compute. reflexivity.
  - simpl. repeat constructor; simpl; intuition discriminate.
  - intros m [<-|[<-|[<-|[]]]]; reflexivity.
  - intro c. reflexivity.
Defined.

Example refresh_flow_of_refresh_pool :
  _get_minion_pool_refresh_flow refresh_pool false refresh_world =
  (Ok (unordered_flow (NameFormat MINION_POOL_REFRESH_FLOW_NAME_FORMAT ["p1"])
         [ healthcheck_flow refresh_pool "m1";
           deallocate_task refresh_pool "m2" ]),
   set_db_machines
     [ with_machine_status MINION_MACHINE_STATUS_HEALTHCHECKING recently_used;
       with_machine_status MINION_MACHINE_STATUS_DEALLOCATING never_used;
       busy ] refresh_world).
Proof. reflexivity. Qed.

(* ================================================================== *)
(** * Further properties of the code *)

(** ** Registration of the refresh jobs *)

Lemma register_refresh_jobs_run_any
    (minion_pool : MinionPool) (period_minutes : option Z) (w : World) :
  _register_refresh_jobs_for_minion_pool minion_pool period_minutes w =
  (Ok tt,
   set_cron_jobs
     (cron_jobs w ++
      map (refresh_job minion_pool)
        (refresh_minutes
           (refresh_period_minutes
              (conf_minion_pool_default_refresh_period_minutes w)
              period_minutes))) w).
Proof.
  unfold _register_refresh_jobs_for_minion_pool, bind, get_world.
  rewrite (for_each_map (refresh_job minion_pool) cron_register).
  apply for_each_cron_register.
Qed.

Lemma refresh_minutes_NoDup (P : Z) : 0 < P -> NoDup (refresh_minutes P).
Proof.
  intro HP. unfold refresh_minutes. apply NoDup_map_inj; [|apply seq_NoDup].
  intros x y H. nia.
Qed.

(** X1: whatever period is passed or configured, the jobs registered for a
    pool are enabled jobs of that pool, at pairwise distinct minutes that all
    lie in [0, 59], and one of them fires at minute 0. *)
Theorem refresh_jobs_within_the_hour
    (minion_pool : MinionPool) (period_minutes : option Z) (w : World) :
  exists jobs,
    _register_refresh_jobs_for_minion_pool minion_pool period_minutes w
    = (Ok tt, set_cron_jobs (cron_jobs w ++ jobs) w) /\
    NoDup (map job_minute jobs) /\
    (exists job, In job jobs /\ job_minute job = 0) /\
    (forall job, In job jobs ->
       0 <= job_minute job < 60 /\
       job_pool_id job = mp_id minion_pool /\
       job_enabled job = true).
Proof.
  set (P := refresh_period_minutes
              (conf_minion_pool_default_refresh_period_minutes w)
              period_minutes).
  assert (HP : 1 <= P <= 60) by apply refresh_period_in_range.
  exists (map (refresh_job minion_pool) (refresh_minutes P)).
  split; [apply register_refresh_jobs_run_any|]. split; [|split].
  - rewrite map_map. simpl. rewrite map_id. apply refresh_minutes_NoDup. lia.
  - exists (refresh_job minion_pool 0). split; [|reflexivity].
    apply in_map. apply in_refresh_minutes; [lia|].
    exists 0. split; [|lia]. split; [lia|].
    apply lt_math_ceil_div; lia.
  - intros job Hjob. apply in_map_iff in Hjob.
    destruct Hjob as (minute & <- & Hm).
    apply in_refresh_minutes in Hm; [|lia]. destruct Hm as (k & [Hk0 Hk] & ->).
    apply lt_math_ceil_div in Hk; [|lia]. simpl. repeat split; nia.
Qed.

(** ** Validation of the pool selections *)

Lemma check_pool_minion_count_pure
    (minion_pool : MinionPool) (instances : list string) (w : World) :
  snd (_check_pool_minion_count minion_pool instances w) = w.
Proof.
  unfold _check_pool_minion_count.
  destruct (negb (pool_status_eqb _ _)); [reflexivity|].
  now destruct (_ >? _).
Qed.

Lemma check_osmorphing_pool_pure
    (minion_pools : list MinionPool) (action : Action) (pool_id : string)
    (instances_to_osmorph : list string) (w : World) :
  snd (check_osmorphing_pool minion_pools action pool_id instances_to_osmorph w)
  = w.
Proof.
  unfold check_osmorphing_pool, bind, _get_pool.
  destruct (find _ _) as [pool|]; [|reflexivity]. unfold ret at 1.
  destruct (negb (String.eqb (mp_endpoint_id pool) _)); [reflexivity|].
  destruct (negb (String.eqb (mp_platform pool) _)); [reflexivity|].
  apply check_pool_minion_count_pure.
Qed.

Lemma for_each_pure {A} (l : list A) (body : A -> M unit) (w : World) :
  (forall x w', snd (body x w') = w') -> snd (for_each l body w) = w.
Proof.
  intro Hb. revert w. induction l as [|x l IH]; intro w; simpl; [reflexivity|].
  unfold bind. specialize (Hb x w).
  destruct (body x w) as [[u|e] w']; simpl in Hb; subst w'; [apply IH|reflexivity].
Qed.

(** X2: the validation of the pool selections has no side effect: whether it
    returns or raises, the world is left exactly as it was. *)
Theorem validation_has_no_side_effect (action : Action) (w : World) :
  snd (validate_minion_pool_selections_for_action action w) = w.
Proof.
  unfold validate_minion_pool_selections_for_action, bind,
    db_api.get_minion_pools.
  fold (loaded_pools w).
  assert (H1 : forall o endpoint platform,
            exists r,
              match truthy o with
              | Some pool_id =>
                  check_transfer_pool (loaded_pools w) pool_id endpoint platform
                    (instances action)
              | None => ret tt
              end w = (r, w)).
  { intros o endpoint platform. destruct (truthy o) as [id|]; [|now eexists].
    apply check_transfer_pool_pure. }
  destruct (H1 (origin_minion_pool_id action) (origin_endpoint_id action)
              PROVIDER_PLATFORM_SOURCE) as (r1 & ->).
  destruct r1 as [u1|e1]; [|reflexivity].
  destruct (H1 (destination_minion_pool_id action)
              (destination_endpoint_id action) PROVIDER_PLATFORM_DESTINATION)
    as (r2 & ->).
  destruct r2 as [u2|e2]; [|reflexivity].
  destruct (instance_osmorphing_minion_pool_mappings action) as [[|item items]|];
    try reflexivity.
  apply for_each_pure. intros entry w'. apply check_osmorphing_pool_pure.
Qed.

Lemma check_pool_minion_count_ok
    (minion_pool : MinionPool) (instances : list string) (w w' : World) :
  _check_pool_minion_count minion_pool instances w = (Ok tt, w') ->
  mp_status minion_pool = MINION_POOL_STATUS_ALLOCATED /\
  Z.of_nat (length instances) <= mp_maximum_minions minion_pool.
Proof.
  unfold _check_pool_minion_count.
  destruct (pool_status_eqb _ _) eqn:Es; simpl; [|discriminate].
  destruct (_ >? _) eqn:Ec; [discriminate|]. intros _.
  apply pool_status_eqb_eq in Es. rewrite Z.gtb_ltb in Ec.
  apply Z.ltb_ge in Ec. now split.
Qed.

Lemma check_transfer_pool_ok
    (w0 : World) (pool_id endpoint_id platform : string)
    (instances : list string) (w w' : World) :
  check_transfer_pool (loaded_pools w0) pool_id endpoint_id platform instances w
  = (Ok tt, w') ->
  exists pool,
    pool_fits w0 pool_id endpoint_id platform (length instances) pool /\
    mp_os_type pool = OS_TYPE_LINUX.
Proof.
  unfold check_transfer_pool, bind, _get_pool, pool_fits.
  destruct (find _ _) as [pool|]; [|discriminate]. unfold ret at 1.
  destruct (String.eqb (mp_endpoint_id pool) endpoint_id) eqn:E1;
    [|discriminate].
  destruct (String.eqb (mp_platform pool) platform) eqn:E2; [|discriminate].
  destruct (String.eqb (mp_os_type pool) OS_TYPE_LINUX) eqn:E3; [|discriminate].
  simpl. intro H. apply check_pool_minion_count_ok in H. destruct H as [Hs Hc].
  apply String.eqb_eq in E1, E2, E3. exists pool. now repeat split.
Qed.

Lemma check_osmorphing_pool_ok
    (w0 : World) (action : Action) (pool_id : string)
    (instances_to_osmorph : list string) (w w' : World) :
  check_osmorphing_pool (loaded_pools w0) action pool_id instances_to_osmorph w
  = (Ok tt, w') ->
  exists pool,
    pool_fits w0 pool_id (destination_endpoint_id action)
      PROVIDER_PLATFORM_DESTINATION (length instances_to_osmorph) pool.
Proof.
  unfold check_osmorphing_pool, bind, _get_pool, pool_fits.
  destruct (find _ _) as [pool|]; [|discriminate]. unfold ret at 1.
  destruct (String.eqb (mp_endpoint_id pool) _) eqn:E1; [|discriminate].
  destruct (String.eqb (mp_platform pool) _) eqn:E2; [|discriminate].
  simpl. intro H. apply check_pool_minion_count_ok in H. destruct H as [Hs Hc].
  apply String.eqb_eq in E1, E2. exists pool. now repeat split.
Qed.

Lemma dict_get_append {V} (k k' : string) (v : V) (d : list (string * list V)) :
  dict_get k (dict_append k' v d) =
  if String.eqb k' k
  then Some (match dict_get k d with Some l => l ++ [v] | None => [v] end)
  else dict_get k d.
Proof.
  unfold dict_get. induction d as [|[k0 vs] d IH]; simpl.
  - now destruct (String.eqb k' k).
  - destruct (String.eqb k0 k') eqn:E0; simpl.
    + apply String.eqb_eq in E0. subst k0.
      now destruct (String.eqb k' k).
    + destruct (String.eqb k0 k) eqn:E1; simpl.
      * apply String.eqb_eq in E1. subst k0.
        rewrite String.eqb_sym in E0. now rewrite E0.
      * exact IH.
Qed.

Lemma group_osmorphing_pool_mappings_get
    (pool_id : string) (items : list (string * string)) (instances : list string)
    (acc : list (string * list string)) :
  dict_get pool_id (group_osmorphing_pool_mappings items instances acc) =
  match dict_get pool_id acc, osmorphed_by pool_id items instances with
  | None, [] => None
  | None, l => Some l
  | Some l0, l => Some (l0 ++ l)
  end.
Proof.
  revert acc. induction items as [|[i p] items IH]; intro acc; simpl.
  - unfold osmorphed_by. simpl. destruct (dict_get pool_id acc); [|reflexivity].
    now rewrite app_nil_r.
  - unfold osmorphed_by. simpl. destruct (str_in i instances); simpl.
    + rewrite IH, dict_get_append. fold (osmorphed_by pool_id items instances).
      destruct (String.eqb p pool_id); simpl.
      * destruct (dict_get pool_id acc); [now rewrite <- app_assoc|].
        reflexivity.
      * reflexivity.
    + apply IH.
Qed.

Lemma dict_get_in {V} (k : string) (d : list (string * V)) (v : V) :
  dict_get k d = Some v -> In (k, v) d.
Proof.
  unfold dict_get. destruct (find _ d) as [[k0 v0]|] eqn:F; [|discriminate].
  simpl. intro E. injection E as <-. apply find_some in F. destruct F as [Hin Hk].
  simpl in Hk. apply String.eqb_eq in Hk. now subst k0.
Qed.

Lemma for_each_ok_in {A} (l : list A) (body : A -> M unit) (w : World) (x : A) :
  (forall y w', snd (body y w') = w') ->
  for_each l body w = (Ok tt, w) -> In x l -> body x w = (Ok tt, w).
Proof.
  intros Hp. induction l as [|y l IH]; simpl; [contradiction|].
  unfold bind. pose proof (Hp y w) as Hy.
  destruct (body y w) as [[[]|e] w'] eqn:E; simpl in Hy; subst w';
    [|discriminate].
  intros Hl [<-|Hin]; [exact E | now apply IH].
Qed.

(** X3: a validation that returns has found every selected pool in the
    store, of the right endpoint and platform, ALLOCATED, and with
    [maximum_minions] at least the number of instances it is to serve: the
    origin pool and the destination pool, which are Linux pools, for all the
    instances of the action, and every pool an instance of the action is
    mapped to for OSMorphing, for the instances mapped to it. *)
Theorem validation_accepts_only_fitting_pools (action : Action) (w : World) :
  validate_minion_pool_selections_for_action action w = (Ok tt, w) ->
  (forall pool_id,
     truthy (origin_minion_pool_id action) = Some pool_id ->
     exists pool,
       pool_fits w pool_id (origin_endpoint_id action) PROVIDER_PLATFORM_SOURCE
         (length (instances action)) pool /\
       mp_os_type pool = OS_TYPE_LINUX) /\
  (forall pool_id,
     truthy (destination_minion_pool_id action) = Some pool_id ->
     exists pool,
       pool_fits w pool_id (destination_endpoint_id action)
         PROVIDER_PLATFORM_DESTINATION (length (instances action)) pool /\
       mp_os_type pool = OS_TYPE_LINUX) /\
  (forall items instance pool_id,
     instance_osmorphing_minion_pool_mappings action = Some items ->
     In (instance, pool_id) items ->
     In instance (instances action) ->
     exists pool,
       pool_fits w pool_id (destination_endpoint_id action)
         PROVIDER_PLATFORM_DESTINATION
         (length (osmorphed_by pool_id items (instances action))) pool).
Proof.
  unfold validate_minion_pool_selections_for_action, bind,
    db_api.get_minion_pools.
  fold (loaded_pools w). intro H.
  (* the origin pool *)
  assert (H1 : exists r,
            match truthy (origin_minion_pool_id action) with
            | Some pool_id =>
                check_transfer_pool (loaded_pools w) pool_id
                  (origin_endpoint_id action) PROVIDER_PLATFORM_SOURCE
                  (instances action)
            | None => ret tt
            end w = (r, w)).
  { destruct (truthy _) as [id|]; [apply check_transfer_pool_pure|now eexists]. }
  destruct H1 as (r1 & E1). rewrite E1 in H. destruct r1 as [[]|e1];
    [|discriminate].
  (* the destination pool *)
  assert (H2 : exists r,
            match truthy (destination_minion_pool_id action) with
            | Some pool_id =>
                check_transfer_pool (loaded_pools w) pool_id
                  (destination_endpoint_id action) PROVIDER_PLATFORM_DESTINATION
                  (instances action)
            | None => ret tt
            end w = (r, w)).
  { destruct (truthy _) as [id|]; [apply check_transfer_pool_pure|now eexists]. }
  destruct H2 as (r2 & E2). rewrite E2 in H. destruct r2 as [[]|e2];
    [|discriminate].
  split; [|split].
  - intros pool_id Ht. rewrite Ht in E1. now apply check_transfer_pool_ok in E1.
  - intros pool_id Ht. rewrite Ht in E2. now apply check_transfer_pool_ok in E2.
  - intros items instance pool_id Hitems Hin Hinst. rewrite Hitems in H.
    destruct items as [|item items']; [contradiction|].
    set (items := item :: items') in *.
    assert (Hne : osmorphed_by pool_id items (instances action) <> []).
    { unfold osmorphed_by. intro E. apply map_eq_nil in E.
      assert (Hf : In (instance, pool_id)
                     (filter (fun it => str_in (fst it) (instances action)
                                        && String.eqb (snd it) pool_id) items)).
      { apply filter_In. split; [exact Hin|]. simpl.
        rewrite (str_in_true _ _ Hinst), String.eqb_refl. reflexivity. }
      rewrite E in Hf. contradiction. }
    pose proof (group_osmorphing_pool_mappings_get pool_id items
                  (instances action) []) as G.
    change (dict_get pool_id (@nil (string * list string))) with (@None (list string))
      in G.
    destruct (osmorphed_by pool_id items (instances action)) as [|i l] eqn:Eo;
      [contradiction|].
    apply dict_get_in in G.
    apply (for_each_ok_in _ _ (pool_id, i :: l)) in H; [|
      intros entry w'; apply check_osmorphing_pool_pure | exact G].
    simpl in H. now apply check_osmorphing_pool_ok in H.
Qed.

Lemma validation_accepts_only_fitting_pools_witness :
  validate_minion_pool_selections_for_action scenario_action scenario_world
  = (Ok tt, scenario_world) /\
  exists pool,
    pool_fits scenario_world "p1" "e1" PROVIDER_PLATFORM_DESTINATION 2 pool /\
    mp_os_type pool = OS_TYPE_LINUX.
Proof.
  split; [reflexivity|].
  destruct (@validation_accepts_only_fitting_pools scenario_action scenario_world
              eq_refl) as (_ & H & _).
  exact (H "p1" eq_refl).
Defined.

Lemma group_osmorphing_pool_mappings_filter
    (items : list (string * string)) (instances : list string)
    (acc : list (string * list string)) :
  group_osmorphing_pool_mappings
    (filter (fun item => str_in (fst item) instances) items) instances acc =
  group_osmorphing_pool_mappings items instances acc.
Proof.
  revert acc. induction items as [|[i p] items IH]; intro acc; simpl;
    [reflexivity|].
  destruct (str_in i instances) eqn:E; simpl; rewrite ?E; simpl; apply IH.
Qed.

(** X4: the OSMorphing mappings of instances that are not instances of the
    action are ignored: the validation does on the action what it does on
    the action without those mappings. *)
Theorem validation_ignores_foreign_mappings (action : Action) (w : World) :
  validate_minion_pool_selections_for_action action w =
  validate_minion_pool_selections_for_action (without_foreign_mappings action) w.
Proof.
  unfold validate_minion_pool_selections_for_action, bind,
    db_api.get_minion_pools.
  cbn [without_foreign_mappings origin_minion_pool_id destination_minion_pool_id
       origin_endpoint_id destination_endpoint_id instances
       instance_osmorphing_minion_pool_mappings].
  match goal with
  | |- (let (_, _) := ?t in _) = _ => destruct t as [[u1|e1] w1]
  end; [|reflexivity].
  match goal with
  | |- (let (_, _) := ?t in _) = _ => destruct t as [[u2|e2] w2]
  end; [|reflexivity].
  destruct (instance_osmorphing_minion_pool_mappings action) as [items|];
    [|reflexivity].
  cbn [option_map].
  pose proof (group_osmorphing_pool_mappings_filter items (instances action) [])
    as G.
  destruct items as [|item items']; [reflexivity|].
  destruct (filter _ (item :: items')) as [|f fs] eqn:Ef.
  - rewrite <- G. reflexivity.
  - rewrite <- G. reflexivity.
Qed.

(** X5: a selected origin pool that is not in the store makes the validation
    raise [NotFound]; so does a destination pool that is not in the store
    when no origin pool is selected. *)
Theorem validation_of_missing_pool (action : Action) (w : World) :
  (forall pool_id,
     truthy (origin_minion_pool_id action) = Some pool_id ->
     find (fun p => String.eqb (mp_id p) pool_id) (rev (loaded_pools w)) = None ->
     validate_minion_pool_selections_for_action action w = (Raise NotFound, w)) /\
  (forall pool_id,
     truthy (origin_minion_pool_id action) = None ->
     truthy (destination_minion_pool_id action) = Some pool_id ->
     find (fun p => String.eqb (mp_id p) pool_id) (rev (loaded_pools w)) = None ->
     validate_minion_pool_selections_for_action action w = (Raise NotFound, w)).
Proof.
  split.
  - intros pool_id Ht Hf.
    unfold validate_minion_pool_selections_for_action, bind,
      db_api.get_minion_pools.
    fold (loaded_pools w). rewrite Ht.
    unfold check_transfer_pool, bind, _get_pool. now rewrite Hf.
  - intros pool_id Ho Ht Hf.
    unfold validate_minion_pool_selections_for_action, bind,
      db_api.get_minion_pools.
    fold (loaded_pools w). rewrite Ho, Ht. unfold ret at 1.
    unfold check_transfer_pool, bind, _get_pool. now rewrite Hf.
Qed.

Lemma validation_of_missing_pool_witness :
  validate_minion_pool_selections_for_action missing_pool_action scenario_world
  = (Raise NotFound, scenario_world).
Proof.
  apply (proj1 (validation_of_missing_pool missing_pool_action scenario_world)
           "p9"); reflexivity.
Defined.

(** ** The per-pool reservation *)

Lemma dict_set_new {V} (k : string) (v : V) (d : list (string * V)) :
  dict_has k d = false -> dict_set k v d = d ++ [(k, v)].
Proof.
  unfold dict_has. induction d as [|[k' v'] d IH]; simpl; [reflexivity|].
  intro H. apply orb_false_iff in H. destruct H as [H1 H2].
  rewrite H1. now rewrite IH.
Qed.

Lemma dict_has_false {V} (k : string) (d : list (string * V)) :
  ~ In k (dict_keys d) -> dict_has k d = false.
Proof.
  intro H. unfold dict_has.
  destruct (existsb (fun kv => String.eqb (fst kv) k) d) eqn:E; [|reflexivity].
  apply existsb_exists in E. destruct E as (kv & Hin & Hk).
  apply String.eqb_eq in Hk. exfalso. apply H. unfold dict_keys.
  rewrite <- Hk. now apply in_map.
Qed.

Lemma dict_has_true_in {V} (k : string) (d : list (string * V)) :
  dict_has k d = true -> In k (dict_keys d).
Proof.
  unfold dict_has. intro E. apply existsb_exists in E.
  destruct E as (kv & Hin & Hk). apply String.eqb_eq in Hk.
  unfold dict_keys. rewrite <- Hk. now apply in_map.
Qed.

Lemma find_hd_filter {A} (p : A -> bool) (l : list A) :
  find p l = hd_error (filter p l).
Proof.
  induction l as [|x l IH]; simpl; [reflexivity|]. now destruct (p x).
Qed.

Lemma filter_andb {A} (f g : A -> bool) (l : list A) :
  filter (fun x => f x && g x) l = filter f (filter g l).
Proof.
  induction l as [|x l IH]; simpl; [reflexivity|].
  destruct (g x); simpl; [destruct (f x); simpl; now rewrite IH|].
  rewrite andb_false_r. exact IH.
Qed.

Lemma filter_all {A} (p : A -> bool) (l : list A) :
  (forall x, In x l -> p x = true) -> filter p l = l.
Proof.
  induction l as [|x l IH]; simpl; intro H; [reflexivity|].
  rewrite (H x (or_introl eq_refl)). f_equal. apply IH. intros y Hy.
  apply H. now right.
Qed.

Lemma filter_none {A} (p : A -> bool) (l : list A) :
  (forall x, In x l -> p x = false) -> filter p l = [].
Proof.
  induction l as [|x l IH]; simpl; intro H; [reflexivity|].
  rewrite (H x (or_introl eq_refl)). apply IH. intros y Hy. apply H. now right.
Qed.

Lemma filter_excluding_prefix (used rest : list MinionMachine) :
  NoDup (map mm_id (used ++ rest)) ->
  filter (fun m => negb (str_in (mm_id m) (map mm_id used))) (used ++ rest)
  = rest.
Proof.
  intro Hnd. rewrite filter_app.
  rewrite filter_none, filter_all; [reflexivity| |].
  - intros m Hm. apply negb_true_iff. apply str_in_false. intro Hin.
    rewrite map_app in Hnd. apply in_map_iff in Hin.
    destruct Hin as (m' & Hid & Hm').
    assert (Hx : In (mm_id m) (map mm_id used))
      by (rewrite <- Hid; now apply in_map).
    assert (Hy : In (mm_id m) (map mm_id rest)) by now apply in_map.
    clear - Hnd Hx Hy. induction (map mm_id used) as [|a l IH];
      [contradiction|].
    simpl in Hnd. inversion Hnd as [|b l' Ha Hl]; subst.
    destruct Hx as [->|Hx]; [|now apply IH].
    apply Ha. apply in_app_iff. now right.
  - intros m Hm. apply negb_false_iff. apply str_in_true. now apply in_map.
Qed.

Lemma distinct_ids_filter (keep : MinionMachine -> bool)
    (machines : list MinionMachine) :
  NoDup (map mm_id machines) -> NoDup (map mm_id (filter keep machines)).
Proof.
  intro Hnd. induction machines as [|m rest IH]; simpl; [constructor|].
  simpl in Hnd. apply NoDup_cons_iff in Hnd. destruct Hnd as (Hm & Hrest).
  destruct (keep m); simpl; [|now apply IH].
  constructor; [|now apply IH].
  intro Hin. apply Hm. apply in_map_iff in Hin. destruct Hin as (y & Hy & Hin).
  apply filter_In in Hin. apply in_map_iff. exists y. now split.
Qed.

Lemma select_machine_next
    (minion_pool : MinionPool) (used rest : list MinionMachine) :
  available_machines minion_pool = used ++ rest ->
  NoDup (map mm_id (available_machines minion_pool)) ->
  _select_machine minion_pool (map mm_id used) = hd_error rest.
Proof.
  intros Ha Hnd. unfold _select_machine. rewrite find_hd_filter, filter_andb.
  fold (available_machines minion_pool). rewrite Ha in *.
  now rewrite filter_excluding_prefix.
Qed.

Lemma advance_uuid_zero (w : World) : advance_uuid 0 w = w.
Proof. now destruct w. Qed.

Lemma select_machine_none_more
    (minion_pool : MinionPool) (exclude more : list string) :
  _select_machine minion_pool exclude = None ->
  _select_machine minion_pool (exclude ++ more) = None.
Proof.
  unfold _select_machine. intro H.
  destruct (find (fun machine => negb (str_in (mm_id machine) (exclude ++ more))
                                 && is_available machine)
              (minion_machines minion_pool)) as [m|] eqn:F; [|reflexivity].
  apply find_some in F. destruct F as [Hin Hp].
  apply andb_true_iff in Hp. destruct Hp as [Hx Ha].
  pose proof (find_none _ _ H m Hin) as Hn. simpl in Hn. rewrite Ha in Hn.
  rewrite andb_true_r in Hn. apply negb_false_iff in Hn.
  apply negb_true_iff in Hx. unfold str_in in *. rewrite existsb_app in Hx.
  rewrite Hn in Hx. discriminate.
Qed.

Lemma plan_allocations_fresh
    (minion_pool : MinionPool) (action_id : string)
    (action_instances : list string) (plan : allocation_plan) (w : World) :
  NoDup action_instances ->
  (forall i, In i action_instances ->
             dict_has i (instance_minion_allocations plan) = false) ->
  _select_machine minion_pool (dict_values (instance_minion_allocations plan))
  = None ->
  plan_allocations minion_pool action_id action_instances plan w =
  (Ok (mkAllocationPlan
         (allocation_subflow plan ++
          map (new_machine_task minion_pool action_id)
            (fresh_ids w (length action_instances)))
         (instance_minion_allocations plan ++
          combine action_instances (fresh_ids w (length action_instances)))
         (machine_db_entries_to_add plan ++
          map (new_machine_row minion_pool action_id)
            (fresh_ids w (length action_instances)))
         (existing_machines_to_allocate plan)),
   advance_uuid (length action_instances) w).
Proof.
  revert plan w.
  induction action_instances as [|i l IH]; intros plan w Hnd Hnew Hsel.
  - simpl. unfold ret, fresh_ids. simpl. rewrite !app_nil_r, advance_uuid_zero.
    now destruct plan.
  - inversion Hnd as [|x l' Hi Hl]; subst.
    cbn [plan_allocations]. rewrite (Hnew i (or_introl eq_refl)), Hsel.
    unfold bind, uuid4. rewrite dict_set_new by (apply Hnew; now left).
    rewrite IH.
    + unfold fresh_ids, advance_uuid. simpl.
      rewrite <- !app_assoc, Nat.add_succ_r. reflexivity.
    + exact Hl.
    + simpl. intros j Hj. unfold dict_has. rewrite existsb_app. simpl.
      fold (dict_has j (instance_minion_allocations plan)).
      rewrite (Hnew j (or_intror Hj)). simpl. rewrite orb_false_r.
      apply String.eqb_neq. intros ->. contradiction.
    + simpl. unfold dict_values. rewrite map_app.
      now apply select_machine_none_more.
Qed.

(** The plan of the reservation: the instances take the AVAILABLE machines
    the pool has left, in the order of the pool, and then fresh uuids. *)
Lemma plan_allocations_run
    (minion_pool : MinionPool) (action_id : string)
    (action_instances : list string) (used rest : list MinionMachine)
    (plan : allocation_plan) (w : World) :
  available_machines minion_pool = used ++ rest ->
  NoDup (map mm_id (available_machines minion_pool)) ->
  NoDup action_instances ->
  (forall i, In i action_instances ->
             dict_has i (instance_minion_allocations plan) = false) ->
  dict_values (instance_minion_allocations plan) = map mm_id used ->
  dict_keys (existing_machines_to_allocate plan) = map mm_id used ->
  plan_allocations minion_pool action_id action_instances plan w =
  (Ok (mkAllocationPlan
         (allocation_subflow plan ++
          map (picked_machine_flow minion_pool action_id)
            (map mm_id (firstn (length action_instances) rest)) ++
          map (new_machine_task minion_pool action_id)
            (fresh_ids w (length action_instances - length rest)))
         (instance_minion_allocations plan ++
          combine action_instances
            (map mm_id (firstn (length action_instances) rest) ++
             fresh_ids w (length action_instances - length rest)))
         (machine_db_entries_to_add plan ++
          map (new_machine_row minion_pool action_id)
            (fresh_ids w (length action_instances - length rest)))
         (existing_machines_to_allocate plan ++
          combine (map mm_id (firstn (length action_instances) rest))
            action_instances)),
   advance_uuid (length action_instances - length rest) w).
Proof.
  revert used rest plan w.
  induction action_instances as [|i l IH];
    intros used rest plan w Ha Hnd Hi Hnew Hv Hk.
  - simpl. unfold ret, fresh_ids. simpl. rewrite !app_nil_r, advance_uuid_zero.
    now destruct plan.
  - destruct rest as [|m rest].
    + (* no AVAILABLE machine is left: fresh uuids from here on *)
      rewrite plan_allocations_fresh; [| exact Hi | exact Hnew |].
      * simpl. rewrite ?app_nil_r. reflexivity.
      * rewrite Hv. now rewrite (select_machine_next _ _ _ Ha Hnd).
    + (* the next AVAILABLE machine is picked *)
      inversion Hi as [|x l' Hil Hl]; subst.
      cbn [plan_allocations]. rewrite (Hnew i (or_introl eq_refl)), Hv.
      rewrite (select_machine_next _ _ _ Ha Hnd). cbn [hd_error].
      assert (Hm : ~ In (mm_id m) (map mm_id used)).
      { rewrite Ha, map_app in Hnd. simpl in Hnd.
        apply NoDup_remove_2 in Hnd. intro H. apply Hnd.
        apply in_app_iff. now left. }
      rewrite dict_set_new by (apply Hnew; now left).
      rewrite dict_set_new by (apply dict_has_false; now rewrite Hk).
      rewrite (IH (used ++ [m]) rest).
      * simpl. rewrite <- !app_assoc. reflexivity.
      * now rewrite <- app_assoc.
      * exact Hnd.
      * exact Hl.
      * simpl. intros j Hj. unfold dict_has. rewrite existsb_app. simpl.
        fold (dict_has j (instance_minion_allocations plan)).
        rewrite (Hnew j (or_intror Hj)). simpl. rewrite orb_false_r.
        apply String.eqb_neq. intros ->. contradiction.
      * simpl. unfold dict_values in *. now rewrite !map_app, Hv.
      * simpl. unfold dict_keys in *. now rewrite !map_app, Hk.
Qed.

Lemma set_allocation_statuses_run
    (ids : list string) (action : option string) (status : machine_status)
    (refresh : bool) (w : World) :
  reliable w ->
  (forall id, In id ids -> has_machine id (db_machines w) = true) ->
  db_api.set_minion_machines_allocation_statuses ids action status refresh w =
  (Ok tt,
   set_db_machines
     (map (fun m => if str_in (mm_id m) ids
                    then with_allocation action status
                           (if refresh then Some (utcnow w)
                            else mm_last_used_at m) m
                    else m) (db_machines w)) w).
Proof.
  intros Hr Hids.
  unfold db_api.set_minion_machines_allocation_statuses, bind, get_world, modify.
  rewrite (ext_reliable _ _ Hr).
  replace (forallb _ ids) with true; [reflexivity|].
  symmetry. apply forallb_forall. exact Hids.
Qed.

Lemma has_machine_app (id : string) (l1 l2 : list MinionMachine) :
  has_machine id (l1 ++ l2) = has_machine id l1 || has_machine id l2.
Proof. unfold has_machine. apply existsb_app. Qed.

Lemma add_new_machine_entries_run
    (entries : list MinionMachine) (added : list string) (w : World) :
  reliable w ->
  NoDup (map mm_id entries) ->
  (forall m, In m entries -> has_machine (mm_id m) (db_machines w) = false) ->
  add_new_machine_entries entries added w =
  (Ok tt, added ++ map mm_id entries,
   set_db_machines (db_machines w ++ entries) w).
Proof.
  revert added w. induction entries as [|m entries IH]; intros added w Hr Hnd Hnew.
  - simpl. rewrite !app_nil_r. unfold set_db_machines. now destruct w.
  - simpl. unfold db_api.add_minion_machine, bind, get_world, modify.
    rewrite (ext_reliable _ _ Hr), (Hnew m (or_introl eq_refl)).
    simpl in Hnd. inversion Hnd as [|x l Hm Hl]; subst.
    rewrite IH.
    + unfold set_db_machines. simpl. now rewrite <- !app_assoc.
    + intro c. apply Hr.
    + exact Hl.
    + intros m' Hm'. simpl. rewrite has_machine_app.
      rewrite (Hnew m' (or_intror Hm')). simpl. rewrite orb_false_r.
      apply String.eqb_neq. intro E. apply Hm. rewrite E. now apply in_map.
Qed.

Lemma in_firstn {A} (n : nat) (l : list A) (x : A) :
  In x (firstn n l) -> In x l.
Proof.
  intro H. rewrite <- (firstn_skipn n l). apply in_app_iff. now left.
Qed.

Lemma keys_of_combine (l1 l2 : list string) :
  (length l1 <= length l2)%nat -> dict_keys (combine l1 l2) = l1.
Proof.
  unfold dict_keys. revert l2. induction l1 as [|x l1 IH]; intros [|y l2] H;
    simpl in *; try reflexivity; try lia.
  f_equal. apply IH. lia.
Qed.

(** The run of a reservation that has room. *)
Lemma reservation_run
    (minion_pool : MinionPool) (action_id : string)
    (action_instances : list string) (subflow_name : string) (w : World) :
  let picked :=
    map mm_id (firstn (length action_instances)
                 (available_machines minion_pool)) in
  let fresh :=
    fresh_ids w (length action_instances
                 - length (available_machines minion_pool)) in
  Z.of_nat (length action_instances) <=
    Z.of_nat (length (available_machines minion_pool))
    + (mp_maximum_minions minion_pool
       - Z.of_nat (length (minion_machines minion_pool))) ->
  NoDup action_instances ->
  NoDup (map mm_id (minion_machines minion_pool)) ->
  (forall m, In m (minion_machines minion_pool) ->
             has_machine (mm_id m) (db_machines w) = true) ->
  reliable w ->
  NoDup fresh ->
  (forall id, In id fresh -> has_machine id (db_machines w) = false) ->
  _make_minion_machine_allocation_subflow_for_action
    minion_pool action_id action_instances subflow_name w =
  (Ok (unordered_flow (NameGiven subflow_name)
         (map (picked_machine_flow minion_pool action_id) picked ++
          map (new_machine_task minion_pool action_id) fresh),
       combine action_instances (picked ++ fresh)),
   set_db_machines
     (map (marked_in_use picked action_id (utcnow w)) (db_machines w) ++
      map (new_machine_row minion_pool action_id) fresh)
     (advance_uuid (length action_instances
                    - length (available_machines minion_pool)) w)).
Proof.
  intros picked fresh Hroom Hi Hnd Hrows Hr Hfresh Hnew.
  unfold _make_minion_machine_allocation_subflow_for_action.
  fold (available_machines minion_pool).
  replace (_ >? _) with false
    by (symmetry; rewrite Z.gtb_ltb; apply Z.ltb_ge; lia).
  unfold bind.
  rewrite (@plan_allocations_run minion_pool action_id action_instances []
             (available_machines minion_pool));
    [| reflexivity | now apply distinct_ids_filter | exact Hi
     | intros; reflexivity | reflexivity | reflexivity].
  fold picked. fold fresh. cbn [app].
  set (w1 := advance_uuid _ w).
  assert (Hr1 : reliable w1) by (intro c; apply Hr).
  unfold mark_and_add_machines.
  cbn [existing_machines_to_allocate machine_db_entries_to_add
       allocation_subflow instance_minion_allocations app].
  assert (Hlen : (length picked <= length action_instances)%nat).
  { unfold picked. rewrite length_map, length_firstn. lia. }
  rewrite (keys_of_combine _ _ Hlen).
  rewrite set_allocation_statuses_run; [|exact Hr1|].
  - rewrite add_new_machine_entries_run.
    + reflexivity.
    + intro c. apply Hr.
    + rewrite map_map. simpl. now rewrite map_id.
    + intros m Hm. apply in_map_iff in Hm. destruct Hm as (id & <- & Hid).
      simpl. rewrite has_machine_map.
      * now apply Hnew.
      * intro x. now destruct (str_in (mm_id x) picked).
  - intros id Hid. unfold picked in Hid. apply in_map_iff in Hid.
    destruct Hid as (m & <- & Hm). apply Hrows.
    apply in_firstn in Hm. unfold available_machines in Hm.
    now apply filter_In in Hm.
Qed.

(** X6: a reservation that has room, for distinct instances, from a pool
    whose machines have distinct ids and rows in the store, with a database
    that does not fail and uuids that are new, returns.  The instances take,
    in their order, the AVAILABLE machines of the pool in the order of the
    pool and, once these are used up, fresh uuids.  The flow has one
    healthcheck flow per picked machine and one [AllocateMinionMachineTask]
    per new machine; the store has the picked rows IN_USE for the action
    with [last_used_at] set to now, and one UNINITIALIZED row per new machine
    that already carries the action. *)
Theorem reservation_takes_available_machines_first
    (minion_pool : MinionPool) (action_id : string)
    (action_instances : list string) (subflow_name : string) (w : World) :
  let picked :=
    map mm_id (firstn (length action_instances)
                 (available_machines minion_pool)) in
  let fresh :=
    fresh_ids w (length action_instances
                 - length (available_machines minion_pool)) in
  Z.of_nat (length action_instances) <=
    Z.of_nat (length (available_machines minion_pool))
    + (mp_maximum_minions minion_pool
       - Z.of_nat (length (minion_machines minion_pool))) ->
  NoDup action_instances ->
  NoDup (map mm_id (minion_machines minion_pool)) ->
  (forall m, In m (minion_machines minion_pool) ->
             has_machine (mm_id m) (db_machines w) = true) ->
  reliable w ->
  NoDup fresh ->
  (forall id, In id fresh -> has_machine id (db_machines w) = false) ->
  _make_minion_machine_allocation_subflow_for_action
    minion_pool action_id action_instances subflow_name w =
  (Ok (unordered_flow (NameGiven subflow_name)
         (map (picked_machine_flow minion_pool action_id) picked ++
          map (new_machine_task minion_pool action_id) fresh),
       combine action_instances (picked ++ fresh)),
   set_db_machines
     (map (marked_in_use picked action_id (utcnow w)) (db_machines w) ++
      map (new_machine_row minion_pool action_id) fresh)
     (advance_uuid (length action_instances
                    - length (available_machines minion_pool)) w)).
Proof.
  exact (@reservation_run minion_pool action_id action_instances subflow_name w).
Qed.

Lemma reservation_takes_available_machines_first_witness :
  _make_minion_machine_allocation_subflow_for_action
    scenario_pool "a1" ["vm1"; "vm2"; "vm3"] "destination-sub" scenario_world =
  (Ok (unordered_flow (NameGiven "destination-sub")
         [ picked_machine_flow scenario_pool "a1" "m1";
           picked_machine_flow scenario_pool "a1" "m2";
           new_machine_task scenario_pool "a1" (example_uuid 0) ],
       [ ("vm1", "m1"); ("vm2", "m2"); ("vm3", example_uuid 0) ]),
   set_db_machines
     [ mkMinionMachine "m1" "p1" MINION_MACHINE_STATUS_IN_USE (Some "a1")
         (Some 500);
       mkMinionMachine "m2" "p1" MINION_MACHINE_STATUS_IN_USE (Some "a1")
         (Some 500);
       new_machine_row scenario_pool "a1" (example_uuid 0) ]
     (advance_uuid 1 scenario_world)).
Proof.
  apply (@reservation_takes_available_machines_first scenario_pool "a1"
           ["vm1"; "vm2"; "vm3"] "destination-sub" scenario_world).
  - simpl. lia.
  - repeat constructor; simpl; intuition discriminate.
  - repeat constructor; simpl; intuition discriminate.
  - intros m [<-|[<-|[]]]; reflexivity.
  - intro c. reflexivity.
  - repeat constructor; simpl; intuition.
  - intros id [<-|[]]. reflexivity.
Defined.

Lemma advance_uuid_add (a b : nat) (w : World) :
  advance_uuid a (advance_uuid b w) = advance_uuid (a + b) w.
Proof. unfold advance_uuid. simpl. now rewrite Nat.add_assoc. Qed.

Lemma dict_has_in {V} (k : string) (d : list (string * V)) :
  In k (dict_keys d) -> dict_has k d = true.
Proof.
  intro H. destruct (dict_has k d) eqn:E; [reflexivity|].
  exfalso. unfold dict_keys in H. apply in_map_iff in H.
  destruct H as (kv & Hk & Hin). unfold dict_has in E.
  assert (T : existsb (fun kv => String.eqb (fst kv) k) d = true).
  { apply existsb_exists. exists kv. split; [exact Hin|].
    now apply String.eqb_eq. }
  congruence.
Qed.

(** The loop of the reservation either plans every instance, and then the
    instances are distinct, or raises [InvalidInput]; all it does to the
    world is to draw uuids. *)
Lemma plan_allocations_outcome
    (minion_pool : MinionPool) (action_id : string)
    (action_instances : list string) (plan : allocation_plan) (w : World) :
  exists k,
    (exists plan',
       plan_allocations minion_pool action_id action_instances plan w
       = (Ok plan', advance_uuid k w) /\
       (NoDup (dict_keys (instance_minion_allocations plan)) ->
        NoDup (dict_keys (instance_minion_allocations plan)
               ++ action_instances))) \/
    plan_allocations minion_pool action_id action_instances plan w
    = (Raise InvalidInput, advance_uuid k w).
Proof.
  revert plan w. induction action_instances as [|i l IH]; intros plan w.
  - exists 0%nat. left. exists plan. simpl. rewrite advance_uuid_zero, app_nil_r.
    now split.
  - cbn [plan_allocations].
    destruct (dict_has i (instance_minion_allocations plan)) eqn:Eh.
    { exists 0%nat. right. now rewrite advance_uuid_zero. }
    assert (Hi : ~ In i (dict_keys (instance_minion_allocations plan))).
    { intro H. apply dict_has_in in H. congruence. }
    assert (Hstep : forall id,
              NoDup (dict_keys (dict_set i id (instance_minion_allocations plan))
                     ++ l) ->
              NoDup (dict_keys (instance_minion_allocations plan)) ->
              NoDup (dict_keys (instance_minion_allocations plan) ++ i :: l)).
    { intros id H _. rewrite dict_set_new in H by exact Eh.
      unfold dict_keys in *. rewrite map_app, <- app_assoc in H. exact H. }
    assert (Hkeys : forall id,
              NoDup (dict_keys (instance_minion_allocations plan)) ->
              NoDup (dict_keys (dict_set i id (instance_minion_allocations plan)))).
    { intros id H. rewrite dict_set_new by exact Eh. unfold dict_keys in *.
      rewrite map_app. simpl. apply NoDup_app; [exact H | | ].
      - constructor; [intros [] | constructor].
      - intros x Hx [<-|[]]. contradiction. }
    destruct (_select_machine minion_pool _) as [m|].
    + match goal with
      | |- context [plan_allocations _ _ l ?p w] =>
          destruct (IH p w) as (k & [(plan' & E & Hnd) | E])
      end.
      * exists k. left. exists plan'. split; [exact E|]. intro H.
        apply (Hstep (mm_id m)); [|exact H]. apply Hnd. simpl. now apply Hkeys.
      * exists k. now right.
    + unfold bind, uuid4.
      match goal with
      | |- context [plan_allocations _ _ l ?p ?w1] =>
          destruct (IH p w1) as (k & [(plan' & E & Hnd) | E]);
          change w1 with (advance_uuid 1 w) in E
      end.
      * exists (k + 1)%nat. left. exists plan'. rewrite advance_uuid_add in E.
        split; [exact E|]. intro H.
        apply (Hstep (uuid_source w (uuid_next w))); [|exact H].
        apply Hnd. simpl. now apply Hkeys.
      * exists (k + 1)%nat. right. now rewrite advance_uuid_add in E.
Qed.

(** X7: a reservation that has room but is given the same instance twice
    raises [InvalidInput]; it has drawn uuids, and has written nothing. *)
Theorem reservation_refuses_repeated_instance
    (minion_pool : MinionPool) (action_id : string)
    (action_instances : list string) (subflow_name : string) (w : World) :
  Z.of_nat (length action_instances) <=
    Z.of_nat (length (available_machines minion_pool))
    + (mp_maximum_minions minion_pool
       - Z.of_nat (length (minion_machines minion_pool))) ->
  ~ NoDup action_instances ->
  exists k,
    _make_minion_machine_allocation_subflow_for_action
      minion_pool action_id action_instances subflow_name w
    = (Raise InvalidInput, advance_uuid k w).
Proof.
  intros Hroom Hdup.
  unfold _make_minion_machine_allocation_subflow_for_action.
  fold (available_machines minion_pool).
  replace (_ >? _) with false
    by (symmetry; rewrite Z.gtb_ltb; apply Z.ltb_ge; lia).
  unfold bind.
  destruct (plan_allocations_outcome minion_pool action_id action_instances
              (mkAllocationPlan [] [] [] []) w)
    as (k & [(plan' & E & Hnd) | E]).
  - exfalso. apply Hdup. apply Hnd. constructor.
  - exists k. now rewrite E.
Qed.

Lemma reservation_refuses_repeated_instance_witness :
  exists k,
    _make_minion_machine_allocation_subflow_for_action
      scenario_pool "a1" ["vm1"; "vm2"; "vm1"] "destination-sub" scenario_world
    = (Raise InvalidInput, advance_uuid k scenario_world).
Proof.
  apply (@reservation_refuses_repeated_instance scenario_pool "a1"
           ["vm1"; "vm2"; "vm1"] "destination-sub" scenario_world).
  - simpl. lia.
  - intro H. inversion H as [|x l Hx Hl]; subst. apply Hx. right. now left.
Defined.

Lemma length_filter_map {A} (p : A -> bool) (f : A -> A) (l : list A) :
  (forall x, p (f x) = p x) ->
  length (filter p (map f l)) = length (filter p l).
Proof.
  intro H. induction l as [|x l IH]; simpl; [reflexivity|].
  rewrite H. destruct (p x); simpl; now rewrite IH.
Qed.

(** X8: a reservation never grows a pool beyond [maximum_minions]: when it
    is given the pool as the store has it, with distinct machine ids and no
    more machines than [maximum_minions], and returns, the pool still has no
    more machines than [maximum_minions] in the store. *)
Theorem reservation_keeps_pool_within_maximum
    (minion_pool : MinionPool) (action_id : string)
    (action_instances : list string) (subflow_name : string)
    (w w' : World) (r : flow * list (string * string)) :
  _make_minion_machine_allocation_subflow_for_action
    minion_pool action_id action_instances subflow_name w = (Ok r, w') ->
  minion_machines minion_pool = db_api.pool_machines (mp_id minion_pool) w ->
  NoDup (map mm_id (minion_machines minion_pool)) ->
  Z.of_nat (length (minion_machines minion_pool))
  <= mp_maximum_minions minion_pool ->
  Z.of_nat (length (db_api.pool_machines (mp_id minion_pool) w'))
  <= mp_maximum_minions minion_pool.
Proof.
  intros Hrun Hsnap Hnd Hmax.
  unfold _make_minion_machine_allocation_subflow_for_action in Hrun.
  fold (available_machines minion_pool) in Hrun.
  destruct (_ >? _) eqn:Eroom; [discriminate|].
  rewrite Z.gtb_ltb in Eroom. apply Z.ltb_ge in Eroom.
  unfold bind in Hrun.
  destruct (plan_allocations_outcome minion_pool action_id action_instances
              (mkAllocationPlan [] [] [] []) w)
    as (k & [(plan' & E & Hi) | E]); [|rewrite E in Hrun; discriminate].
  specialize (Hi (NoDup_nil _)). simpl in Hi. clear E plan' k.
  rewrite (@plan_allocations_run minion_pool action_id action_instances []
             (available_machines minion_pool)) in Hrun;
    [| reflexivity | now apply distinct_ids_filter | exact Hi
     | intros; reflexivity | reflexivity | reflexivity].
  cbn [app allocation_subflow instance_minion_allocations
       machine_db_entries_to_add existing_machines_to_allocate] in Hrun.
  set (fresh := fresh_ids w _) in *.
  set (w1 := advance_uuid _ w) in *.
  destruct (mark_and_add_machines action_id _ w1) as [[[u|e] added] w2] eqn:Em.
  - injection Hrun as _ <-. unfold mark_and_add_machines in Em.
    cbn [existing_machines_to_allocate machine_db_entries_to_add] in Em.
    destruct (db_api.set_minion_machines_allocation_statuses _ _ _ _ w1)
      as [[u1|e1] w3] eqn:Es; [|discriminate].
    apply set_allocation_statuses_ok in Es.
    apply add_new_machine_entries_ok in Em.
    unfold db_api.pool_machines. rewrite Em, Es.
    rewrite filter_app, length_app.
    rewrite length_filter_map
      by (intro m; now destruct (str_in (mm_id m) _)).
    change (db_machines w1) with (db_machines w).
    fold (db_api.pool_machines (mp_id minion_pool) w). rewrite <- Hsnap.
    rewrite filter_all
      by (intros m Hm; apply in_map_iff in Hm; destruct Hm as (id & <- & _);
          simpl; apply String.eqb_refl).
    rewrite length_map. unfold fresh, fresh_ids. rewrite length_map, length_seq.
    lia.
  - match type of Hrun with
    | context [rollback_allocations ?p _ _ _] =>
        destruct (@rollback_allocations_raises (flow * list (string * string))
                    p added e w2) as (e' & w3 & E3)
    end.
    rewrite E3 in Hrun. discriminate.
Qed.

Lemma reservation_keeps_pool_within_maximum_witness :
  Z.of_nat
    (length
       (db_api.pool_machines "p1"
          (snd (_make_minion_machine_allocation_subflow_for_action
                  scenario_pool "a1" ["vm1"; "vm2"; "vm3"] "destination-sub"
                  scenario_world)))) <= 4.
Proof.
  eapply (@reservation_keeps_pool_within_maximum scenario_pool "a1"
            ["vm1"; "vm2"; "vm3"] "destination-sub" scenario_world).
  - reflexivity.
  - reflexivity.
  - repeat constructor; simpl; intuition discriminate.
  - simpl. lia.
Defined.

Lemma set_allocation_statuses_run_unfailing
    (ids : list string) (action : option string) (status : machine_status)
    (refresh : bool) (w : World) :
  faults w (Call_set_minion_machines_allocation_statuses ids action status
              refresh) = false ->
  (forall id, In id ids -> has_machine id (db_machines w) = true) ->
  db_api.set_minion_machines_allocation_statuses ids action status refresh w =
  (Ok tt,
   set_db_machines
     (map (fun m => if str_in (mm_id m) ids
                    then with_allocation action status
                           (if refresh then Some (utcnow w)
                            else mm_last_used_at m) m
                    else m) (db_machines w)) w).
Proof.
  intros Hf Hids.
  unfold db_api.set_minion_machines_allocation_statuses, bind, get_world, modify,
    ext.
  rewrite Hf. replace (forallb _ ids) with true; [reflexivity|].
  symmetry. apply forallb_forall. exact Hids.
Qed.

(** X9: when the pre-existing machines have been marked and the very first
    insertion of a new row fails, the handler undoes the marking and raises
    the error of the insertion again: the picked machines are AVAILABLE with
    a null [allocated_action] and no row was added.  Their [last_used_at],
    set by the marking, stays at the time of the attempt. *)
Theorem reservation_undone_when_first_insert_fails
    (minion_pool : MinionPool) (action_id : string)
    (action_instances : list string) (subflow_name : string) (w : World) :
  let picked :=
    map mm_id (firstn (length action_instances)
                 (available_machines minion_pool)) in
  Z.of_nat (length action_instances) <=
    Z.of_nat (length (available_machines minion_pool))
    + (mp_maximum_minions minion_pool
       - Z.of_nat (length (minion_machines minion_pool))) ->
  (length (available_machines minion_pool) < length action_instances)%nat ->
  NoDup action_instances ->
  NoDup (map mm_id (minion_machines minion_pool)) ->
  (forall m, In m (minion_machines minion_pool) ->
             has_machine (mm_id m) (db_machines w) = true) ->
  faults w (Call_set_minion_machines_allocation_statuses picked (Some action_id)
              MINION_MACHINE_STATUS_IN_USE true) = false ->
  faults w (Call_add_minion_machine (uuid_source w (uuid_next w))) = true ->
  faults w (Call_set_minion_machines_allocation_statuses picked None
              MINION_MACHINE_STATUS_AVAILABLE false) = false ->
  _make_minion_machine_allocation_subflow_for_action
    minion_pool action_id action_instances subflow_name w =
  (Raise DBError,
   set_db_machines
     (map (fun m => if str_in (mm_id m) picked
                    then with_allocation None MINION_MACHINE_STATUS_AVAILABLE
                           (Some (utcnow w)) m
                    else m) (db_machines w))
     (advance_uuid (length action_instances
                    - length (available_machines minion_pool)) w)).
Proof.
  intros picked Hroom Hmore Hi Hnd Hrows Hmark Hadd Hrevert.
  unfold _make_minion_machine_allocation_subflow_for_action.
  fold (available_machines minion_pool).
  replace (_ >? _) with false
    by (symmetry; rewrite Z.gtb_ltb; apply Z.ltb_ge; lia).
  unfold bind.
  rewrite (@plan_allocations_run minion_pool action_id action_instances []
             (available_machines minion_pool));
    [| reflexivity | now apply distinct_ids_filter | exact Hi
     | intros; reflexivity | reflexivity | reflexivity].
  fold picked. cbn [app].
  destruct (length action_instances - length (available_machines minion_pool))%nat
    as [|k] eqn:Ek; [lia|].
  set (w1 := advance_uuid (S k) w).
  unfold mark_and_add_machines.
  cbn [existing_machines_to_allocate machine_db_entries_to_add
       allocation_subflow instance_minion_allocations app].
  assert (Hlen : (length picked <= length action_instances)%nat).
  { unfold picked. rewrite length_map, length_firstn. lia. }
  assert (Hpicked : forall id, In id picked ->
                               has_machine id (db_machines w) = true).
  { intros id Hid. unfold picked in Hid. apply in_map_iff in Hid.
    destruct Hid as (m & <- & Hm). apply Hrows. apply in_firstn in Hm.
    unfold available_machines in Hm. now apply filter_In in Hm. }
  rewrite (keys_of_combine _ _ Hlen).
  rewrite set_allocation_statuses_run_unfailing; [|exact Hmark|exact Hpicked].
  unfold fresh_ids. cbn [seq map add_new_machine_entries].
  unfold db_api.add_minion_machine at 1. unfold bind at 1. unfold ext at 1.
  cbn [new_machine_row mm_id faults set_db_machines w1 advance_uuid].
  rewrite Hadd.
  unfold rollback_allocations. cbn [map_M for_each].
  unfold bind at 1. unfold ret at 1. unfold bind at 1. unfold try_except.
  cbn [existing_machines_to_allocate].
  rewrite (keys_of_combine _ _ Hlen).
  rewrite set_allocation_statuses_run_unfailing.
  - unfold bind, ret, raise, set_db_machines. simpl. f_equal. f_equal.
    rewrite map_map. apply map_ext. intro m.
    destruct (str_in (mm_id m) picked) eqn:E; simpl; rewrite E; reflexivity.
  - exact Hrevert.
  - intros id Hid. simpl. rewrite has_machine_map; [now apply Hpicked|].
    intro m. now destruct (str_in (mm_id m) picked).
Qed.

Lemma reservation_undone_when_first_insert_fails_witness :
  _make_minion_machine_allocation_subflow_for_action
    scenario_pool "a1" ["vm1"; "vm2"; "vm3"] "destination-sub"
    first_insert_fails_world =
  (Raise DBError,
   set_db_machines
     [ mkMinionMachine "m1" "p1" MINION_MACHINE_STATUS_AVAILABLE None (Some 500);
       mkMinionMachine "m2" "p1" MINION_MACHINE_STATUS_AVAILABLE None (Some 500) ]
     (advance_uuid 1 first_insert_fails_world)).
Proof.
  apply (@reservation_undone_when_first_insert_fails scenario_pool "a1"
           ["vm1"; "vm2"; "vm3"] "destination-sub" first_insert_fails_world).
  - simpl. lia.
  - simpl. lia.
  - repeat constructor; simpl; intuition discriminate.
  - repeat constructor; simpl; intuition discriminate.
  - intros m [<-|[<-|[]]]; reflexivity.
  - reflexivity.
  - reflexivity.
  - reflexivity.
Defined.

(** ** The pool deallocation flow *)

Lemma flow_tasks_linear (name : flow_name) (children : list flow) :
  flow_tasks (linear_flow name children) = flat_map flow_tasks children.
Proof.
  simpl. induction children as [|c l IH]; simpl; [reflexivity|]. now rewrite IH.
Qed.

Lemma flow_tasks_unordered (name : flow_name) (children : list flow) :
  flow_tasks (unordered_flow name children) = flat_map flow_tasks children.
Proof.
  simpl. induction children as [|c l IH]; simpl; [reflexivity|]. now rewrite IH.
Qed.

Lemma flat_map_tasks {A} (f : A -> task) (l : list A) :
  flat_map flow_tasks (map (fun x => Task (f x)) l) = map f l.
Proof. induction l as [|x l IH]; simpl; [reflexivity|]. now rewrite IH. Qed.

Lemma filter_deallocate_tasks (pool_id platform : string) (l : list MinionMachine) :
  filter is_deallocate_machine
    (map (fun m => DeallocateMinionMachineTask pool_id (mm_id m) platform) l)
  = map (fun m => DeallocateMinionMachineTask pool_id (mm_id m) platform) l.
Proof. induction l as [|x l IH]; simpl; [reflexivity|]. now rewrite IH. Qed.

Lemma filter_transitions_deallocate_tasks
    (s : pool_status) (pool_id platform : string) (l : list MinionMachine) :
  filter (transitions_to s)
    (map (fun m => DeallocateMinionMachineTask pool_id (mm_id m) platform) l)
  = [].
Proof. induction l as [|x l IH]; simpl; [reflexivity|]. exact IH. Qed.

(** X10: the pool deallocation flow is a linear flow that always ends with
    the transition to DEALLOCATING_SHARED_RESOURCES, the deallocation of the
    shared resources and the transition to DEALLOCATED.  It deallocates
    every machine of the pool exactly once, in the order of the pool, and
    moves to DEALLOCATING_MACHINES exactly when the pool has machines, in
    which case that transition comes first. *)
Theorem pool_deallocation_flow_machines (minion_pool : MinionPool) :
  exists name before,
    _get_minion_pool_deallocation_flow minion_pool =
      linear_flow name
        (before ++
         [ Task (UpdateMinionPoolStatusTask (mp_id minion_pool)
                   MINION_POOL_STATUS_DEALLOCATING_SHARED_RESOURCES
                   (Some MINION_POOL_STATUS_ERROR));
           Task (DeallocateSharedPoolResourcesTask (mp_id minion_pool)
                   (mp_id minion_pool) (mp_platform minion_pool));
           Task (UpdateMinionPoolStatusTask (mp_id minion_pool)
                   MINION_POOL_STATUS_DEALLOCATED None) ]) /\
    filter is_deallocate_machine
      (flow_tasks (_get_minion_pool_deallocation_flow minion_pool)) =
      map (fun m => DeallocateMinionMachineTask (mp_id minion_pool) (mm_id m)
                      (mp_platform minion_pool))
        (minion_machines minion_pool) /\
    (minion_machines minion_pool = [] -> before = []) /\
    (minion_machines minion_pool <> [] ->
     exists sub_name,
       before =
         [ Task (UpdateMinionPoolStatusTask (mp_id minion_pool)
                   MINION_POOL_STATUS_DEALLOCATING_MACHINES
                   (Some MINION_POOL_STATUS_ERROR));
           unordered_flow sub_name
             (map (fun m => deallocate_task minion_pool (mm_id m))
                (minion_machines minion_pool)) ]).
Proof.
  unfold _get_minion_pool_deallocation_flow.
  destruct (minion_machines minion_pool) as [|m l] eqn:E.
  - simpl. exists (NameFormat MINION_POOL_DEALLOCATION_FLOW_NAME_FORMAT
                     [mp_id minion_pool]), [].
    repeat split; try reflexivity. intro H. now contradiction H.
  - replace (flow_bool _) with true by reflexivity.
    eexists _, _. split; [reflexivity|]. split; [|split].
    + rewrite flow_tasks_linear. cbn [app flat_map].
      rewrite flow_tasks_unordered.
      rewrite (flat_map_tasks
                 (fun m => DeallocateMinionMachineTask (mp_id minion_pool)
                             (mm_id m) (mp_platform minion_pool)) (m :: l)).
      cbn [flow_tasks app filter is_deallocate_machine]. rewrite filter_app.
      rewrite (filter_deallocate_tasks (mp_id minion_pool)
                 (mp_platform minion_pool) (m :: l)).
      simpl. now rewrite app_nil_r.
    + discriminate.
    + intros _. eexists. reflexivity.
Qed.

(** ** Launching the pool flows *)

Lemma set_status_of_id (id : string) (status : pool_status) (p : MinionPool) :
  mp_id (set_status_of id status p) = mp_id p.
Proof. unfold set_status_of. now destruct (String.eqb (mp_id p) id). Qed.

Lemma has_pool_map (id : string) (f : MinionPool -> MinionPool)
    (l : list MinionPool) :
  (forall p, mp_id (f p) = mp_id p) ->
  existsb (fun p => String.eqb (mp_id p) id) (map f l)
  = existsb (fun p => String.eqb (mp_id p) id) l.
Proof.
  intro Hf. induction l as [|p l IH]; simpl; [reflexivity|]. now rewrite Hf, IH.
Qed.

Lemma set_minion_pool_status_run
    (id : string) (status : pool_status) (w : World) :
  faults w (Call_set_minion_pool_status id status) = false ->
  existsb (fun p => String.eqb (mp_id p) id) (db_pools w) = true ->
  db_api.set_minion_pool_status id status w =
  (Ok tt, set_db_pools (map (set_status_of id status) (db_pools w)) w).
Proof.
  intros Hf Hex. unfold db_api.set_minion_pool_status, bind, ext, get_world, modify.
  now rewrite Hf, Hex.
Qed.

(** The [try] around the launch of a flow, when everything works and when
    the runner refuses the flow. *)
Lemma launch_succeeds
    (id : string) (current : pool_status) (f : flow) (store : taskflow_store)
    (w : World) :
  reliable w ->
  existsb (fun p => String.eqb (mp_id p) id) (db_pools w) = true ->
  try_except
    (db_api.set_minion_pool_status id MINION_POOL_STATUS_POOL_MAINTENANCE ;;
     run_flow_in_background f store)
    (fun ex => db_api.set_minion_pool_status id current ;; raise ex) w =
  (Ok tt,
   set_flows_run (flows_run w ++ [(f, store)])
     (set_db_pools
        (map (set_status_of id MINION_POOL_STATUS_POOL_MAINTENANCE) (db_pools w))
        w)).
Proof.
  intros Hr Hex. unfold try_except, bind.
  rewrite set_minion_pool_status_run by (apply Hr || exact Hex).
  unfold run_flow_in_background, bind, ext, get_world, modify. simpl.
  now rewrite Hr.
Qed.

Lemma launch_fails
    (id : string) (current : pool_status) (f : flow) (store : taskflow_store)
    (w : World) :
  faults w (Call_set_minion_pool_status id MINION_POOL_STATUS_POOL_MAINTENANCE)
  = false ->
  faults w Call_run_flow_in_background = true ->
  faults w (Call_set_minion_pool_status id current) = false ->
  existsb (fun p => String.eqb (mp_id p) id) (db_pools w) = true ->
  try_except
    (db_api.set_minion_pool_status id MINION_POOL_STATUS_POOL_MAINTENANCE ;;
     run_flow_in_background f store)
    (fun ex => db_api.set_minion_pool_status id current ;; raise ex) w =
  (Raise RPCError,
   set_db_pools (map (set_status_of id current) (db_pools w)) w).
Proof.
  intros H1 H2 H3 Hex. unfold try_except, bind.
  rewrite set_minion_pool_status_run by assumption.
  unfold run_flow_in_background, bind, ext. simpl. rewrite H2.
  rewrite set_minion_pool_status_run.
  - unfold raise, set_db_pools. simpl. f_equal. f_equal. rewrite map_map.
    apply map_ext. intro p. unfold set_status_of.
    destruct (String.eqb (mp_id p) id) eqn:E; simpl; now rewrite ?E.
  - exact H3.
  - simpl. rewrite has_pool_map; [exact Hex | intro p; apply set_status_of_id].
Qed.

Lemma get_endpoint_run (endpoint_id : string) (endpoint_dict : Endpoint) (w : World) :
  faults w (Call_get_endpoint endpoint_id) = false ->
  find (fun e => String.eqb (ep_id e) endpoint_id) (conductor_endpoints w)
  = Some endpoint_dict ->
  get_endpoint endpoint_id w = (Ok endpoint_dict, w).
Proof.
  intros Hf He. unfold get_endpoint, bind, ext, get_world. now rewrite Hf, He.
Qed.

Lemma restored_pool_found
    (id : string) (include_machines : bool) (w : World)
    (minion_pool : MinionPool) :
  _get_minion_pool id include_machines w = (Ok minion_pool, w) ->
  _get_minion_pool id include_machines
    (set_db_pools
       (map (set_status_of id (mp_status minion_pool)) (db_pools w)) w)
  = (Ok minion_pool,
     set_db_pools
       (map (set_status_of id (mp_status minion_pool)) (db_pools w)) w).
Proof.
  intro Hget. destruct (get_minion_pool_found _ _ _ Hget)
    as (_ & row & Hrow & Hload & Hid).
  unfold _get_minion_pool, bind, db_api.get_minion_pool. simpl.
  rewrite (find_pool_map id (set_status_of id (mp_status minion_pool)));
    [|intro p; apply set_status_of_id].
  rewrite Hrow. simpl. unfold ret. f_equal. f_equal. rewrite Hload.
  unfold set_status_of. apply find_some in Hrow. destruct Hrow as [_ E].
  rewrite E. unfold db_api.load_pool, db_api.pool_machines. simpl.
  now destruct row.
Qed.

(** X11: when the runner refuses the deallocation flow, the call raises the
    error of the runner, no flow is recorded, and the pool is put back from
    POOL_MAINTENANCE into the status it had: fetching it again gives the
    pool as it was. *)
Theorem failed_deallocation_launch_restores_status
    (minion_pool_id : string) (force : bool) (w : World)
    (minion_pool : MinionPool) (endpoint_dict : Endpoint) :
  _get_minion_pool minion_pool_id true w = (Ok minion_pool, w) ->
  mp_status minion_pool <> MINION_POOL_STATUS_DEALLOCATED ->
  force = true \/
  ((mp_status minion_pool = MINION_POOL_STATUS_ALLOCATED \/
    mp_status minion_pool = MINION_POOL_STATUS_ERROR) /\
   used_machines minion_pool = []) ->
  faults w (Call_get_endpoint (mp_endpoint_id minion_pool)) = false ->
  find (fun e => String.eqb (ep_id e) (mp_endpoint_id minion_pool))
    (conductor_endpoints w) = Some endpoint_dict ->
  faults w (Call_set_minion_pool_status minion_pool_id
              MINION_POOL_STATUS_POOL_MAINTENANCE) = false ->
  faults w Call_run_flow_in_background = true ->
  faults w (Call_set_minion_pool_status minion_pool_id (mp_status minion_pool))
  = false ->
  exists w',
    deallocate_minion_pool minion_pool_id force w = (Raise RPCError, w') /\
    flows_run w' = flows_run w /\
    db_machines w' = db_machines w /\
    _get_minion_pool minion_pool_id true w' = (Ok minion_pool, w').
Proof.
  intros Hget Hd Hok Hfe Hep Hf1 Hf2 Hf3.
  destruct (get_minion_pool_found _ _ _ Hget) as (_ & row & Hrow & Hload & Hid).
  unfold deallocate_minion_pool. unfold bind at 1. rewrite Hget. cbv zeta.
  apply (proj2 (pool_status_eqb_neq _ _)) in Hd. rewrite Hd.
  unfold bind at 1.
  assert (E1 :
    (if negb (existsb (pool_status_eqb (mp_status minion_pool))
                acceptable_deallocation_statuses)
     then if negb force then raise InvalidMinionPoolState else ret tt
     else ret tt) w = (Ok tt, w)).
  { destruct Hok as [-> | [[Hs|Hs] _]].
    - now destruct (negb (existsb _ _)).
    - rewrite Hs. reflexivity.
    - rewrite Hs. reflexivity. }
  rewrite E1. unfold bind at 1.
  destruct (@check_pool_machines_in_use_ok minion_pool force w) as (used & E2);
    [destruct Hok as [-> | [_ Hu]]; [now left | now right]|].
  rewrite E2. unfold bind at 1. rewrite (get_endpoint_run _ _ Hfe Hep).
  unfold bind at 1. rewrite launch_fails; try assumption.
  - eexists. split; [reflexivity|]. split; [reflexivity|].
    split; [reflexivity|]. now apply restored_pool_found.
  - apply existsb_exists. exists row. apply find_some in Hrow. exact Hrow.
Qed.

Lemma failed_deallocation_launch_restores_status_witness :
  exists w',
    deallocate_minion_pool "p1" false runner_fails_world = (Raise RPCError, w') /\
    flows_run w' = flows_run runner_fails_world /\
    db_machines w' = db_machines runner_fails_world /\
    _get_minion_pool "p1" true w' = (Ok scenario_pool, w').
Proof.
  apply (@failed_deallocation_launch_restores_status "p1" false
           runner_fails_world scenario_pool
           (mkEndpoint "e1" "{}" ["r1"] "openstack")).
  - reflexivity.
  - discriminate.
  - right. split; [now left | reflexivity].
  - reflexivity.
  - reflexivity.
  - reflexivity.
  - reflexivity.
  - reflexivity.
Defined.

Lemma allocation_flow_run (minion_pool : MinionPool) (w : World) :
  exists allocation_flow,
    _get_minion_pool_allocation_flow minion_pool w =
    (Ok allocation_flow,
     advance_uuid (Z.to_nat (mp_minimum_minions minion_pool)) w).
Proof.
  unfold _get_minion_pool_allocation_flow, bind.
  rewrite allocate_machine_tasks_run. unfold ret. now eexists.
Qed.

(** X12: [allocate_minion_pool] on a pool that exists fetches the endpoint
    first, so that a failure of that call is what is raised whatever the
    status of the pool; with the endpoint at hand it raises
    [InvalidMinionPoolState] and changes nothing unless the pool is
    DEALLOCATED; and for a DEALLOCATED pool, when no collaborator fails, it
    sets the pool to POOL_MAINTENANCE, hands the allocation flow of the pool
    to the runner and returns the pool with its machines. *)
Theorem allocate_minion_pool_cases
    (minion_pool_id : string) (w : World) (minion_pool : MinionPool) :
  _get_minion_pool minion_pool_id false w = (Ok minion_pool, w) ->
  (faults w (Call_get_endpoint (mp_endpoint_id minion_pool)) = true ->
   allocate_minion_pool minion_pool_id w = (Raise RPCError, w)) /\
  (forall endpoint_dict,
     faults w (Call_get_endpoint (mp_endpoint_id minion_pool)) = false ->
     find (fun e => String.eqb (ep_id e) (mp_endpoint_id minion_pool))
       (conductor_endpoints w) = Some endpoint_dict ->
     mp_status minion_pool <> MINION_POOL_STATUS_DEALLOCATED ->
     allocate_minion_pool minion_pool_id w = (Raise InvalidMinionPoolState, w)) /\
  (forall endpoint_dict,
     reliable w ->
     find (fun e => String.eqb (ep_id e) (mp_endpoint_id minion_pool))
       (conductor_endpoints w) = Some endpoint_dict ->
     mp_status minion_pool = MINION_POOL_STATUS_DEALLOCATED ->
     exists allocation_flow w',
       fst (_get_minion_pool_allocation_flow minion_pool w) = Ok allocation_flow /\
       allocate_minion_pool minion_pool_id w
       = (Ok (with_pool_status MINION_POOL_STATUS_POOL_MAINTENANCE
                (with_minion_machines
                   (db_api.pool_machines minion_pool_id w) minion_pool)), w') /\
       flows_run w' =
         flows_run w ++
         [(allocation_flow,
           _get_pool_initial_taskflow_store_base minion_pool endpoint_dict)] /\
       db_machines w' = db_machines w).
Proof.
  intro Hget. destruct (get_minion_pool_found _ _ _ Hget)
    as (_ & row & Hrow & Hload & Hid).
  split; [|split].
  - intro Hf. unfold allocate_minion_pool. unfold bind at 1. rewrite Hget.
    unfold bind at 1. unfold get_endpoint, bind, ext. now rewrite Hf.
  - intros endpoint_dict Hf Hep Hs.
    unfold allocate_minion_pool. unfold bind at 1. rewrite Hget.
    unfold bind at 1. rewrite (get_endpoint_run _ _ Hf Hep). cbv zeta.
    apply (proj2 (pool_status_eqb_neq _ _)) in Hs. simpl. now rewrite Hs.
  - intros endpoint_dict Hr Hep Hs.
    destruct (allocation_flow_run minion_pool w) as (allocation_flow & Eflow).
    exists allocation_flow. eexists. split; [now rewrite Eflow|].
    unfold allocate_minion_pool. unfold bind at 1. rewrite Hget.
    unfold bind at 1. rewrite (get_endpoint_run _ _ (Hr _) Hep). cbv zeta.
    rewrite Hs. cbn [acceptable_allocation_statuses existsb pool_status_eqb
                     orb negb].
    unfold bind at 1. rewrite Eflow. unfold bind at 1.
    rewrite launch_succeeds.
    + unfold _get_minion_pool, bind, db_api.get_minion_pool. simpl.
      rewrite Hid.
      rewrite (find_pool_map minion_pool_id
                 (set_status_of minion_pool_id
                    MINION_POOL_STATUS_POOL_MAINTENANCE));
        [|intro p; apply set_status_of_id].
      rewrite Hrow. simpl. unfold set_status_of.
      assert (E : String.eqb (mp_id row) minion_pool_id = true)
        by (now apply find_some in Hrow).
      rewrite E. unfold ret. split.
      * apply String.eqb_eq in E. rewrite Hload.
        unfold db_api.load_pool, db_api.pool_machines, with_pool_status,
          with_minion_machines. simpl. rewrite E. reflexivity.
      * split; reflexivity.
    + intro c. apply Hr.
    + simpl. apply existsb_exists. exists row. now apply find_some in Hrow.
Qed.

Lemma allocate_minion_pool_cases_witness :
  exists allocation_flow w',
    fst (_get_minion_pool_allocation_flow unallocated_scenario_pool
           (unallocated_world no_faults)) = Ok allocation_flow /\
    allocate_minion_pool "p1" (unallocated_world no_faults)
    = (Ok (with_pool_status MINION_POOL_STATUS_POOL_MAINTENANCE
             unallocated_scenario_pool), w') /\
    flows_run w' =
      [(allocation_flow,
        _get_pool_initial_taskflow_store_base unallocated_scenario_pool
          (mkEndpoint "e1" "{}" ["r1"] "openstack"))] /\
    db_machines w' = [].
Proof.
  destruct (@allocate_minion_pool_cases "p1" (unallocated_world no_faults)
              unallocated_scenario_pool eq_refl) as (_ & _ & H).
  apply (H (mkEndpoint "e1" "{}" ["r1"] "openstack")).
  - intro c. reflexivity.
  - reflexivity.
  - reflexivity.
Defined.

(** X13: when the runner refuses the allocation flow, [allocate_minion_pool]
    raises the error of the runner, records no flow, and puts the pool back
    from POOL_MAINTENANCE to DEALLOCATED: fetching it again gives the pool
    as it was. *)
Theorem failed_allocation_launch_restores_status
    (minion_pool_id : string) (w : World)
    (minion_pool : MinionPool) (endpoint_dict : Endpoint) :
  _get_minion_pool minion_pool_id false w = (Ok minion_pool, w) ->
  mp_status minion_pool = MINION_POOL_STATUS_DEALLOCATED ->
  faults w (Call_get_endpoint (mp_endpoint_id minion_pool)) = false ->
  find (fun e => String.eqb (ep_id e) (mp_endpoint_id minion_pool))
    (conductor_endpoints w) = Some endpoint_dict ->
  faults w (Call_set_minion_pool_status minion_pool_id
              MINION_POOL_STATUS_POOL_MAINTENANCE) = false ->
  faults w Call_run_flow_in_background = true ->
  faults w (Call_set_minion_pool_status minion_pool_id
              MINION_POOL_STATUS_DEALLOCATED) = false ->
  exists w',
    allocate_minion_pool minion_pool_id w = (Raise RPCError, w') /\
    flows_run w' = flows_run w /\
    _get_minion_pool minion_pool_id false w' = (Ok minion_pool, w').
Proof.
  intros Hget Hs Hfe Hep Hf1 Hf2 Hf3.
  destruct (get_minion_pool_found _ _ _ Hget) as (_ & row & Hrow & Hload & Hid).
  destruct (allocation_flow_run minion_pool w) as (allocation_flow & Eflow).
  unfold allocate_minion_pool. unfold bind at 1. rewrite Hget.
  unfold bind at 1. rewrite (get_endpoint_run _ _ Hfe Hep). cbv zeta.
  rewrite Hs. cbn [acceptable_allocation_statuses existsb pool_status_eqb
                   orb negb].
  unfold bind at 1. rewrite Eflow. unfold bind at 1.
  rewrite launch_fails; try assumption.
  - eexists. split; [reflexivity|]. split; [reflexivity|].
    pose proof (@restored_pool_found minion_pool_id false
                  (advance_uuid (Z.to_nat (mp_minimum_minions minion_pool)) w)
                  minion_pool) as R.
    rewrite Hs in R. apply R.
    unfold _get_minion_pool, bind, db_api.get_minion_pool in *. simpl.
    rewrite Hrow in *. simpl in *. injection Hget as Hp. now rewrite <- Hp.
  - simpl. apply existsb_exists. exists row. now apply find_some in Hrow.
Qed.

Lemma failed_allocation_launch_restores_status_witness :
  exists w',
    allocate_minion_pool "p1" (unallocated_world runner_fails)
    = (Raise RPCError, w') /\
    flows_run w' = [] /\
    _get_minion_pool "p1" false w' = (Ok unallocated_scenario_pool, w').
Proof.
  apply (@failed_allocation_launch_restores_status "p1"
           (unallocated_world runner_fails) unallocated_scenario_pool
           (mkEndpoint "e1" "{}" ["r1"] "openstack")); reflexivity.
Defined.

(* ------------------------------------------------------------------ *)
(** ** The refresh of a pool *)

Lemma str_in_iff (x : string) (l : list string) : str_in x l = true <-> In x l.
Proof.
  split; [|apply str_in_true].
  intro H. unfold str_in in H. apply existsb_exists in H.
  destruct H as (y & Hy & E). apply String.eqb_eq in E. now subst y.
Qed.

(** What the loop of the refresh adds to a plan: one child per AVAILABLE
    machine, in order; at most the budget of them deallocations; and the
    machines it lists are the AVAILABLE ones. *)
Lemma plan_refresh_shape
    (minion_pool : MinionPool) (now : Z) (l : list MinionMachine)
    (budget : Z) (plan : refresh_plan) :
  (forall m, In m l -> is_available m = true ->
             expiry_test_returns minion_pool now m) ->
  exists cs ds hs,
    pool_refresh_flow (refresh_plan_of minion_pool now l budget plan)
      = pool_refresh_flow plan ++ cs /\
    machines_to_deallocate (refresh_plan_of minion_pool now l budget plan)
      = machines_to_deallocate plan ++ ds /\
    machines_to_healthcheck (refresh_plan_of minion_pool now l budget plan)
      = machines_to_healthcheck plan ++ hs /\
    Forall2 (refresh_child minion_pool now) (filter is_available l) cs /\
    Z.of_nat (length (filter is_deallocate_child cs)) <= Z.max 0 budget /\
    (forall id, In id (ds ++ hs) <-> In id (map mm_id (filter is_available l))).
Proof.
  revert budget plan. induction l as [|m l IH]; intros budget plan Hin.
  - exists [], [], []. simpl. rewrite !app_nil_r.
    repeat split; try constructor; try lia; intros [].
  - assert (IHl := fun b p => IH b p (fun x Hx => Hin x (or_intror Hx))).
    clear IH. rename IHl into IH.
    cbn [refresh_plan_of filter]. fold (is_available m).
    destruct (is_available m) eqn:Ea; cbn [negb].
    + destruct ((budget >? 0) && expired_at minion_pool now m) eqn:Ed.
      * apply andb_prop in Ed. destruct Ed as (Eb & Ee).
        rewrite Z.gtb_ltb in Eb. apply Z.ltb_lt in Eb.
        destruct (IH (budget - 1)
                    (mkRefreshPlan
                       (pool_refresh_flow plan ++
                        [Task (DeallocateMinionMachineTask (mp_id minion_pool)
                                 (mm_id m) (mp_platform minion_pool))])
                       (machines_to_deallocate plan ++ [mm_id m])
                       (machines_to_healthcheck plan) (skipped_machines plan)))
          as (cs & ds & hs & Hc & Hd & Hh & Hf & Hb & Hi).
        exists (deallocate_task minion_pool (mm_id m) :: cs), (mm_id m :: ds), hs.
        rewrite Hc, Hd, Hh. cbn [pool_refresh_flow machines_to_deallocate
                                 machines_to_healthcheck].
        rewrite <- !app_assoc. cbn [app].
        repeat split; try reflexivity.
        -- constructor; [right; split; [reflexivity|] | exact Hf].
           rewrite (expired_at_returned (Hin m (or_introl eq_refl) Ea)).
           now rewrite Ee.
        -- cbn [filter is_deallocate_child deallocate_task is_deallocate_machine
                length]. lia.
        -- cbn [map In]. intros [H|H]; [now left | right; now apply Hi].
        -- cbn [map In]. intros [H|H]; [now left | right; now apply Hi].
      * destruct (IH budget
                    (mkRefreshPlan
                       (pool_refresh_flow plan ++
                        [_get_healtchcheck_flow_for_minion_machine minion_pool
                           (mm_id m) None MINION_MACHINE_STATUS_AVAILABLE])
                       (machines_to_deallocate plan)
                       (machines_to_healthcheck plan ++ [mm_id m])
                       (skipped_machines plan)))
          as (cs & ds & hs & Hc & Hd & Hh & Hf & Hb & Hi).
        exists (healthcheck_flow minion_pool (mm_id m) :: cs), ds, (mm_id m :: hs).
        rewrite Hc, Hd, Hh. cbn [pool_refresh_flow machines_to_deallocate
                                 machines_to_healthcheck].
        rewrite <- !app_assoc. cbn [app].
        repeat split; try reflexivity.
        -- constructor; [now left | exact Hf].
        -- exact Hb.
        -- cbn [map]. intro H. apply in_app_iff in H.
           destruct H as [H|[H|H]]; [right|now left|right];
             apply Hi; apply in_app_iff; tauto.
        -- cbn [map]. intros [H|H]; apply in_app_iff.
           ++ right. now left.
           ++ apply Hi in H. apply in_app_iff in H.
              destruct H as [H|H]; [now left | right; now right].
    + destruct (IH budget
                  (mkRefreshPlan (pool_refresh_flow plan)
                     (machines_to_deallocate plan) (machines_to_healthcheck plan)
                     (dict_set (mm_id m) (mm_status m) (skipped_machines plan))))
        as (cs & ds & hs & H).
      exists cs, ds, hs. exact H.
Qed.

(** The run of [_get_minion_pool_refresh_flow] when the expiry tests
    return, the rows of the machines of the pool exist and the database does
    not fail. *)
Lemma refresh_flow_run
    (minion_pool : MinionPool) (requery : bool) (w : World) :
  (requery = true ->
   _get_minion_pool (mp_id minion_pool) true w = (Ok minion_pool, w)) ->
  expiry_tests_return minion_pool (utcnow w) ->
  (forall m, In m (minion_machines minion_pool) ->
             has_machine (mm_id m) (db_machines w) = true) ->
  reliable w ->
  exists cs ds hs w',
    _get_minion_pool_refresh_flow minion_pool requery w
    = (Ok (unordered_flow
             (NameFormat MINION_POOL_REFRESH_FLOW_NAME_FORMAT [mp_id minion_pool])
             cs), w') /\
    Forall2 (refresh_child minion_pool (utcnow w))
      (available_machines minion_pool) cs /\
    Z.of_nat (length (filter is_deallocate_child cs))
      <= Z.max 0 (Z.of_nat (length (minion_machines minion_pool))
                  - mp_minimum_minions minion_pool) /\
    (forall id, In id (ds ++ hs) <->
                In id (map mm_id (available_machines minion_pool))) /\
    db_machines w' =
      map (fun m => if str_in (mm_id m) hs
                    then with_machine_status
                           MINION_MACHINE_STATUS_HEALTHCHECKING m else m)
        (map (fun m => if str_in (mm_id m) ds
                       then with_machine_status
                              MINION_MACHINE_STATUS_DEALLOCATING m else m)
           (db_machines w)) /\
    db_pools w' = db_pools w /\ flows_run w' = flows_run w /\
    cron_jobs w' = cron_jobs w.
Proof.
  intros Hquery Hret Hex Hr.
  unfold _get_minion_pool_refresh_flow. unfold bind at 1.
  replace ((if requery then _get_minion_pool (mp_id minion_pool) true
            else ret minion_pool) w) with (Ok minion_pool, w)
    by (destruct requery; [symmetry; now apply Hquery | reflexivity]).
  unfold bind at 1. unfold get_world at 1. cbv zeta.
  unfold bind at 1. unfold lift at 1.
  rewrite (@plan_refresh_complete minion_pool (utcnow w) _ _ _ Hret).
  cbv beta iota.
  set (budget := Z.of_nat (length (minion_machines minion_pool))
                 - mp_minimum_minions minion_pool).
  destruct (@plan_refresh_shape minion_pool (utcnow w)
              (minion_machines minion_pool) budget (mkRefreshPlan [] [] [] [])
              Hret)
    as (cs & ds & hs & Hc & Hd & Hh & Hf & Hb & Hi).
  cbn [pool_refresh_flow machines_to_deallocate machines_to_healthcheck app]
    in Hc, Hd, Hh.
  rewrite Hc, Hd, Hh.
  assert (Hrows : forall id, In id (ds ++ hs) ->
                             has_machine id (db_machines w) = true).
  { intros id Hid. apply Hi in Hid. apply in_map_iff in Hid.
    destruct Hid as (m & <- & Hm). apply filter_In in Hm. now apply Hex. }
  unfold bind at 1. rewrite for_each_set_status_run;
    [|exact Hr | intros id Hid; apply Hrows; apply in_app_iff; now left].
  unfold bind at 1. rewrite for_each_set_status_run;
    [|intro c; apply Hr
     |intros id Hid; simpl; rewrite has_machine_map;
      [apply Hrows; apply in_app_iff; now right
      |intro m; now destruct (str_in (mm_id m) ds)]].
  unfold ret. exists cs, ds, hs. eexists. split; [reflexivity|].
  repeat split; try assumption; try reflexivity; apply Hi.
Qed.

(** X14: when the expiry time of every AVAILABLE machine of the pool that
    was used is a [datetime], so that no expiry test raises, the flow
    [_get_minion_pool_refresh_flow] builds has one child for each AVAILABLE
    machine of the pool, in the order of the pool: its healthcheck flow, or
    its deallocation, and the latter only for a machine that has expired.
    The deallocations leave the pool at least [minimum_minions] machines, or
    all it has when it has fewer. *)
Theorem refresh_flow_children
    (minion_pool : MinionPool) (requery : bool) (w : World) :
  (requery = true ->
   _get_minion_pool (mp_id minion_pool) true w = (Ok minion_pool, w)) ->
  expiry_tests_return minion_pool (utcnow w) ->
  (forall m, In m (minion_machines minion_pool) ->
             has_machine (mm_id m) (db_machines w) = true) ->
  reliable w ->
  exists children w',
    _get_minion_pool_refresh_flow minion_pool requery w
    = (Ok (unordered_flow
             (NameFormat MINION_POOL_REFRESH_FLOW_NAME_FORMAT [mp_id minion_pool])
             children), w') /\
    Forall2 (refresh_child minion_pool (utcnow w))
      (available_machines minion_pool) children /\
    Z.min (mp_minimum_minions minion_pool)
      (Z.of_nat (length (minion_machines minion_pool)))
    <= Z.of_nat (length (minion_machines minion_pool))
       - Z.of_nat (length (filter is_deallocate_child children)).
Proof.
  intros Hquery Hret Hex Hr.
  destruct (refresh_flow_run Hquery Hret Hex Hr)
    as (cs & ds & hs & w' & Hrun & Hf & Hb & _).
  exists cs, w'. split; [exact Hrun|]. split; [exact Hf|]. lia.
Qed.

Lemma refresh_flow_children_witness :
  exists children w',
    _get_minion_pool_refresh_flow refresh_pool true refresh_world
    = (Ok (unordered_flow
             (NameFormat MINION_POOL_REFRESH_FLOW_NAME_FORMAT ["p1"])
             children), w') /\
    Forall2 (refresh_child refresh_pool 500) [recently_used; never_used]
      children /\
    2 <= 3 - Z.of_nat (length (filter is_deallocate_child children)).
Proof.
  apply (@refresh_flow_children refresh_pool true refresh_world).
  - intros _. reflexivity.
  - intros m [<-|[<-|[<-|[]]]] _; eexists; reflexivity.
  - intros m [<-|[<-|[<-|[]]]]; reflexivity.
  - intro c. reflexivity.
Defined.

(** X15: when the expiry time of every AVAILABLE machine of the pool that
    was used is a [datetime], so that no expiry test raises, building the
    refresh flow changes, in the store, the rows of the AVAILABLE machines of
    the pool and nothing else: each of them becomes DEALLOCATING or
    HEALTHCHECKING, every other machine row, the pools, the cron jobs and
    the flows handed to the runner are as before. *)
Theorem refresh_marks_available_machines_only
    (minion_pool : MinionPool) (requery : bool) (w : World) :
  (requery = true ->
   _get_minion_pool (mp_id minion_pool) true w = (Ok minion_pool, w)) ->
  expiry_tests_return minion_pool (utcnow w) ->
  (forall m, In m (minion_machines minion_pool) ->
             has_machine (mm_id m) (db_machines w) = true) ->
  reliable w ->
  exists refresh_flow w',
    _get_minion_pool_refresh_flow minion_pool requery w = (Ok refresh_flow, w') /\
    Forall2 (touched_by_refresh minion_pool) (db_machines w) (db_machines w') /\
    db_pools w' = db_pools w /\ flows_run w' = flows_run w /\
    cron_jobs w' = cron_jobs w.
Proof.
  intros Hquery Hret Hex Hr.
  destruct (refresh_flow_run Hquery Hret Hex Hr)
    as (cs & ds & hs & w' & Hrun & _ & _ & Hi & Hm & Hp & Hfl & Hcr).
  eexists. exists w'. split; [exact Hrun|]. split; [|now repeat split].
  rewrite Hm, map_map. clear Hm Hrun.
  generalize (db_machines w) as rows.
  induction rows as [|row rows IH]; cbn [map]; constructor; [|exact IH].
  unfold touched_by_refresh.
  assert (Eid : mm_id (if str_in (mm_id row) ds
                       then with_machine_status
                              MINION_MACHINE_STATUS_DEALLOCATING row
                       else row) = mm_id row)
    by (now destruct (str_in (mm_id row) ds)).
  rewrite Eid.
  destruct (str_in (mm_id row) hs) eqn:Eh;
    destruct (str_in (mm_id row) ds) eqn:Ed;
    destruct (str_in (mm_id row) (map mm_id (available_machines minion_pool)))
      eqn:Ea;
    try (now left); try (now right); try reflexivity; exfalso.
  - apply str_in_iff in Eh, Ed.
    assert (H : In (mm_id row) (ds ++ hs)) by (apply in_app_iff; now left).
    apply Hi, str_in_iff in H. congruence.
  - apply str_in_iff in Eh.
    assert (H : In (mm_id row) (ds ++ hs)) by (apply in_app_iff; now right).
    apply Hi, str_in_iff in H. congruence.
  - apply str_in_iff in Ed.
    assert (H : In (mm_id row) (ds ++ hs)) by (apply in_app_iff; now left).
    apply Hi, str_in_iff in H. congruence.
  - apply str_in_iff, Hi, in_app_iff in Ea.
    destruct Ea as [H|H]; apply str_in_iff in H; congruence.
Qed.

Lemma refresh_marks_available_machines_only_witness :
  exists refresh_flow w',
    _get_minion_pool_refresh_flow refresh_pool true refresh_world
    = (Ok refresh_flow, w') /\
    Forall2 (touched_by_refresh refresh_pool)
      [recently_used; never_used; busy] (db_machines w') /\
    db_pools w' = db_pools refresh_world /\ flows_run w' = [] /\
    cron_jobs w' = [].
Proof.
  apply (@refresh_marks_available_machines_only refresh_pool true refresh_world).
  - intros _. reflexivity.
  - intros m [<-|[<-|[<-|[]]]] _; eexists; reflexivity.
  - intros m [<-|[<-|[<-|[]]]]; reflexivity.
  - intro c. reflexivity.
Defined.

(** X19: when the expiry time of an AVAILABLE machine of the pool falls
    after [datetime.max], the last microsecond of year 9999,
    [_get_minion_pool_refresh_flow] raises [OverflowError] and leaves the
    world as it was: no flow is built and no row is marked, whatever the
    budget, the other machines, and the state of the database. *)
Theorem refresh_flow_overflow
    (minion_pool : MinionPool) (requery : bool) (w : World)
    (machine : MinionMachine) (last_used_at : Z) :
  (requery = true ->
   _get_minion_pool (mp_id minion_pool) true w = (Ok minion_pool, w)) ->
  In machine (minion_machines minion_pool) ->
  mm_status machine = MINION_MACHINE_STATUS_AVAILABLE ->
  mm_last_used_at machine = Some last_used_at ->
  DATETIME_MAX < last_used_at + mp_minion_max_idle_time minion_pool * 1000000 ->
  _get_minion_pool_refresh_flow minion_pool requery w = (Raise OverflowError, w).
Proof.
  intros Hquery Hin Hav Hlast Hover.
  unfold _get_minion_pool_refresh_flow. unfold bind at 1.
  replace ((if requery then _get_minion_pool (mp_id minion_pool) true
            else ret minion_pool) w) with (Ok minion_pool, w)
    by (destruct requery; [symmetry; now apply Hquery | reflexivity]).
  unfold bind at 1. unfold get_world at 1. cbv zeta.
  unfold bind at 1. unfold lift at 1.
  rewrite (@plan_refresh_overflow minion_pool (utcnow w) _ _ _ machine);
    [reflexivity | exact Hin | |].
  - unfold is_available. rewrite Hav. reflexivity.
  - intros (expired & E). unfold minion_expired in E. rewrite Hlast in E.
    unfold timedelta_of_seconds, datetime_add in E.
    destruct (_ && _); [|discriminate E].
    destruct (_ && _) eqn:R; [|discriminate E].
    apply andb_prop in R. destruct R as (_ & R). apply Z.leb_le in R. lia.
Qed.

Lemma refresh_flow_overflow_witness :
  _get_minion_pool_refresh_flow overflowing_pool false overflowing_world
  = (Raise OverflowError, overflowing_world).
Proof.
  apply (@refresh_flow_overflow overflowing_pool false overflowing_world
           (mkMinionMachine "m1" "p1" MINION_MACHINE_STATUS_AVAILABLE None
              (Some 100)) 100).
  - discriminate.
  - now left.
  - reflexivity.
  - reflexivity.
  - reflexivity.
Defined.

(* ------------------------------------------------------------------ *)
(** ** The release and the cleanup of the machines of an action *)

Lemma set_db_machines_same (w : World) : set_db_machines (db_machines w) w = w.
Proof. now destruct w. Qed.

Lemma str_in_app (x : string) (l1 l2 : list string) :
  str_in x (l1 ++ l2) = str_in x l1 || str_in x l2.
Proof. unfold str_in. apply existsb_app. Qed.

Lemma has_machine_in (m : MinionMachine) (l : list MinionMachine) :
  In m l -> has_machine (mm_id m) l = true.
Proof.
  intro H. unfold has_machine. apply existsb_exists. exists m.
  split; [exact H | apply String.eqb_refl].
Qed.

Lemma has_machine_not_deleted (id : string) (deleted : list string)
    (rows : list MinionMachine) :
  has_machine id rows = true -> ~ In id deleted ->
  has_machine id (filter (fun m => negb (str_in (mm_id m) deleted)) rows) = true.
Proof.
  unfold has_machine. intros H Hn. apply existsb_exists in H.
  destruct H as (m & Hm & E). apply existsb_exists. exists m.
  split; [|exact E]. apply filter_In. split; [exact Hm|].
  apply String.eqb_eq in E. subst id. now rewrite (str_in_false _ _ Hn).
Qed.

Lemma rows_after_release_nil (rows : list MinionMachine) :
  rows_after_release [] [] rows = rows.
Proof.
  unfold rows_after_release. rewrite filter_all by reflexivity.
  cbn [str_in existsb]. apply map_id.
Qed.

Lemma rows_after_release_app
    (freed1 deleted1 freed2 deleted2 : list string) (rows : list MinionMachine) :
  rows_after_release freed2 deleted2 (rows_after_release freed1 deleted1 rows)
  = rows_after_release (freed1 ++ freed2) (deleted1 ++ deleted2) rows.
Proof.
  unfold rows_after_release.
  induction rows as [|m rows IH]; cbn [filter map]; [reflexivity|].
  rewrite str_in_app.
  destruct (str_in (mm_id m) deleted1) eqn:E1; cbn [negb orb filter map];
    [exact IH|].
  assert (Eid : mm_id (if str_in (mm_id m) freed1 then made_available m else m)
                = mm_id m) by (now destruct (str_in (mm_id m) freed1)).
  rewrite Eid.
  destruct (str_in (mm_id m) deleted2); cbn [negb map]; [exact IH|].
  rewrite IH, Eid, str_in_app. f_equal.
  destruct (str_in (mm_id m) freed1), (str_in (mm_id m) freed2); reflexivity.
Qed.

Lemma delete_minion_machine_run (id : string) (w : World) :
  reliable w ->
  db_api.delete_minion_machine id w =
  (Ok tt,
   set_db_machines
     (filter (fun m => negb (String.eqb (mm_id m) id)) (db_machines w)) w).
Proof.
  intro Hr. unfold db_api.delete_minion_machine, bind, get_world, modify.
  now rewrite (ext_reliable _ _ Hr).
Qed.

(** The inner loop of the release. *)
Lemma sweep_pool_machines_run
    (pool_machines : list MinionMachine) (acc : list string) (w : World) :
  reliable w ->
  sweep_pool_machines pool_machines acc w =
  (Ok (acc ++ ids_to_deallocate pool_machines),
   set_db_machines
     (filter (fun m => negb (str_in (mm_id m) (uninitialized_ids pool_machines)))
        (db_machines w)) w).
Proof.
  revert acc w.
  induction pool_machines as [|machine rest IH]; intros acc w Hr;
    cbn [sweep_pool_machines].
  - unfold ret, ids_to_deallocate, uninitialized_ids. cbn [filter map].
    rewrite app_nil_r, filter_all by reflexivity.
    now rewrite set_db_machines_same.
  - unfold ids_to_deallocate, uninitialized_ids. cbn [filter].
    fold (is_uninitialized machine).
    destruct (is_uninitialized machine); cbn [negb map].
    + unfold bind at 1. rewrite (delete_minion_machine_run _ Hr).
      rewrite IH by (intro c; apply Hr).
      unfold ids_to_deallocate, uninitialized_ids, set_db_machines.
      cbn [db_machines db_pools conductor_endpoints cron_jobs flows_run utcnow
           uuid_source uuid_next faults
           conf_minion_pool_default_refresh_period_minutes].
      rewrite <- filter_andb. do 2 f_equal.
      apply filter_ext. intro m. cbn [str_in existsb].
      now rewrite negb_orb, andb_comm.
    + rewrite IH by exact Hr. rewrite <- app_assoc. reflexivity.
Qed.

(** The body of the release for the machines of one pool. *)
Lemma release_pool_run
    (entry : string * list MinionMachine) (w : World) :
  reliable w ->
  (forall id, In id (ids_to_deallocate (snd entry)) ->
              has_machine id (db_machines w) = true) ->
  (forall id, In id (ids_to_deallocate (snd entry)) ->
              ~ In id (uninitialized_ids (snd entry))) ->
  (machine_ids_to_deallocate <- sweep_pool_machines (snd entry) [] ;;
   db_api.set_minion_machines_allocation_statuses
     machine_ids_to_deallocate None MINION_MACHINE_STATUS_AVAILABLE false) w
  = (Ok tt,
     set_db_machines
       (rows_after_release (ids_to_deallocate (snd entry))
          (uninitialized_ids (snd entry)) (db_machines w)) w).
Proof.
  intros Hr Hex Hdis. unfold bind. rewrite (sweep_pool_machines_run _ _ Hr).
  cbn [app]. rewrite set_allocation_statuses_run.
  - reflexivity.
  - intro c. apply Hr.
  - intros id Hid. cbn [set_db_machines db_machines].
    apply has_machine_not_deleted; [now apply Hex | now apply Hdis].
Qed.

Lemma ids_to_deallocate_app (l1 l2 : list MinionMachine) :
  ids_to_deallocate (l1 ++ l2) = ids_to_deallocate l1 ++ ids_to_deallocate l2.
Proof. unfold ids_to_deallocate. now rewrite filter_app, map_app. Qed.

Lemma uninitialized_ids_app (l1 l2 : list MinionMachine) :
  uninitialized_ids (l1 ++ l2) = uninitialized_ids l1 ++ uninitialized_ids l2.
Proof. unfold uninitialized_ids. now rewrite filter_app, map_app. Qed.

(** The loop of the release over the pools. *)
Lemma release_pools_run
    (pool_machine_mappings : list (string * list MinionMachine)) (w : World) :
  reliable w ->
  (forall id, In id (ids_to_deallocate (flat_map snd pool_machine_mappings)) ->
              has_machine id (db_machines w) = true) ->
  (forall id, In id (ids_to_deallocate (flat_map snd pool_machine_mappings)) ->
              ~ In id (uninitialized_ids (flat_map snd pool_machine_mappings))) ->
  for_each pool_machine_mappings (fun entry =>
    machine_ids_to_deallocate <- sweep_pool_machines (snd entry) [] ;;
    db_api.set_minion_machines_allocation_statuses
      machine_ids_to_deallocate None MINION_MACHINE_STATUS_AVAILABLE false) w
  = (Ok tt,
     set_db_machines
       (rows_after_release
          (ids_to_deallocate (flat_map snd pool_machine_mappings))
          (uninitialized_ids (flat_map snd pool_machine_mappings))
          (db_machines w)) w).
Proof.
  revert w.
  induction pool_machine_mappings as [|entry rest IH]; intros w Hr Hex Hdis;
    cbn [for_each flat_map].
  - unfold ret. cbn. rewrite rows_after_release_nil.
    now rewrite set_db_machines_same.
  - cbn [flat_map] in Hex, Hdis.
    rewrite ids_to_deallocate_app in Hex, Hdis.
    rewrite uninitialized_ids_app in Hdis.
    unfold bind at 1. rewrite release_pool_run; cycle 1.
    + exact Hr.
    + intros id Hid. apply Hex. apply in_app_iff. now left.
    + intros id Hid Hd. apply (Hdis id); apply in_app_iff; now left.
    + rewrite IH; cycle 1.
      * intro c. apply Hr.
      * intros id Hid. cbn [set_db_machines db_machines].
        unfold rows_after_release. rewrite has_machine_map.
        -- apply has_machine_not_deleted.
           ++ apply Hex. apply in_app_iff. now right.
           ++ intro Hd. apply (Hdis id); apply in_app_iff; [now right|now left].
        -- intro m. now destruct (str_in (mm_id m) _).
      * intros id Hid Hd. apply (Hdis id); apply in_app_iff; now right.
      * cbn [set_db_machines db_machines db_pools conductor_endpoints cron_jobs
             flows_run utcnow uuid_source uuid_next faults
             conf_minion_pool_default_refresh_period_minutes].
        rewrite rows_after_release_app, ids_to_deallocate_app,
          uninitialized_ids_app. reflexivity.
Qed.

Lemma in_dict_append {V} (k : string) (v x : V) (d : list (string * list V)) :
  In x (flat_map snd (dict_append k v d)) <-> In x (flat_map snd d) \/ x = v.
Proof.
  induction d as [|[k' vs] r IH]; cbn [dict_append flat_map snd].
  - cbn. intuition.
  - destruct (String.eqb k' k); cbn [flat_map snd]; rewrite !in_app_iff.
    + cbn. intuition.
    + rewrite IH. intuition.
Qed.

(** Grouping by pool keeps the machines it is given, and only them. *)
Lemma in_grouped_by_pool
    (keep : MinionMachine -> bool) (l : list MinionMachine)
    (d : list (string * list MinionMachine)) (x : MinionMachine) :
  In x (flat_map snd
          (fold_left (fun d machine =>
                        if keep machine
                        then dict_append (mm_pool_id machine) machine d else d)
             l d))
  <-> In x (flat_map snd d) \/ (In x l /\ keep x = true).
Proof.
  revert d. induction l as [|m l IH]; intro d; cbn [fold_left].
  - cbn. intuition.
  - rewrite IH. destruct (keep m) eqn:Ek.
    + rewrite in_dict_append. cbn [In]. split.
      * intros [[H| ->]|[H K]]; auto.
      * intros [H|[[<-|H] K]]; auto.
    + cbn [In]. split.
      * intros [H|[H K]]; auto.
      * intros [H|[[<-|H] K]]; auto. congruence.
Qed.

(** With distinct ids, the rows after the release of the machines [l] of an
    action are what [released_from_action] says, when [l] holds exactly the
    rows of the action. *)
Lemma rows_after_release_of_action
    (action_id : string) (l rows : list MinionMachine) :
  NoDup (map mm_id rows) ->
  (forall m, In m l <-> In m rows /\ allocated_to action_id m = true) ->
  rows_after_release (ids_to_deallocate l) (uninitialized_ids l) rows
  = released_from_action action_id rows.
Proof.
  intros Hnd Hl. unfold rows_after_release, released_from_action.
  assert (Hdel : forall m, In m rows ->
            str_in (mm_id m) (uninitialized_ids l)
            = allocated_to action_id m && is_uninitialized m).
  { intros m Hm. apply Bool.eq_iff_eq_true.
    rewrite str_in_iff, andb_true_iff. unfold uninitialized_ids.
    rewrite in_map_iff. split.
    - intros (m0 & E & H0). apply filter_In in H0. destruct H0 as (H0 & U).
      apply Hl in H0. destruct H0 as (H0 & A).
      assert (m0 = m) by (now apply (NoDup_map_In_eq mm_id rows)).
      subst m0. now split.
    - intros (A & U). exists m. split; [reflexivity|].
      apply filter_In. split; [|exact U]. apply Hl. now split. }
  assert (Hfree : forall m, In m rows ->
            str_in (mm_id m) (ids_to_deallocate l)
            = allocated_to action_id m && negb (is_uninitialized m)).
  { intros m Hm. apply Bool.eq_iff_eq_true.
    rewrite str_in_iff, andb_true_iff. unfold ids_to_deallocate.
    rewrite in_map_iff. split.
    - intros (m0 & E & H0). apply filter_In in H0. destruct H0 as (H0 & U).
      apply Hl in H0. destruct H0 as (H0 & A).
      assert (m0 = m) by (now apply (NoDup_map_In_eq mm_id rows)).
      subst m0. now split.
    - intros (A & U). exists m. split; [reflexivity|].
      apply filter_In. split; [|exact U]. apply Hl. now split. }
  rewrite (filter_ext_in
             (fun m => negb (str_in (mm_id m) (uninitialized_ids l)))
             (fun m => negb (allocated_to action_id m && is_uninitialized m)))
    by (intros m Hm; now rewrite Hdel).
  apply map_ext_in. intros m Hm. apply filter_In in Hm. destruct Hm as (Hm & K).
  rewrite (Hfree m Hm).
  destruct (allocated_to action_id m), (is_uninitialized m);
    try reflexivity; discriminate K.
Qed.

Lemma released_from_action_none (action_id : string) (rows : list MinionMachine) :
  filter (allocated_to action_id) (released_from_action action_id rows) = [].
Proof.
  apply filter_none. intros x Hx. unfold released_from_action in Hx.
  apply in_map_iff in Hx. destruct Hx as (m & <- & _).
  destruct (allocated_to action_id m) eqn:E; [reflexivity | exact E].
Qed.

(** The run of the release of an action. *)
Lemma action_release_run (action_id : string) (w : World) :
  reliable w ->
  NoDup (map mm_id (db_machines w)) ->
  deallocate_minion_machines_for_action action_id w
  = (Ok tt, set_db_machines (released_from_action action_id (db_machines w)) w).
Proof.
  intros Hr Hnd.
  set (allocated := filter (allocated_to action_id) (db_machines w)).
  set (mappings :=
         fold_left (fun d machine => dict_append (mm_pool_id machine) machine d)
           allocated []).
  assert (Hin : forall m, In m (flat_map snd mappings) <->
                          In m (db_machines w) /\ allocated_to action_id m = true).
  { intro m. unfold mappings.
    rewrite (in_grouped_by_pool (fun _ => true) allocated [] m).
    unfold allocated. rewrite filter_In. cbn. intuition. }
  unfold deallocate_minion_machines_for_action. unfold bind at 1.
  unfold db_api.get_minion_machines at 1. fold (allocated_to action_id).
  fold allocated. fold mappings.
  rewrite <- (@rows_after_release_of_action action_id
                (flat_map snd mappings) (db_machines w) Hnd Hin).
  destruct allocated as [|a rest] eqn:Ea.
  - unfold ret. cbn. rewrite rows_after_release_nil.
    now rewrite set_db_machines_same.
  - apply release_pools_run.
    + exact Hr.
    + intros id Hid. unfold ids_to_deallocate in Hid.
      apply in_map_iff in Hid. destruct Hid as (m & <- & Hm).
      apply filter_In in Hm. apply has_machine_in. now apply Hin.
    + intros id Hid Hd. unfold ids_to_deallocate in Hid.
      unfold uninitialized_ids in Hd. apply in_map_iff in Hid, Hd.
      destruct Hid as (m1 & <- & H1). destruct Hd as (m2 & E & H2).
      apply filter_In in H1, H2. destruct H1 as (H1 & U1), H2 as (H2 & U2).
      assert (m2 = m1)
        by (apply (NoDup_map_In_eq mm_id (db_machines w));
            [exact Hnd | now apply Hin | now apply Hin | exact E]).
      subst m2. now rewrite U2 in U1.
Qed.

(** X16: on a store whose machine ids are distinct and whose database does
    not fail, [deallocate_minion_machines_for_action] returns normally and
    leaves no machine allocated to the action: the rows of the action that
    are UNINITIALIZED are deleted, its other rows are AVAILABLE with no
    action and the [last_used_at] they had, and every other row, in the
    pools of the action or not, is as it was. *)
Theorem action_machines_released
    (action_id : string) (w : World) :
  reliable w ->
  NoDup (map mm_id (db_machines w)) ->
  exists w',
    deallocate_minion_machines_for_action action_id w = (Ok tt, w') /\
    db_machines w' = released_from_action action_id (db_machines w) /\
    db_api.get_minion_machines action_id w' = (Ok [], w') /\
    db_pools w' = db_pools w /\ flows_run w' = flows_run w.
Proof.
  intros Hr Hnd.
  eexists. split; [exact (action_release_run action_id Hr Hnd)|].
  split; [reflexivity|]. split; [|split; reflexivity].
  unfold db_api.get_minion_machines. fold (allocated_to action_id).
  cbn [set_db_machines db_machines]. now rewrite released_from_action_none.
Qed.

Lemma action_machines_released_witness :
  exists w',
    deallocate_minion_machines_for_action "a1" release_scenario_world
    = (Ok tt, w') /\
    db_machines w' =
      [ mkMinionMachine "m1" "p1" MINION_MACHINE_STATUS_AVAILABLE None (Some 400);
        mkMinionMachine "m3" "p1" MINION_MACHINE_STATUS_IN_USE (Some "a2")
          (Some 300);
        mkMinionMachine "m4" "p2" MINION_MACHINE_STATUS_AVAILABLE None None;
        mkMinionMachine "m5" "p1" MINION_MACHINE_STATUS_AVAILABLE None
          (Some 100) ] /\
    db_api.get_minion_machines "a1" w' = (Ok [], w') /\
    db_pools w' = [] /\ flows_run w' = [].
Proof.
  apply (@action_machines_released "a1" release_scenario_world).
  - intro c. reflexivity.
  - simpl. repeat constructor; simpl; intuition discriminate.
Defined.

Lemma fold_left_pointwise {A B} (f g : A -> B -> A) (l : list B) (a : A) :
  (forall x y, f x y = g x y) -> fold_left f l a = fold_left g l a.
Proof.
  intro H. revert a. induction l as [|y l IH]; intro a; simpl; [reflexivity|].
  now rewrite H, IH.
Qed.

(** The inner loop of the cleanup. *)
Lemma delete_machines_run (machines : list MinionMachine) (w : World) :
  reliable w ->
  for_each machines (fun machine => db_api.delete_minion_machine (mm_id machine)) w
  = (Ok tt,
     set_db_machines
       (filter (fun m => negb (str_in (mm_id m) (map mm_id machines)))
          (db_machines w)) w).
Proof.
  revert w. induction machines as [|machine rest IH]; intros w Hr;
    cbn [for_each map].
  - unfold ret. rewrite filter_all by reflexivity.
    now rewrite set_db_machines_same.
  - unfold bind at 1. rewrite (delete_minion_machine_run _ Hr).
    rewrite IH by (intro c; apply Hr).
    unfold set_db_machines.
    cbn [db_machines db_pools conductor_endpoints cron_jobs flows_run utcnow
         uuid_source uuid_next faults
         conf_minion_pool_default_refresh_period_minutes].
    rewrite <- filter_andb. do 2 f_equal.
    apply filter_ext. intro m. cbn [str_in existsb].
    now rewrite negb_orb, andb_comm.
Qed.

(** The loop of the cleanup over the pools. *)
Lemma delete_pools_run
    (pool_machine_mappings : list (string * list MinionMachine)) (w : World) :
  reliable w ->
  for_each pool_machine_mappings (fun entry =>
    for_each (snd entry) (fun machine =>
      db_api.delete_minion_machine (mm_id machine))) w
  = (Ok tt,
     set_db_machines
       (filter (fun m => negb (str_in (mm_id m)
                                 (map mm_id (flat_map snd pool_machine_mappings))))
          (db_machines w)) w).
Proof.
  revert w. induction pool_machine_mappings as [|entry rest IH]; intros w Hr;
    cbn [for_each flat_map map].
  - unfold ret. rewrite filter_all by reflexivity.
    now rewrite set_db_machines_same.
  - unfold bind at 1. rewrite (delete_machines_run _ Hr).
    rewrite IH by (intro c; apply Hr).
    unfold set_db_machines.
    cbn [db_machines db_pools conductor_endpoints cron_jobs flows_run utcnow
         uuid_source uuid_next faults
         conf_minion_pool_default_refresh_period_minutes].
    rewrite <- filter_andb. do 2 f_equal.
    apply filter_ext. intro m. rewrite map_app, str_in_app.
    now rewrite negb_orb, andb_comm.
Qed.

(** X17: on a store whose machine ids are distinct and whose database does
    not fail, [_cleanup_machines_with_statuses_for_action] deletes exactly
    the rows that are allocated to the action, in one of the targeted
    statuses and in no excluded pool; the rows that remain are unchanged and
    in their order. *)
Theorem cleanup_deletes_targeted_rows
    (action_id : string) (targeted_statuses : list machine_status)
    (exclude_pools : list string) (w : World) :
  reliable w ->
  NoDup (map mm_id (db_machines w)) ->
  _cleanup_machines_with_statuses_for_action action_id targeted_statuses
    exclude_pools w
  = (Ok tt,
     set_db_machines
       (filter (fun m => negb (targeted_for_cleanup action_id targeted_statuses
                                 exclude_pools m))
          (db_machines w)) w).
Proof.
  intros Hr Hnd.
  set (machines := filter (allocated_to action_id) (db_machines w)).
  set (keep := fun m : MinionMachine =>
                 status_in (mm_status m) targeted_statuses
                 && negb (str_in (mm_pool_id m) exclude_pools)).
  set (mappings :=
         fold_left (fun d machine =>
                      if keep machine
                      then dict_append (mm_pool_id machine) machine d else d)
           machines []).
  assert (Hin : forall m, In m (flat_map snd mappings) <->
                          In m (db_machines w) /\
                          targeted_for_cleanup action_id targeted_statuses
                            exclude_pools m = true).
  { intro m. unfold mappings. rewrite in_grouped_by_pool.
    unfold machines, targeted_for_cleanup, keep.
    rewrite filter_In, !andb_true_iff. cbn. intuition. }
  assert (Efilter :
    filter (fun m => negb (str_in (mm_id m) (map mm_id (flat_map snd mappings))))
      (db_machines w)
    = filter (fun m => negb (targeted_for_cleanup action_id targeted_statuses
                               exclude_pools m)) (db_machines w)).
  { apply filter_ext_in. intros m Hm. f_equal. apply Bool.eq_iff_eq_true.
    rewrite str_in_iff, in_map_iff. split.
    - intros (m0 & E & H0). apply Hin in H0. destruct H0 as (H0 & T).
      assert (m0 = m) by (now apply (NoDup_map_In_eq mm_id (db_machines w))).
      now subst m0.
    - intro T. exists m. split; [reflexivity|]. apply Hin. now split. }
  rewrite <- Efilter.
  unfold _cleanup_machines_with_statuses_for_action. unfold bind at 1.
  unfold db_api.get_minion_machines at 1. fold (allocated_to action_id).
  fold machines.
  replace (fold_left _ machines [])
    with mappings.
  2:{ unfold mappings. apply fold_left_pointwise. intros d m. unfold keep.
      now destruct (status_in (mm_status m) targeted_statuses),
                   (str_in (mm_pool_id m) exclude_pools). }
  destruct machines as [|a rest] eqn:Ea.
  - unfold ret. cbn. rewrite filter_all by reflexivity.
    now rewrite set_db_machines_same.
  - now apply delete_pools_run.
Qed.

Lemma cleanup_deletes_targeted_rows_witness :
  _cleanup_machines_with_statuses_for_action "a1"
    [MINION_MACHINE_STATUS_UNINITIALIZED; MINION_MACHINE_STATUS_IN_USE] ["p1"]
    release_scenario_world
  = (Ok tt,
     set_db_machines
       [ mkMinionMachine "m1" "p1" MINION_MACHINE_STATUS_IN_USE (Some "a1")
           (Some 400);
         mkMinionMachine "m3" "p1" MINION_MACHINE_STATUS_IN_USE (Some "a2")
           (Some 300);
         mkMinionMachine "m5" "p1" MINION_MACHINE_STATUS_AVAILABLE None
           (Some 100) ]
       release_scenario_world).
Proof.
  apply (@cleanup_deletes_targeted_rows "a1"
           [MINION_MACHINE_STATUS_UNINITIALIZED; MINION_MACHINE_STATUS_IN_USE]
           ["p1"] release_scenario_world).
  - intro c. reflexivity.
  - simpl. repeat constructor; simpl; intuition discriminate.
Defined.

(* ------------------------------------------------------------------ *)
(** ** A reservation and its release *)

Lemma has_machine_true_in (id : string) (l : list MinionMachine) :
  has_machine id l = true <-> In id (map mm_id l).
Proof.
  unfold has_machine. rewrite existsb_exists, in_map_iff. split.
  - intros (m & Hm & E). apply String.eqb_eq in E. now exists m.
  - intros (m & E & Hm). exists m. split; [exact Hm | now apply String.eqb_eq].
Qed.

Lemma NoDup_append {A} (l1 l2 : list A) :
  NoDup l1 -> NoDup l2 -> (forall x, In x l1 -> ~ In x l2) -> NoDup (l1 ++ l2).
Proof.
  intros H1 H2 Hd. induction H1 as [|x l1 Hx H1 IH]; simpl; [exact H2|].
  constructor.
  - rewrite in_app_iff. intros [H|H]; [now apply Hx|].
    apply (Hd x); [now left | exact H].
  - apply IH. intros y Hy. apply Hd. now right.
Qed.

(** X18: a reservation followed by the release of the action gives the
    store back as it was, but for the machines the reservation picked: the
    rows it inserted for new machines, still UNINITIALIZED, are deleted, and
    the picked machines are AVAILABLE with no action and [last_used_at] at
    the time of the reservation. The store has distinct machine ids and no
    machine of the action before the reservation, and the reservation has
    room for its instances, which are distinct. *)
Theorem reservation_then_release
    (minion_pool : MinionPool) (action_id : string)
    (action_instances : list string) (subflow_name : string) (w : World) :
  let picked :=
    map mm_id (firstn (length action_instances)
                 (available_machines minion_pool)) in
  let fresh :=
    fresh_ids w (length action_instances
                 - length (available_machines minion_pool)) in
  Z.of_nat (length action_instances) <=
    Z.of_nat (length (available_machines minion_pool))
    + (mp_maximum_minions minion_pool
       - Z.of_nat (length (minion_machines minion_pool))) ->
  NoDup action_instances ->
  NoDup (map mm_id (minion_machines minion_pool)) ->
  (forall m, In m (minion_machines minion_pool) ->
             has_machine (mm_id m) (db_machines w) = true) ->
  reliable w ->
  NoDup fresh ->
  (forall id, In id fresh -> has_machine id (db_machines w) = false) ->
  NoDup (map mm_id (db_machines w)) ->
  (forall m, In m (db_machines w) -> allocated_to action_id m = false) ->
  exists reservation w1 w2,
    _make_minion_machine_allocation_subflow_for_action
      minion_pool action_id action_instances subflow_name w
    = (Ok reservation, w1) /\
    deallocate_minion_machines_for_action action_id w1 = (Ok tt, w2) /\
    db_machines w2 = map (returned_to_pool picked (utcnow w)) (db_machines w).
Proof.
  intros picked fresh Hroom Hi Hnd Hrows Hr Hfresh Hnew Hids Hfree.
  pose proof (@reservation_run minion_pool action_id action_instances
                subflow_name w Hroom Hi Hnd Hrows Hr Hfresh Hnew) as Hrun.
  fold picked fresh in Hrun.
  do 3 eexists. split; [exact Hrun|].
  split.
  - apply action_release_run; [intro c; apply Hr|].
    cbn [set_db_machines db_machines]. rewrite map_app, !map_map.
    apply NoDup_append.
    + erewrite map_ext; [exact Hids|]. intro m. unfold marked_in_use.
      now destruct (str_in (mm_id m) picked).
    + cbn [new_machine_row mm_id]. now rewrite map_id.
    + intros id H1 H2. cbn [new_machine_row mm_id] in H2. rewrite map_id in H2.
      apply Hnew in H2.
      erewrite map_ext in H1;
        [|intro m; unfold marked_in_use;
          now destruct (str_in (mm_id m) picked)].
      apply has_machine_true_in in H1. congruence.
  - cbn [set_db_machines db_machines]. unfold released_from_action.
    rewrite filter_app, map_app.
    rewrite (filter_none _ (map (new_machine_row minion_pool action_id) fresh)).
    + rewrite app_nil_r, filter_all.
      * rewrite map_map. apply map_ext_in. intros m Hm.
        unfold marked_in_use, returned_to_pool.
        destruct (str_in (mm_id m) picked).
        -- unfold allocated_to, with_allocation, made_available. cbn.
           now rewrite String.eqb_refl.
        -- now rewrite (Hfree m Hm).
      * intros x Hx. apply in_map_iff in Hx. destruct Hx as (m & <- & Hm).
        unfold marked_in_use. destruct (str_in (mm_id m) picked).
        -- unfold is_uninitialized. cbn. now rewrite andb_false_r.
        -- now rewrite (Hfree m Hm).
    + intros x Hx. apply in_map_iff in Hx. destruct Hx as (id & <- & _).
      unfold allocated_to, is_uninitialized. cbn. now rewrite String.eqb_refl.
Qed.

Lemma reservation_then_release_witness :
  exists reservation w1 w2,
    _make_minion_machine_allocation_subflow_for_action
      scenario_pool "a1" ["vm1"; "vm2"; "vm3"] "destination-sub" scenario_world
    = (Ok reservation, w1) /\
    deallocate_minion_machines_for_action "a1" w1 = (Ok tt, w2) /\
    db_machines w2 =
      [ mkMinionMachine "m1" "p1" MINION_MACHINE_STATUS_AVAILABLE None (Some 500);
        mkMinionMachine "m2" "p1" MINION_MACHINE_STATUS_AVAILABLE None
          (Some 500) ].
Proof.
  apply (@reservation_then_release scenario_pool "a1" ["vm1"; "vm2"; "vm3"]
           "destination-sub" scenario_world).
  - vm_compute. discriminate.
  - repeat constructor; simpl; intuition discriminate.
  - simpl. repeat constructor; simpl; intuition discriminate.
  - intros m [<-|[<-|[]]]; reflexivity.
  - intro c. reflexivity.
  - repeat constructor; simpl; intuition discriminate.
  - intros id [<-|[]]. reflexivity.
  - simpl. repeat constructor; simpl; intuition discriminate.
  - intros m [<-|[<-|[]]]; reflexivity.
Defined.
